(** * Card-profile synchronisation engine (server/src/vaultRegistrar.js,
      server/scripts/updateFromExcel.js): a shallow embedding and its
      verified properties.

    Conventions of the embedding.
    - A JavaScript string is a sequence of UTF-16 code units.  It is modelled
      by a Stdlib [string]; each character stands for one code unit in the
      range 0..255.  Code units above 255 are outside the model.
    - A JavaScript value is a [jsval].  Numbers held in cells and overrides
      are the integer-valued ones ([JNum z]); the numbers computed by
      [Number(...)] and [parseFloat(...)] are IEEE-754 binary64 values,
      modelled by [spec_float] with the operations of [SpecFloat].
    - Objects used as dictionaries (spreadsheet rows, card profiles, override
      patches) are [gmap string jsval]; a missing key reads as [JUndefined].
    - The network and the photo directory are explicit: the transport is an
      oracle on an abstract world that is threaded through every call, and the
      directory is a finite map from file names to (base64) contents. *)

From Stdlib Require Import ZArith Ascii String List Bool Lia DecimalString.
From Stdlib Require Import Floats.SpecFloat.
From stdpp Require Import gmap strings.

Local Open Scope Z_scope.

(* ===================================================================== *)
(** * JavaScript primitives used by the program                           *)
(* ===================================================================== *)

Module JS.

(** ** Values *)

Inductive jsval :=
| JUndefined
| JNull
| JBool (b : bool)
| JNum (z : Z)
| JStr (s : string).

(** Property read [o.k] / [o['k']] on an object used as a dictionary. *)
Definition get (o : gmap string jsval) (k : string) : jsval :=
  default JUndefined (o !! k).

(** ToBoolean. *)
Definition truthy (v : jsval) : bool :=
  match v with
  | JUndefined | JNull => false
  | JBool b => b
  | JNum z => negb (z =? 0)
  | JStr s => negb (String.eqb s "")
  end.

(** [a || b]. *)
Definition or (a b : jsval) : jsval := if truthy a then a else b.

(** [a || b || ... ] written as a fold over the operands, last operand
    given apart: the first truthy operand, or the last one. *)
Fixpoint or_chain (vs : list jsval) (last : jsval) : jsval :=
  match vs with
  | [] => last
  | v :: vs' => or v (or_chain vs' last)
  end.

(** Decimal text of an integer-valued number. *)
Definition string_of_Z (z : Z) : string :=
  NilZero.string_of_int (Z.to_int z).

(** [String(v)]. *)
Definition ToString (v : jsval) : string :=
  match v with
  | JUndefined => "undefined"
  | JNull => "null"
  | JBool true => "true"
  | JBool false => "false"
  | JNum z => string_of_Z z
  | JStr s => s
  end.

(** ** Strings *)

(** WhiteSpace and LineTerminator code units below 256. *)
Definition is_white (c : ascii) : bool :=
  match c with
  | "009" | "010" | "011" | "012" | "013" | " " | "160" => true
  | _ => false
  end%char.

Definition is_line_terminator (c : ascii) : bool :=
  match c with
  | "010" | "013" => true
  | _ => false
  end%char.

Fixpoint trimStart (s : string) : string :=
  match s with
  | EmptyString => EmptyString
  | String c s' => if is_white c then trimStart s' else s
  end.

Fixpoint trimEnd (s : string) : string :=
  match s with
  | EmptyString => EmptyString
  | String c s' =>
      match trimEnd s' with
      | EmptyString => if is_white c then EmptyString else String c EmptyString
      | r => String c r
      end
  end.

(** [s.trim()]. *)
Definition trim (s : string) : string := trimEnd (trimStart s).

(** The string begins, respectively ends, with white space. *)
Definition headWhite (x : string) : bool :=
  match x with
  | String c _ => is_white c
  | EmptyString => false
  end.

Fixpoint lastWhite (x : string) : bool :=
  match x with
  | EmptyString => false
  | String c EmptyString => is_white c
  | String _ x' => lastWhite x'
  end.

(** [toLowerCase] on one code unit below 256: A-Z and the Latin-1 capitals
    (192..222 except the multiplication sign 215) move up by 32. *)
Definition lower_char (c : ascii) : ascii :=
  let n := nat_of_ascii c in
  if ((65 <=? n) && (n <=? 90))%nat
     || ((192 <=? n) && (n <=? 222) && negb (n =? 215))%nat
  then ascii_of_nat (n + 32) else c.

Fixpoint toLowerCase (s : string) : string :=
  match s with
  | EmptyString => EmptyString
  | String c s' => String (lower_char c) (toLowerCase s')
  end.

(** [s.includes(needle)]. *)
Fixpoint includes (needle s : string) : bool :=
  String.prefix needle s
  || match s with
     | EmptyString => false
     | String _ s' => includes needle s'
     end.

(** [s.substring(0, n)] and [s.slice(0, n)] for a non-negative integer [n]. *)
Definition substring0 (n : nat) (s : string) : string := String.substring 0 n s.

(** [s.replace(/c/g, r)] for a one-character pattern. *)
Fixpoint replaceAll (c : ascii) (r : string) (s : string) : string :=
  match s with
  | EmptyString => EmptyString
  | String x s' =>
      if Ascii.eqb x c then r +:+ replaceAll c r s'
      else String x (replaceAll c r s')
  end.

(** [s.replace(/[^01]/g, '')]. *)
Fixpoint keep01 (s : string) : string :=
  match s with
  | EmptyString => EmptyString
  | String x s' =>
      if Ascii.eqb x "0" || Ascii.eqb x "1" then String x (keep01 s')
      else keep01 s'
  end.

Definition is_digit (c : ascii) : bool :=
  let n := nat_of_ascii c in ((48 <=? n) && (n <=? 57))%nat.

Definition digit_val (c : ascii) : Z := Z.of_nat (nat_of_ascii c) - 48.

(** ** Numbers: IEEE-754 binary64 *)

Definition prec : Z := 53.
Definition emax : Z := 1024.
Definition NaN : spec_float := S754_nan.
Definition num_zero : spec_float := S754_zero false.
Definition num_one : spec_float := SFone prec emax.

(** [a === b] on two numbers. *)
Definition num_eq (a b : spec_float) : bool := SFeqb a b.

(** The binary64 nearest (ties to even) to the integer [z]. *)
Definition num_of_Z (z : Z) : spec_float := binary_normalize prec emax z 0 false.

(** The binary64 nearest (ties to even) to [(-1)^neg * n * 10^e10], the
    mathematical value of a decimal literal with digits [n]. *)
Definition num_of_decimal (neg : bool) (n e10 : Z) : spec_float :=
  match n with
  | Zpos p =>
      if 0 <=? e10 then binary_round prec emax neg (p * Z.to_pos (10 ^ e10))%positive 0
      else SFdiv prec emax (S754_finite neg p 0)
                           (S754_finite false (Z.to_pos (10 ^ (- e10))) 0)
  | _ => S754_zero neg
  end.

(** The integer part (truncation toward zero) of a finite number. *)
Definition trunc_num (x : spec_float) : option Z :=
  match x with
  | S754_zero _ => Some 0
  | S754_finite s m e =>
      let a := if 0 <=? e then Z.shiftl (Zpos m) e else Z.shiftr (Zpos m) (- e) in
      Some (if s then - a else a)
  | _ => None
  end.

(** *** Reading numeric literals *)

(** The longest run of decimal digits at the head of [s]: its value when
    read after the digits already valued [acc], the number of digits, and
    the rest of the string. *)
Fixpoint read_digits (acc : Z) (s : string) : Z * nat * string :=
  match s with
  | String c s' =>
      if is_digit c then
        let '(v, k, r) := read_digits (10 * acc + digit_val c) s' in (v, S k, r)
      else (acc, O, s)
  | EmptyString => (acc, O, s)
  end.

(** ExponentPart, if one stands at the head of [s]: its signed value and the
    rest; otherwise exponent 0 and [s] itself. *)
Definition read_exponent (s : string) : Z * string :=
  match s with
  | String c s1 =>
      if Ascii.eqb c "e" || Ascii.eqb c "E" then
        let '(sg, s2) :=
          match s1 with
          | String "+" s2 => (false, s2)
          | String "-" s2 => (true, s2)
          | _ => (false, s1)
          end in
        let '(v, k, r) := read_digits 0 s2 in
        match k with
        | O => (0, s)
        | _ => (if sg then - v else v, r)
        end
      else (0, s)
  | EmptyString => (0, s)
  end.

(** StrUnsignedDecimalLiteral without [Infinity], longest match at the head
    of [s]: digits [n], power of ten [e10], and the rest. *)
Definition read_unsigned_decimal (s : string) : option (Z * Z * string) :=
  let '(v1, k1, r1) := read_digits 0 s in
  match r1 with
  | String "." r2 =>
      let '(v2, k2, r3) := read_digits v1 r2 in
      match k1, k2 with
      | O, O => None
      | _, _ => let '(e, r4) := read_exponent r3 in Some (v2, e - Z.of_nat k2, r4)
      end
  | _ =>
      match k1 with
      | O => None
      | _ => let '(e, r4) := read_exponent r1 in Some (v1, e, r4)
      end
  end.

(** Digits of a NonDecimalIntegerLiteral in base 2, 8 or 16. *)
Definition radix_digit (base : Z) (c : ascii) : option Z :=
  let n := Z.of_nat (nat_of_ascii c) in
  let d := if (48 <=? n) && (n <=? 57) then Some (n - 48)
           else if (97 <=? n) && (n <=? 102) then Some (n - 87)
           else if (65 <=? n) && (n <=? 70) then Some (n - 55)
           else None in
  match d with
  | Some v => if v <? base then Some v else None
  | None => None
  end.

Fixpoint read_radix (base acc : Z) (s : string) : option Z :=
  match s with
  | EmptyString => Some acc
  | String c s' =>
      match radix_digit base c with
      | Some v => read_radix base (base * acc + v) s'
      | None => None
      end
  end.

Definition nonempty (s : string) : bool := negb (String.eqb s "").

(** StringToNumber: [Number(s)] for a string [s]. *)
Definition StringToNumber (s : string) : spec_float :=
  let t := trim s in
  let radix base body :=
    if nonempty body then
      match read_radix base 0 body with
      | Some v => num_of_Z v
      | None => NaN
      end
    else NaN in
  match t with
  | EmptyString => num_zero
  | String "0" (String "x" body) | String "0" (String "X" body) => radix 16 body
  | String "0" (String "o" body) | String "0" (String "O" body) => radix 8 body
  | String "0" (String "b" body) | String "0" (String "B" body) => radix 2 body
  | _ =>
      let '(neg, u) :=
        match t with
        | String "+" u => (false, u)
        | String "-" u => (true, u)
        | _ => (false, t)
        end in
      if String.eqb u "Infinity" then S754_infinity neg
      else
        match read_unsigned_decimal u with
        | Some (n, e10, EmptyString) => num_of_decimal neg n e10
        | _ => NaN
        end
  end.

(** [/^\d+(\.\d+)?$/.test(s)]. *)
Definition is_serial (s : string) : bool :=
  let '(_, k1, r1) := read_digits 0 s in
  match k1, r1 with
  | O, _ => false
  | _, EmptyString => true
  | _, String "." r2 =>
      let '(_, k2, r3) := read_digits 0 r2 in
      match k2, r3 with
      | S _, EmptyString => true
      | _, _ => false
      end
  | _, _ => false
  end.

(** [parseFloat(s)]: the longest StrDecimalLiteral at the head of the
    string once leading white space is dropped. *)
Definition parseFloat (s : string) : spec_float :=
  let t := trimStart s in
  let '(neg, u) :=
    match t with
    | String "+" u => (false, u)
    | String "-" u => (true, u)
    | _ => (false, t)
    end in
  if String.prefix "Infinity" u then S754_infinity neg
  else
    match read_unsigned_decimal u with
    | Some (n, e10, _) => num_of_decimal neg n e10
    | None => NaN
    end.

(** ** Dates *)

(** [new Date(ms).getTime()]: TimeClip of a number; [None] is the invalid
    date (NaN time value). *)
Definition TimeClip (ms : spec_float) : option Z :=
  match trunc_num ms with
  | Some t => if Z.abs t <=? 8640000000000000 then Some t else None
  | None => None
  end.

Definition msPerDay : Z := 86400000.

(** Year, month (0..11) and day of month (1..31) of the proleptic Gregorian
    calendar for a day number counted from 1970-01-01. *)
Definition civil_from_days (day : Z) : Z * Z * Z :=
  let z := day + 719468 in
  let era := z / 146097 in
  let doe := z - era * 146097 in
  let yoe := (doe - doe / 1460 + doe / 36524 - doe / 146096) / 365 in
  let doy := doe - (365 * yoe + yoe / 4 - yoe / 100) in
  let mp := (5 * doy + 2) / 153 in
  let d := doy - (153 * mp + 2) / 5 + 1 in
  let m := if mp <? 10 then mp + 3 else mp - 9 in
  (yoe + era * 400 + (if m <=? 2 then 1 else 0), m - 1, d).

Definition getUTCFullYear (t : Z) : Z := fst (fst (civil_from_days (t / msPerDay))).
Definition getUTCMonth (t : Z) : Z := snd (fst (civil_from_days (t / msPerDay))).
Definition getUTCDate (t : Z) : Z := snd (civil_from_days (t / msPerDay)).

End JS.

Import JS.

Notation "a ||| b" := (JS.or a b) (at level 50, left associativity).

(** Object literal [{k1: v1, ...}] (the keys of a literal are distinct). *)
Definition obj (l : list (string * jsval)) : gmap string jsval := list_to_map l.

(** The double quote and the line feed of the template literals. *)
Definition dq : string := String "034" EmptyString.
Definition nl : string := String "010" EmptyString.

(* ===================================================================== *)
(** * server/src/vaultRegistrar.js: mapping, envelopes                    *)
(* ===================================================================== *)

Module Registrar.

Definition DEFAULT_ACCESS_LEVEL : string := "00".
Definition DEFAULT_FACE_ACCESS_LEVEL : string := "00".
Definition DEFAULT_LIFT_ACCESS_LEVEL : string := "00".

(** [s(val)]: safe string trimming and defaulting (the default is never
    given by a caller, so it is the empty string). *)
Definition s (val : jsval) : string :=
  match val with
  | JUndefined | JNull => ""
  | _ => trim (ToString val)
  end.

(** [if (!x) x = d] on a string. *)
Definition orDefault (x d : string) : string := if nonempty x then x else d.

Definition mapRowToProfile (row : gmap string jsval) : gmap string jsval :=
  let name := s (get row "Card Name [Max 50]" ||| get row "Card Name" ||| get row "Name"
                 ||| get row "Employee Name" ||| get row "Employee" ||| get row "Nama") in
  let staffNoRaw := s (get row "Staff No [Max 15]" ||| get row "Staff No. [Max 10]"
                       ||| get row "Emp. No" ||| get row "Employee ID" ||| get row "ID"
                       ||| get row "NIK") in
  let cardNoRaw := s (get row "Card No #[Max 10]" ||| get row "Card No [Max 10]"
                      ||| get row "Card No" ||| get row "CardNo" ||| get row "Card Number") in
  let department := s (get row "Department [Max 50]" ||| get row "Department"
                       ||| get row "Departement" ||| get row "Dept") in
  let company := s (get row "Company [Max 50]" ||| get row "Company"
                    ||| JStr "Merdeka Tsingsan Indonesia") in
  let email := s (get row "Email [Max 50]" ||| get row "Email" ||| get row "Email Address"
                  ||| JStr "") in
  let mobile := s (get row "Mobile No. [Max 20]" ||| get row "Mobile No" ||| get row "Phone"
                   ||| JStr "") in
  let faceAccessLevel :=
    orDefault (s (get row "Face Access Level [Max 3]" ||| get row "Face Access Level"
                  ||| get row "FaceAccessLevel" ||| JStr "")) DEFAULT_FACE_ACCESS_LEVEL in
  let liftAccessLevel :=
    orDefault (s (get row "Lift Access Level [Max 3]" ||| get row "Lift Access Level"
                  ||| get row "LiftAccessLevel" ||| JStr "")) DEFAULT_LIFT_ACCESS_LEVEL in
  let accessLevel0 := s (get row "Access Level [Max 3]" ||| get row "Access Level"
                         ||| get row "AccessLevel") in
  let messHallRaw := s (get row "MessHall" ||| get row "Mess Hall" ||| JStr "") in
  let messHall := trim (toLowerCase messHallRaw) in
  let accessLevel1 :=
    if nonempty accessLevel0 then accessLevel0
    else if String.eqb messHall "labota" then "1"
    else if String.eqb messHall "makarti" then "2"
    else if String.eqb messHall "" || String.eqb messHall "no access!!" then ""
    else "" in
  let accessLevel := orDefault accessLevel1 DEFAULT_ACCESS_LEVEL in
  let cardNo := substring0 10 (orDefault cardNoRaw "") in
  obj [ ("CardNo", JStr cardNo);
        ("StaffNo", JStr staffNoRaw);
        ("Name", JStr name);
        ("Department", JStr department);
        ("Company", JStr company);
        ("AccessLevel", JStr accessLevel);
        ("FaceAccessLevel", JStr faceAccessLevel);
        ("LiftAccessLevel", JStr liftAccessLevel);
        ("Email", JStr email);
        ("MobileNo", JStr mobile);
        ("ActiveStatus", JStr "true");
        ("NonExpired", JStr "true");
        ("ExpiredDate", JStr "");
        ("Download", JStr "true");
        ("Photo", JNull) ].

Definition escapeXml (unsafe : jsval) : string :=
  match unsafe with
  | JUndefined | JNull => ""
  | _ =>
      replaceAll "'" "&apos;"
        (replaceAll "034" "&quot;"
          (replaceAll ">" "&gt;"
            (replaceAll "<" "&lt;"
              (replaceAll "&" "&amp;" (ToString unsafe)))))
  end.

(** One line [        <Tag>${escapeXml(v)}</Tag>] of the two templates. *)
Definition tagLine (tag : string) (v : jsval) : string :=
  "        <" +:+ tag +:+ ">" +:+ escapeXml v +:+ "</" +:+ tag +:+ ">" +:+ nl.

Definition soapEnvNs (soapVersion : string) : string :=
  if String.eqb soapVersion "1.2" then "http://www.w3.org/2003/05/soap-envelope"
  else "http://schemas.xmlsoap.org/soap/envelope/".

Definition photoTag (profile : gmap string jsval) : string :=
  if truthy (get profile "Photo")
  then "<Photo>" +:+ escapeXml (get profile "Photo") +:+ "</Photo>"
  else "<Photo></Photo>".

(** The first two lines shared by both templates. *)
Definition envelopeOpen (soapVersion : string) : string :=
  "<?xml version=" +:+ dq +:+ "1.0" +:+ dq +:+ " encoding=" +:+ dq +:+ "utf-8" +:+ dq +:+ "?>" +:+ nl +:+
  "<soap:Envelope xmlns:xsi=" +:+ dq +:+ "http://www.w3.org/2001/XMLSchema-instance" +:+ dq +:+
  " xmlns:xsd=" +:+ dq +:+ "http://www.w3.org/2001/XMLSchema" +:+ dq +:+
  " xmlns:soap=" +:+ dq +:+ soapEnvNs soapVersion +:+ dq +:+ ">" +:+ nl.

Definition buildAddCardEnvelope (profile : gmap string jsval)
    (namespace soapVersion : string) : string :=
  let p := get profile in
  envelopeOpen soapVersion +:+
  "  <soap:Body>" +:+ nl +:+
  "    <AddCard xmlns=" +:+ dq +:+ namespace +:+ dq +:+ ">" +:+ nl +:+
  "      <CardProfile>" +:+ nl +:+
  tagLine "CardNo" (p "CardNo") +:+
  tagLine "Name" (p "Name") +:+
  tagLine "CardPinNo" (p "CardPinNo" ||| JStr "") +:+
  tagLine "CardType" (p "CardType" ||| JStr "") +:+
  tagLine "Department" (p "Department") +:+
  tagLine "Company" (p "Company") +:+
  tagLine "Gentle" (p "Gentle" ||| JStr "") +:+
  tagLine "AccessLevel" (p "AccessLevel") +:+
  tagLine "FaceAccessLevel" (p "FaceAccessLevel") +:+
  tagLine "LiftAccessLevel" (p "LiftAccessLevel" ||| JStr "") +:+
  tagLine "BypassAP" (p "BypassAP" ||| JStr "false") +:+
  tagLine "ActiveStatus" (p "ActiveStatus") +:+
  tagLine "NonExpired" (p "NonExpired") +:+
  tagLine "ExpiredDate" (p "ExpiredDate") +:+
  tagLine "VehicleNo" (p "VehicleNo" ||| JStr "") +:+
  tagLine "FloorNo" (p "FloorNo" ||| JStr "") +:+
  tagLine "UnitNo" (p "UnitNo" ||| JStr "") +:+
  tagLine "ParkingNo" (p "ParkingNo" ||| JStr "") +:+
  tagLine "StaffNo" (p "StaffNo" ||| JStr "") +:+
  tagLine "Title" (p "Title" ||| JStr "") +:+
  tagLine "Position" (p "Position" ||| JStr "") +:+
  tagLine "NRIC" (p "NRIC" ||| JStr "") +:+
  tagLine "Passport" (p "Passport" ||| JStr "") +:+
  tagLine "Race" (p "Race" ||| JStr "") +:+
  tagLine "DOB" (p "DOB" ||| JStr "") +:+
  tagLine "JoiningDate" (p "JoiningDate" ||| JStr "") +:+
  tagLine "ResignDate" (p "ResignDate" ||| JStr "") +:+
  tagLine "Address1" (p "Address1" ||| JStr "") +:+
  tagLine "Address2" (p "Address2" ||| JStr "") +:+
  tagLine "PostalCode" (p "PostalCode" ||| JStr "") +:+
  tagLine "City" (p "City" ||| JStr "") +:+
  tagLine "State" (p "State" ||| JStr "") +:+
  tagLine "Email" (p "Email") +:+
  tagLine "MobileNo" (p "MobileNo") +:+
  "        " +:+ photoTag profile +:+ nl +:+
  tagLine "Download" (p "Download") +:+
  "      </CardProfile>" +:+ nl +:+
  "    </AddCard>" +:+ nl +:+
  "  </soap:Body>" +:+ nl +:+
  "</soap:Envelope>".

Definition buildUpdateCardEnvelope (profile : gmap string jsval)
    (namespace soapVersion : string) : string :=
  let p := get profile in
  envelopeOpen soapVersion +:+
  "  <soap:Body>" +:+ nl +:+
  "    <UpdateCard xmlns=" +:+ dq +:+ namespace +:+ dq +:+ ">" +:+ nl +:+
  "      <CardNo>" +:+ escapeXml (p "CardNo") +:+ "</CardNo>" +:+ nl +:+
  "      <CardProfile>" +:+ nl +:+
  tagLine "CardNo" (p "CardNo") +:+
  tagLine "Name" (p "Name" ||| JStr "") +:+
  tagLine "CardPinNo" (p "CardPinNo" ||| JStr "") +:+
  tagLine "CardType" (p "CardType" ||| JStr "") +:+
  tagLine "Department" (p "Department" ||| JStr "") +:+
  tagLine "Company" (p "Company" ||| JStr "") +:+
  tagLine "Gentle" (p "Gentle" ||| JStr "") +:+
  tagLine "AccessLevel" (p "AccessLevel" ||| JStr "") +:+
  tagLine "FaceAccessLevel" (p "FaceAccessLevel" ||| JStr "") +:+
  tagLine "LiftAccessLevel" (p "LiftAccessLevel" ||| JStr "") +:+
  tagLine "BypassAP" (p "BypassAP" ||| JStr "false") +:+
  tagLine "ActiveStatus" (p "ActiveStatus" ||| JStr "true") +:+
  tagLine "NonExpired" (p "NonExpired" ||| JStr "true") +:+
  tagLine "ExpiredDate" (p "ExpiredDate" ||| JStr "") +:+
  tagLine "VehicleNo" (p "VehicleNo" ||| JStr "") +:+
  tagLine "FloorNo" (p "FloorNo" ||| JStr "") +:+
  tagLine "UnitNo" (p "UnitNo" ||| JStr "") +:+
  tagLine "ParkingNo" (p "ParkingNo" ||| JStr "") +:+
  tagLine "StaffNo" (p "StaffNo" ||| JStr "") +:+
  tagLine "Title" (p "Title" ||| JStr "") +:+
  tagLine "Position" (p "Position" ||| JStr "") +:+
  tagLine "NRIC" (p "NRIC" ||| JStr "") +:+
  tagLine "Passport" (p "Passport" ||| JStr "") +:+
  tagLine "Race" (p "Race" ||| JStr "") +:+
  tagLine "DOB" (p "DOB" ||| JStr "") +:+
  tagLine "JoiningDate" (p "JoiningDate" ||| JStr "") +:+
  tagLine "ResignDate" (p "ResignDate" ||| JStr "") +:+
  tagLine "Address1" (p "Address1" ||| JStr "") +:+
  tagLine "Address2" (p "Address2" ||| JStr "") +:+
  tagLine "PostalCode" (p "PostalCode" ||| JStr "") +:+
  tagLine "City" (p "City" ||| JStr "") +:+
  tagLine "State" (p "State" ||| JStr "") +:+
  tagLine "Email" (p "Email" ||| JStr "") +:+
  tagLine "MobileNo" (p "MobileNo" ||| JStr "") +:+
  "        " +:+ photoTag profile +:+ nl +:+
  tagLine "Download" (p "Download" ||| JStr "true") +:+
  "      </CardProfile>" +:+ nl +:+
  "    </UpdateCard>" +:+ nl +:+
  "  </soap:Body>" +:+ nl +:+
  "</soap:Envelope>".

(** ** Update mapper *)

(** The table [MAX] of [mapRowToUpdateProfile]. *)
Definition MAX : list (string * nat) :=
  [ ("Name", 40); ("Department", 30); ("Company", 30); ("Title", 25); ("Position", 25);
    ("Address1", 50); ("Email", 50); ("MobileNo", 20); ("VehicleNo", 15); ("StaffNo", 15) ]%nat.

(** [MAX.key]; the keys read by the mapper are all in the table. *)
Definition MAX_ (key : string) : nat :=
  match List.find (fun e => String.eqb (fst e) key) MAX with
  | Some e => snd e
  | None => O
  end.

(** [clip(v, m)]; [m] is falsy when it is 0. *)
Definition clip (v : jsval) (m : nat) : string :=
  match v with
  | JUndefined | JNull => ""
  | _ =>
      let sVal := trim (ToString v) in
      if (negb (m =? 0) && (m <? String.length sVal))%nat then substring0 m sVal else sVal
  end.

Definition months : list string :=
  ["Jan"; "Feb"; "Mar"; "Apr"; "May"; "Jun"; "Jul"; "Aug"; "Sep"; "Oct"; "Nov"; "Dec"].

Definition normalizeExcelDate (val : jsval) : string :=
  match val with
  | JUndefined | JNull => ""
  | _ =>
      let sVal := trim (ToString val) in
      if negb (nonempty sVal) then ""
      else if is_serial sVal then
        let serial := parseFloat sVal in
        let ms := SFmul prec emax
                    (SFmul prec emax (SFsub prec emax serial (num_of_Z 25569)) (num_of_Z 86400))
                    (num_of_Z 1000) in
        match TimeClip ms with
        | Some d =>
            let day := getUTCDate d in
            let mon := nth (Z.to_nat (getUTCMonth d)) months "undefined" in
            let year := getUTCFullYear d in
            string_of_Z day +:+ " " +:+ mon +:+ " " +:+ string_of_Z year
        | None => sVal
        end
      else sVal
  end.

Definition mapRowToUpdateProfile (row : gmap string jsval) : gmap string jsval :=
  let cardNo := substring0 10 (s (get row "CARD NO" ||| get row "Card No" ||| get row "CardNo"
                                  ||| get row "Card Number")) in
  let name := clip (JStr (s (get row "NAME" ||| get row "Name" ||| get row "Card Name"
                             ||| get row "Employee Name"))) (MAX_ "Name") in
  let company := clip (JStr (s (get row "COMPANY" ||| get row "Company"))) (MAX_ "Company") in
  let staffNo := clip (JStr (s (get row "STAFF ID" ||| get row "Staff No" ||| get row "Employee ID"
                                ||| get row "ID"))) (MAX_ "StaffNo") in
  let department := clip (JStr (s (get row "DEPARTMENT" ||| get row "Department")))
                         (MAX_ "Department") in
  let title := clip (JStr (s (get row "TITLE" ||| get row "Title"))) (MAX_ "Title") in
  let position := clip (JStr (s (get row "POSITION" ||| get row "Position"))) (MAX_ "Position") in
  let gentle := s (get row "GENDER" ||| get row "Gender" ||| get row "Gentle") in
  let ktpPassport := s (get row "KTP/PASPORT NO" ||| get row "KTP/PASSPORT NO"
                        ||| get row "NRIC/Passport") in
  let dob := normalizeExcelDate (JStr (s (get row "DATE OF BIRTH" ||| get row "DOB"))) in
  let address := clip (JStr (s (get row "ADDRESS" ||| get row "Address"))) (MAX_ "Address1") in
  let mobile := clip (JStr (s (get row "PHONE NO" ||| get row "Mobile No" ||| get row "Phone")))
                     (MAX_ "MobileNo") in
  let joining := normalizeExcelDate (JStr (s (get row "DATE OF HIRE" ||| get row "Joining Date"))) in
  let resign := normalizeExcelDate (JStr (s (get row "WORK PERIOD END" ||| get row "Resign Date"))) in
  let race := s (get row "RACE" ||| get row "Race") in
  let cardStatus := toLowerCase (s (get row "CARD STATUS" ||| get row "Status" ||| get row "STATUS")) in
  let activeStatus :=
    if nonempty cardStatus then
      (if includes "active" cardStatus then "true"
       else if includes "inactive" cardStatus then "false" else "true")
    else "true" in
  let vehicleNoExplicit := s (get row "VEHICLE NO" ||| get row "Vehicle No" ||| get row "VehicleNo") in
  let messRaw := s (get row "MESSHALL" ||| get row "MessHall" ||| get row "Mess Hall") in
  let messDigits := keep01 messRaw in
  let messLow := toLowerCase messRaw in
  let '(vehicleNo1, accessLevel1) :=
    if negb (nonempty vehicleNoExplicit) then
      let mess := toLowerCase messRaw in
      let v := if includes "makarti" mess then "Makarti MessHall"
               else if includes "labota" mess then "Labota Messhall"
               else "Local Hire / No Access!!" in
      let a := if String.eqb messDigits "00" || includes "no access" messLow
                  || includes "local hire" messLow then "00"
               else if String.eqb messDigits "01" || includes "labota" messLow then "01"
               else if String.eqb messDigits "10" || includes "makarti" messLow then "10"
               else if String.eqb messDigits "11"
                       || (includes "makarti" messLow && includes "labota" messLow) then "11"
               else "" in
      (v, a)
    else
      let a := if String.eqb messDigits "00" then "00"
               else if String.eqb messDigits "01" then "01"
               else if String.eqb messDigits "10" then "10"
               else if String.eqb messDigits "11" then "11"
               else "" in
      (vehicleNoExplicit, a) in
  let accessLevelExplicit := s (get row "ACCESS LEVEL" ||| get row "Access Level"
                                ||| get row "AccessLevel") in
  let accessLevel2 :=
    if negb (nonempty accessLevel1) && nonempty accessLevelExplicit then accessLevelExplicit
    else accessLevel1 in
  let accessLevel := orDefault accessLevel2 DEFAULT_ACCESS_LEVEL in
  let faceAccessLevelExplicit := s (get row "FACE ACCESS LEVEL" ||| get row "Face Access Level"
                                    ||| get row "FaceAccessLevel") in
  let liftAccessLevelExplicit := s (get row "LIFT ACCESS LEVEL" ||| get row "Lift Access Level"
                                    ||| get row "LiftAccessLevel") in
  let vehicleNo :=
    if nonempty vehicleNo1 then
      let v := toLowerCase vehicleNo1 in
      let vehicleNo2 := if includes "makarti" v then "Makarti"
                        else if includes "labota" v then "Labota"
                        else if includes "local" v || includes "no access" v then "NoAccess"
                        else vehicleNo1 in
      clip (JStr vehicleNo2) (MAX_ "VehicleNo")
    else vehicleNo1 in
  obj [ ("CardNo", JStr cardNo);
        ("Name", JStr name);
        ("Company", JStr company);
        ("Department", JStr department);
        ("StaffNo", JStr staffNo);
        ("Title", JStr title);
        ("Position", JStr position);
        ("Gentle", JStr gentle);
        ("NRIC", JStr ktpPassport);
        ("Passport", JStr "");
        ("Race", JStr race);
        ("DOB", JStr dob);
        ("JoiningDate", JStr joining);
        ("ResignDate", JStr resign);
        ("Address1", JStr address);
        ("Email", JStr "");
        ("MobileNo", JStr mobile);
        ("ActiveStatus", JStr activeStatus);
        ("NonExpired", JStr "true");
        ("ExpiredDate", JStr "");
        ("AccessLevel", JStr accessLevel);
        ("FaceAccessLevel", JStr (orDefault faceAccessLevelExplicit DEFAULT_FACE_ACCESS_LEVEL));
        ("LiftAccessLevel", JStr (orDefault liftAccessLevelExplicit DEFAULT_LIFT_ACCESS_LEVEL));
        ("VehicleNo", JStr vehicleNo);
        ("Download", JStr "true");
        ("Photo", JNull) ].

(** ** Photo directory *)

(** Candidate file names, CardNo first and StaffNo as fallback. *)
Definition photoCandidates (cardNo staffNo : jsval) : list string :=
  (if truthy cardNo
   then [ToString cardNo +:+ ".jpg"; ToString cardNo +:+ ".jpeg"; ToString cardNo +:+ ".png"]
   else [])
  ++ (if truthy staffNo
      then [ToString staffNo +:+ ".jpg"; ToString staffNo +:+ ".jpeg"; ToString staffNo +:+ ".png"]
      else []).

(** The first candidate present in the directory, with its content.  The
    directory maps the name of each readable file to the base64 text of its
    bytes. *)
Fixpoint firstExisting (dir : gmap string string) (candidates : list string) : option string :=
  match candidates with
  | [] => None
  | fname :: rest =>
      match dir !! fname with
      | Some content => Some content
      | None => firstExisting dir rest
      end
  end.

(** [tryAttachPhoto(outputDir, profile)]: the profile after the call and the
    returned flag. *)
Definition tryAttachPhoto (dir : gmap string string) (profile : gmap string jsval)
    : gmap string jsval * bool :=
  match firstExisting dir (photoCandidates (get profile "CardNo") (get profile "StaffNo")) with
  | Some content => (<["Photo" := JStr content]> profile, true)
  | None => (profile, false)
  end.

Definition photoExists (dir : gmap string string) (cardNo staffNo : jsval) : bool :=
  match firstExisting dir (photoCandidates cardNo staffNo) with
  | Some _ => true
  | None => false
  end.

(** ** Transport *)

Record request := {
  url : string;
  headers : list (string * string);
  body : string }.

(** What [fetch] followed by [res.text()] yields: an exception carrying its
    message, or the HTTP status and the body text. *)
Inductive fetchResult :=
| FetchThrows (message : string)
| FetchResponse (httpStatus : Z) (text : string).

Record response := {
  status : string;
  httpStatus : Z;
  errCode : option string;
  errMessage : option string;
  ident : option string;
  raw : string }.

(** [res.ok]. *)
Definition res_ok (st : Z) : bool := (200 <=? st) && (st <=? 299).

Definition soapHeaders (soapVersion soapAction : string) : list (string * string) :=
  if String.eqb soapVersion "1.2" then
    let ct := "application/soap+xml; charset=utf-8" in
    let ct := if nonempty soapAction && nonempty (trim soapAction)
              then ct +:+ "; action=" +:+ dq +:+ soapAction +:+ dq else ct in
    [("Content-Type", ct)]
  else [("Content-Type", "text/xml; charset=utf-8"); ("SOAPAction", soapAction)].

(** *** Tag scraping *)

Definition fold_ascii (c : ascii) : ascii :=
  let n := nat_of_ascii c in
  if ((65 <=? n) && (n <=? 90))%nat then ascii_of_nat (n + 32) else c.

(** The literal [pat] stands at the head of [t]; with [ci], letters compare
    without case (flag [i], the patterns are ASCII). *)
Fixpoint literalAt (ci : bool) (pat t : string) : option string :=
  match pat, t with
  | EmptyString, _ => Some t
  | String a pat', String b t' =>
      if (if ci then Ascii.eqb (fold_ascii a) (fold_ascii b) else Ascii.eqb a b)
      then literalAt ci pat' t' else None
  | String _ _, EmptyString => None
  end.

(** The lazy group [(.*?)] or [([\s\S]*?)] followed by the literal [close]. *)
Fixpoint captureUntil (ci dotall : bool) (close t : string) : option string :=
  match literalAt ci close t with
  | Some _ => Some EmptyString
  | None =>
      match t with
      | EmptyString => None
      | String c t' =>
          if dotall || negb (is_line_terminator c)
          then option_map (String c) (captureUntil ci dotall close t')
          else None
      end
  end.

(** [text.match(/<Tag>(.*?)<\/Tag>/)]: group 1 of the first match. *)
Fixpoint matchTag (ci dotall : bool) (tag : string) (t : string) : option string :=
  let here :=
    match literalAt ci ("<" +:+ tag +:+ ">") t with
    | Some rest => captureUntil ci dotall ("</" +:+ tag +:+ ">") rest
    | None => None
    end in
  match here with
  | Some g => Some g
  | None =>
      match t with
      | EmptyString => None
      | String _ t' => matchTag ci dotall tag t'
      end
  end.

Definition parseAddCardResponse (st : Z) (text : string) : response :=
  {| status := if res_ok st then "ok" else "error";
     httpStatus := st;
     errCode := matchTag false false "ErrCode" text;
     errMessage := matchTag false false "ErrMessage" text;
     ident := match matchTag false false "CardID" text with
              | Some g => Some g
              | None => matchTag false false "ID" text
              end;
     raw := text |}.

Definition parseUpdateCardResponse (st : Z) (text : string) : response :=
  {| status := if res_ok st then "ok" else "error";
     httpStatus := st;
     errCode := option_map trim (matchTag true true "ErrCode" text);
     errMessage := option_map trim (matchTag true true "ErrMessage" text);
     ident := option_map trim (matchTag true true "MediaID" text);
     raw := text |}.

(** ** Result classification *)

Definition in2xx (st : Z) : bool := (200 <=? st) && (st <? 300).

(** [errCodeNum] and [bizSuccess] of [registerJobToVault]. *)
Definition errCodeNum (resp : response) : spec_float :=
  match errCode resp with
  | Some c => StringToNumber c
  | None => NaN
  end.

Definition bizSuccess (resp : response) : bool :=
  in2xx (httpStatus resp)
  && (num_eq (errCodeNum resp) num_zero || num_eq (errCodeNum resp) num_one).

(** [ok] of [updateCsvPathToVault] and [updateCsvRowToVault]. *)
Definition updateOk (resp : response) : bool :=
  String.eqb (status resp) "ok"
  && match errCode resp with
     | None => true
     | Some c => negb (nonempty c) || String.eqb c "0"
     end.

(** [resp.errMessage || 'Unknown error']. *)
Definition messageOr (m : option string) : string :=
  match m with
  | Some x => if nonempty x then x else "Unknown error"
  | None => "Unknown error"
  end.

Record errorRecord := {
  code : string;
  message : string;
  e_errCode : option string;
  e_cardNo : jsval;
  e_index : option nat;
  e_name : jsval }.

Record detail := {
  d_cardNo : jsval;
  d_name : jsval;
  d_hasPhoto : bool;
  respCode : option string;
  respMessage : option string;
  d_profile : gmap string jsval }.

Record result := {
  attempted : nat;
  registered : nat;
  withPhoto : nat;
  withoutPhoto : nat;
  errors : list errorRecord;
  details : list detail }.

(** The errors pushed by the create batch for a response. *)
Definition httpError (resp : response) (profile : gmap string jsval) : errorRecord :=
  {| code := "HTTP_ERROR"; message := "HTTP " +:+ string_of_Z (httpStatus resp);
     e_errCode := None; e_cardNo := get profile "CardNo"; e_index := None;
     e_name := JUndefined |}.

Definition vaultError (resp : response) (profile : gmap string jsval) (i : option nat)
    : errorRecord :=
  {| code := "VAULT_ERROR"; message := messageOr (errMessage resp);
     e_errCode := errCode resp; e_cardNo := get profile "CardNo"; e_index := i;
     e_name := JUndefined |}.

Definition requestFailed (msg : string) (profile : gmap string jsval) (i : option nat)
    : errorRecord :=
  {| code := "REQUEST_FAILED"; message := msg; e_errCode := None;
     e_cardNo := get profile "CardNo"; e_index := i; e_name := JUndefined |}.

Definition cardNoMissing (i : nat) (profile : gmap string jsval) : errorRecord :=
  {| code := "CARD_NO_MISSING"; message := "Card No is required"; e_errCode := None;
     e_cardNo := JUndefined; e_index := Some i; e_name := get profile "Name" |}.

(** ** Batch orchestration *)

(** One network call, as the audit log records it before the request is
    sent ([soap_request] events): the row it is made for and the envelope. *)
Record call := {
  c_index : nat;
  c_envelope : string }.

Section Orchestrator.

(** The remote endpoint: an arbitrary oracle over an abstract world. *)
Context {W : Type}.
Variable fetch : W -> request -> W * fetchResult.

(** Configuration read from the environment when the module loads. *)
Variables SOAP_ACTION SOAP_NAMESPACE SOAP_VERSION UPDATE_SOAP_ACTION : string.

(** The directory searched for photos. *)
Variable dir : gmap string string.

(** State threaded through a run: the world and the calls made so far. *)
Record state := {
  world : W;
  calls : list call }.

Definition M (A : Type) : Type := state -> A * state.
Definition ret {A} (a : A) : M A := fun st => (a, st).
Definition bind {A B} (m : M A) (k : A -> M B) : M B :=
  fun st => let '(a, st') := m st in k a st'.

Notation "'run' x <- m 'in' k" := (bind m (fun x => k))
  (at level 10, x name, m at level 200, k at level 200, only parsing).

(** [await postAddCard(...)] inside [try]: the parsed response, or the
    message of the exception. *)
Definition postAddCard (i : nat) (endpointBaseUrl envelope : string)
    : M (string + response) :=
  fun st =>
    let req := {| url := endpointBaseUrl;
                  headers := soapHeaders SOAP_VERSION SOAP_ACTION;
                  body := envelope |} in
    let '(w', r) := fetch (world st) req in
    let st' := {| world := w';
                  calls := calls st ++ [{| c_index := i; c_envelope := envelope |}] |} in
    match r with
    | FetchThrows msg => (inl msg, st')
    | FetchResponse code text => (inr (parseAddCardResponse code text), st')
    end.

Definition postUpdateCard (i : nat) (endpointBaseUrl envelope : string)
    : M (string + response) :=
  fun st =>
    let req := {| url := endpointBaseUrl;
                  headers := soapHeaders SOAP_VERSION UPDATE_SOAP_ACTION;
                  body := envelope |} in
    let '(w', r) := fetch (world st) req in
    let st' := {| world := w';
                  calls := calls st ++ [{| c_index := i; c_envelope := envelope |}] |} in
    match r with
    | FetchThrows msg => (inl msg, st')
    | FetchResponse code text => (inr (parseUpdateCardResponse code text), st')
    end.

(** *** Create batch *)

(** The override map of the create batch: for each override whose index
    is a number, the trimmed and clipped card number (when it is a string)
    and the download flag (when it is a boolean); a later override of the
    same index replaces an earlier one. *)
Fixpoint overrideMapOf (overrides : list (gmap string jsval))
    (m : gmap Z (option string * option bool)) : gmap Z (option string * option bool) :=
  match overrides with
  | [] => m
  | o :: rest =>
      match get o "index" with
      | JNum ix =>
          let cardNoVal := match get o "cardNo" with
                           | JStr c => Some (substring0 10 (trim c))
                           | _ => None
                           end in
          let downloadCardVal := match get o "downloadCard" with
                                 | JBool b => Some b
                                 | _ => None
                                 end in
          overrideMapOf rest (<[ix := (cardNoVal, downloadCardVal)]> m)
      | _ => overrideMapOf rest m
      end
  end.

Definition applyCreateOverride (item : option (option string * option bool))
    (profile : gmap string jsval) : gmap string jsval :=
  match item with
  | Some (cardNoVal, downloadCardVal) =>
      let p1 := match cardNoVal with
                | Some c => <["CardNo" := JStr (orDefault c "")]> profile
                | None => profile
                end in
      match downloadCardVal with
      | Some b => <["DownloadCard" := JStr (if b then "true" else "false")]> p1
      | None => p1
      end
  | None => profile
  end.

(** The body of the [for] loop of [registerJobToVault] for row [i]. *)
Definition registerRow (endpointBaseUrl : string)
    (overrideMap : gmap Z (option string * option bool))
    (i : nat) (row : gmap string jsval) (res : result) : M result :=
  let profile := mapRowToProfile row in
  let res := {| attempted := S (attempted res); registered := registered res;
                withPhoto := withPhoto res; withoutPhoto := withoutPhoto res;
                errors := errors res; details := details res |} in
  let profile := applyCreateOverride (overrideMap !! Z.of_nat i) profile in
  if negb (truthy (get profile "CardNo")) then
    ret {| attempted := attempted res; registered := registered res;
           withPhoto := withPhoto res; withoutPhoto := withoutPhoto res;
           errors := errors res ++ [cardNoMissing i profile];
           details := details res ++
             [{| d_cardNo := JStr ""; d_name := get profile "Name"; d_hasPhoto := false;
                 respCode := Some "CARD_NO_MISSING";
                 respMessage := Some "Card No is required"; d_profile := profile |}] |}
  else
    let '(profile, hasPhoto) := tryAttachPhoto dir profile in
    let wp := if hasPhoto then S (withPhoto res) else withPhoto res in
    let wo := if hasPhoto then withoutPhoto res else S (withoutPhoto res) in
    let envelope := buildAddCardEnvelope profile SOAP_NAMESPACE SOAP_VERSION in
    run r <- postAddCard i endpointBaseUrl envelope in
    match r with
    | inr resp =>
        let d := {| d_cardNo := get profile "CardNo"; d_name := get profile "Name";
                    d_hasPhoto := hasPhoto; respCode := errCode resp;
                    respMessage := errMessage resp; d_profile := profile |} in
        if bizSuccess resp then
          ret {| attempted := attempted res; registered := S (registered res);
                 withPhoto := wp; withoutPhoto := wo;
                 errors := errors res; details := details res ++ [d] |}
        else if negb (in2xx (httpStatus resp)) then
          ret {| attempted := attempted res; registered := registered res;
                 withPhoto := wp; withoutPhoto := wo;
                 errors := errors res ++ [httpError resp profile];
                 details := details res ++ [d] |}
        else
          ret {| attempted := attempted res; registered := registered res;
                 withPhoto := wp; withoutPhoto := wo;
                 errors := errors res ++ [vaultError resp profile None];
                 details := details res ++ [d] |}
    | inl msg =>
        ret {| attempted := attempted res; registered := registered res;
               withPhoto := wp; withoutPhoto := wo;
               errors := errors res ++ [requestFailed msg profile None];
               details := details res |}
    end.

Fixpoint registerLoop (endpointBaseUrl : string)
    (overrideMap : gmap Z (option string * option bool))
    (i : nat) (rows : list (gmap string jsval)) (res : result) : M result :=
  match rows with
  | [] => ret res
  | row :: rest =>
      run res' <- registerRow endpointBaseUrl overrideMap i row res in
      registerLoop endpointBaseUrl overrideMap (S i) rest res'
  end.

Definition emptyResult : result :=
  {| attempted := 0; registered := 0; withPhoto := 0; withoutPhoto := 0;
     errors := []; details := [] |}.

Definition fatal (c msg : string) : errorRecord :=
  {| code := c; message := msg; e_errCode := None; e_cardNo := JUndefined;
     e_index := None; e_name := JUndefined |}.

(** [registerJobToVault]: [outputDirExists] is [fse.pathExistsSync(outputDir)]
    and [rows] is what [readRowsFromOutputDir] returns. *)
Definition registerJobToVault (outputDir : string) (outputDirExists : bool)
    (rows : list (gmap string jsval)) (endpointBaseUrl : string)
    (overrides : list (gmap string jsval)) : M result :=
  if negb outputDirExists then
    ret {| attempted := 0; registered := 0; withPhoto := 0; withoutPhoto := 0;
           errors := [fatal "OUTPUT_NOT_FOUND" ("Output directory not found: " +:+ outputDir)];
           details := [] |}
  else
    match rows with
    | [] => ret {| attempted := 0; registered := 0; withPhoto := 0; withoutPhoto := 0;
                   errors := [fatal "NO_ROWS" "No rows found in Excel/CSV outputs."];
                   details := [] |}
    | _ => registerLoop endpointBaseUrl (overrideMapOf overrides ∅) 0 rows emptyResult
    end.

(** *** Update batch *)

(** [overrides.find(o => o.index === i)]. *)
Definition findOverride (overrides : list (gmap string jsval)) (i : nat)
    : option (gmap string jsval) :=
  List.find (fun o => match get o "index" with
                      | JNum ix => ix =? Z.of_nat i
                      | _ => false
                      end) overrides.

(** The [cardNo] and [downloadCard] part of an override of the update paths. *)
Definition applyUpdateOverride (override profile : gmap string jsval) : gmap string jsval :=
  let p1 := if truthy (get override "cardNo")
            then <["CardNo" := JStr (substring0 10 (s (get override "cardNo")))]> profile
            else profile in
  match get override "downloadCard" with
  | JBool b => <["Download" := JStr (ToString (JBool b))]> p1
  | _ => p1
  end.

(** What both update paths do with a mapped and patched profile: attach the
    photo, build the envelope, post it and classify the response.  [ix] is the
    [index] stored in an error record (the single-row path stores none). *)
Definition submitUpdate (endpointBaseUrl : string) (i : nat) (ix : option nat)
    (profile : gmap string jsval) (res : result) : M result :=
  let '(profile, hasPhoto) := tryAttachPhoto dir profile in
  let wp := if hasPhoto then S (withPhoto res) else withPhoto res in
  let wo := if hasPhoto then withoutPhoto res else S (withoutPhoto res) in
  let envelope := buildUpdateCardEnvelope profile SOAP_NAMESPACE SOAP_VERSION in
  run r <- postUpdateCard i endpointBaseUrl envelope in
  match r with
  | inr resp =>
      let d := {| d_cardNo := get profile "CardNo"; d_name := get profile "Name";
                  d_hasPhoto := truthy (get profile "Photo"); respCode := errCode resp;
                  respMessage := errMessage resp; d_profile := profile |} in
      if updateOk resp then
        ret {| attempted := attempted res; registered := S (registered res);
               withPhoto := wp; withoutPhoto := wo;
               errors := errors res; details := details res ++ [d] |}
      else
        ret {| attempted := attempted res; registered := registered res;
               withPhoto := wp; withoutPhoto := wo;
               errors := errors res ++ [vaultError resp profile ix];
               details := details res ++ [d] |}
  | inl msg =>
      ret {| attempted := attempted res; registered := registered res;
             withPhoto := wp; withoutPhoto := wo;
             errors := errors res ++ [requestFailed msg profile ix];
             details := details res |}
  end.

(** The body of the [for] loop of [updateCsvPathToVault] for row [i]. *)
Definition updateRow (endpointBaseUrl : string) (overrides : list (gmap string jsval))
    (i : nat) (row : gmap string jsval) (res : result) : M result :=
  let profile := mapRowToUpdateProfile row in
  let profile := match findOverride overrides i with
                 | Some override => applyUpdateOverride override profile
                 | None => profile
                 end in
  submitUpdate endpointBaseUrl i (Some i) profile res.

Fixpoint updateLoop (endpointBaseUrl : string) (overrides : list (gmap string jsval))
    (i : nat) (rows : list (gmap string jsval)) (res : result) : M result :=
  match rows with
  | [] => ret res
  | row :: rest =>
      run res' <- updateRow endpointBaseUrl overrides i row res in
      updateLoop endpointBaseUrl overrides (S i) rest res'
  end.

(** [updateCsvPathToVault]: [rows] is what [readRowsFromCsvPath(csvPath)]
    returns (the empty list when the file cannot be read). *)
Definition updateCsvPathToVault (rows : list (gmap string jsval)) (endpointBaseUrl : string)
    (overrides : list (gmap string jsval)) : M result :=
  updateLoop endpointBaseUrl overrides 0 rows
    {| attempted := length rows; registered := 0; withPhoto := 0; withoutPhoto := 0;
       errors := []; details := [] |}.

(** *** Single-row update *)

Definition overrideKeys : list string :=
  [ "Name"; "Department"; "Company"; "Gentle"; "AccessLevel"; "FaceAccessLevel";
    "LiftAccessLevel"; "BypassAP"; "ActiveStatus"; "NonExpired"; "ExpiredDate";
    "VehicleNo"; "FloorNo"; "UnitNo"; "ParkingNo"; "StaffNo"; "Title"; "Position"; "NRIC";
    "Passport"; "Race"; "DOB"; "JoiningDate"; "ResignDate";
    "Address1"; "Address2"; "PostalCode"; "City"; "State"; "Email"; "MobileNo"; "Download" ].

(** [for (const key of overrideKeys) if (hasOwnProperty(override, key)) ...]. *)
Definition applyFieldOverrides (override profile : gmap string jsval) : gmap string jsval :=
  fold_left (fun p key => match override !! key with
                          | Some val => <[key := JStr (ToString val)]> p
                          | None => p
                          end) overrideKeys profile.

Record rowStatus := {
  rs_ok : bool;
  rs_code : option string;
  rs_message : option string }.

Record singleResult := {
  s_result : result;
  s_rowStatus : option rowStatus }.

(** [updateCsvRowToVault]; the request identifier, the durations and the raw
    snippet of the returned object are left out. *)
Definition updateCsvRowToVault (rows : list (gmap string jsval)) (index : Z)
    (endpointBaseUrl : string) (override : option (gmap string jsval)) : M singleResult :=
  if (index <? 0) || (Z.of_nat (length rows) <=? index) then
    ret {| s_result :=
             {| attempted := 0; registered := 0; withPhoto := 0; withoutPhoto := 0;
                errors := [fatal "INDEX_OUT_OF_RANGE"
                             ("Index out of range. index=" +:+ string_of_Z index +:+ ", rows="
                              +:+ string_of_Z (Z.of_nat (length rows)))];
                details := [] |};
           s_rowStatus := None |}
  else
    let i := Z.to_nat index in
    let row := nth i rows ∅ in
    let profile := mapRowToUpdateProfile row in
    let profile := match override with
                   | Some o => applyFieldOverrides o (applyUpdateOverride o profile)
                   | None => profile
                   end in
    run res <- submitUpdate endpointBaseUrl i None profile
                 {| attempted := 1; registered := 0; withPhoto := 0; withoutPhoto := 0;
                    errors := []; details := [] |} in
    ret {| s_result := res;
           s_rowStatus := Some
             {| rs_ok := match errors res with [] => true | _ => false end;
                rs_code := match details res with
                           | d :: _ => respCode d
                           | [] => None
                           end;
                rs_message := match details res with
                              | d :: _ => respMessage d
                              | [] => match errors res with
                                      | e :: _ => if nonempty (message e) then Some (message e)
                                                  else None
                                      | [] => None
                                      end
                              end |} |}.

(** [previewUpdateCsvPathToVault]: the [details] of the returned object. *)
Definition previewUpdateCsvPathToVault (rows : list (gmap string jsval)) : list detail :=
  map (fun row =>
         let profile := mapRowToUpdateProfile row in
         {| d_cardNo := get profile "CardNo"; d_name := get profile "Name";
            d_hasPhoto := photoExists dir (get profile "CardNo") (get profile "StaffNo");
            respCode := None; respMessage := None; d_profile := profile |}) rows.

(** *** Names for what the batches send *)

(** The profile of row [i] after mapping and override, in each batch. *)
Definition createProfile (overrides : list (gmap string jsval)) (i : nat)
    (row : gmap string jsval) : gmap string jsval :=
  applyCreateOverride (overrideMapOf overrides ∅ !! Z.of_nat i) (mapRowToProfile row).

Definition updateProfile (overrides : list (gmap string jsval)) (i : nat)
    (row : gmap string jsval) : gmap string jsval :=
  match findOverride overrides i with
  | Some override => applyUpdateOverride override (mapRowToUpdateProfile row)
  | None => mapRowToUpdateProfile row
  end.

(** The request made for a profile ready to be sent, in each batch. *)
Definition addRequest (endpointBaseUrl : string) (profile : gmap string jsval) : request :=
  {| url := endpointBaseUrl;
     headers := soapHeaders SOAP_VERSION SOAP_ACTION;
     body := buildAddCardEnvelope (fst (tryAttachPhoto dir profile))
               SOAP_NAMESPACE SOAP_VERSION |}.

Definition updateRequest (endpointBaseUrl : string) (profile : gmap string jsval) : request :=
  {| url := endpointBaseUrl;
     headers := soapHeaders SOAP_VERSION UPDATE_SOAP_ACTION;
     body := buildUpdateCardEnvelope (fst (tryAttachPhoto dir profile))
               SOAP_NAMESPACE SOAP_VERSION |}.

(** The calls of a pass over [rows], numbered from [i]: one per row. *)
Fixpoint updateCalls (endpointBaseUrl : string) (overrides : list (gmap string jsval))
    (i : nat) (rows : list (gmap string jsval)) : list call :=
  match rows with
  | [] => []
  | row :: rest =>
      {| c_index := i;
         c_envelope := body (updateRequest endpointBaseUrl (updateProfile overrides i row)) |}
      :: updateCalls endpointBaseUrl overrides (S i) rest
  end.

(** Error records that carry distinct row indices, all in [[lo, hi)]. *)
Definition indexed (lo hi : nat) (errs : list errorRecord) : Prop :=
  exists idxs : list nat,
    map e_index errs = map Some idxs
    /\ NoDup idxs
    /\ Forall (fun j => (lo <= j < hi)%nat) idxs.

End Orchestrator.

End Registrar.
Import Registrar.

(* ===================================================================== *)
(** * server/scripts/updateFromExcel.js: batch mode and automatic retry   *)
(* ===================================================================== *)

Module UpdateFromExcel.
Section Main.

Context {W : Type}.
Variable fetch : W -> request -> W * fetchResult.
Variables SOAP_NAMESPACE SOAP_VERSION UPDATE_SOAP_ACTION : string.
Variable dir : gmap string string.

Notation "'run' x <- m 'in' k" := (bind m (fun x => k))
  (at level 10, x name, m at level 200, k at level 200, only parsing).

(** The table [MAX] of the automatic retry. *)
Definition RETRY_MAX : list (string * nat) :=
  [ ("Name", 50); ("Department", 50); ("Company", 50); ("Title", 50); ("Position", 50);
    ("Address1", 50); ("Address2", 50); ("Email", 50); ("MobileNo", 20); ("VehicleNo", 50);
    ("StaffNo", 15) ]%nat.

(** [isTruncated(msg)]. *)
Definition isTruncated (msg : string) : bool :=
  includes "truncated" (toLowerCase msg).

(** The override built for a retry from the previewed profile: every truthy
    field of the table cut at its maximum, and the Download preference. *)
Definition retryOverride (profile : gmap string jsval) : gmap string jsval :=
  let override :=
    fold_left (fun o e =>
                 let key := fst e in
                 if truthy (get profile key)
                 then <[key := JStr (substring0 (snd e) (ToString (get profile key)))]> o
                 else o) RETRY_MAX ∅ in
  match profile !! "Download" with
  | Some JUndefined | None => override
  | Some v => <["Download" := v]> override
  end.

Record retryError := {
  r_index : nat;
  r_cardNo : jsval;
  r_message : string }.

(** [(single.rowStatus.message) || (single.error) || 'Unknown error']; the
    returned object never has an [error] property. *)
Definition retryMessage (single : singleResult) : string :=
  match s_rowStatus single with
  | Some rs => messageOr (rs_message rs)
  | None => "Unknown error"
  end.

Definition retryOk (single : singleResult) : bool :=
  match s_rowStatus single with
  | Some rs => rs_ok rs
  | None => false
  end.

(** The single-row resubmission of the row of error [e]; its index is [idx]. *)
Definition retryOne (rows : list (gmap string jsval)) (endpoint : string) (idx : nat)
    : M singleResult :=
  let preview := previewUpdateCsvPathToVault dir rows in
  let profile := match nth_error preview idx with
                 | Some d => d_profile d
                 | None => ∅
                 end in
  let override := retryOverride profile in
  updateCsvRowToVault fetch SOAP_NAMESPACE SOAP_VERSION UPDATE_SOAP_ACTION dir
    rows (Z.of_nat idx) endpoint (Some override).

(** The loop over [retryTargets].  An error without an index makes the
    single-row update read [rows[undefined]] and map [undefined], which throws
    a TypeError: the loop then stops with [None]. *)
Fixpoint retryLoop (rows : list (gmap string jsval)) (endpoint : string)
    (targets : list errorRecord) (retryUpdated : nat) (retryErrors : list retryError)
    : M (option (nat * list retryError)) :=
  match targets with
  | [] => ret (Some (retryUpdated, retryErrors))
  | e :: rest =>
      match e_index e with
      | None => ret None
      | Some idx =>
          run single <- retryOne rows endpoint idx in
          if retryOk single
          then retryLoop rows endpoint rest (S retryUpdated) retryErrors
          else retryLoop rows endpoint rest retryUpdated
                 (retryErrors ++ [{| r_index := idx; r_cardNo := e_cardNo e;
                                     r_message := retryMessage single |}])
      end
  end.

(** How [main] ends: by returning (every row updated at the first pass), or
    with [process.exit(code)]. *)
Inductive ending :=
| Returns
| Exit (code : Z).

Record outcome := {
  firstPass : result;
  retryTargets : list errorRecord;
  retryUpdated : nat;
  retryErrors : list retryError;
  ending_ : ending }.

(** [main] in batch mode (no [--card] argument, the file exists); [rows] is
    the content of the file, read again by each call. *)
Definition main (rows : list (gmap string jsval)) (endpoint : string) : M outcome :=
  run result <- updateCsvPathToVault fetch SOAP_NAMESPACE SOAP_VERSION UPDATE_SOAP_ACTION dir
                  rows endpoint [] in
  match errors result with
  | [] => ret {| firstPass := result; retryTargets := []; retryUpdated := 0;
                 retryErrors := []; ending_ := Returns |}
  | _ =>
      let targets := List.filter (fun e => isTruncated (message e)) (errors result) in
      match targets with
      | [] => ret {| firstPass := result; retryTargets := []; retryUpdated := 0;
                     retryErrors := []; ending_ := Exit 2 |}
      | _ =>
          run r <- retryLoop rows endpoint targets 0 [] in
          match r with
          | Some (updated, []) =>
              ret {| firstPass := result; retryTargets := targets; retryUpdated := updated;
                     retryErrors := []; ending_ := Exit 0 |}
          | Some (updated, errs) =>
              ret {| firstPass := result; retryTargets := targets; retryUpdated := updated;
                     retryErrors := errs; ending_ := Exit 2 |}
          | None =>
              ret {| firstPass := result; retryTargets := targets; retryUpdated := 0;
                     retryErrors := []; ending_ := Exit 1 |}
          end
      end
  end.

(** *** Names for what the retry sends and reports *)

(** The profile that the retry of a row submits (before the photo is
    attached): the row mapped again, patched with the override built from
    the previewed profile of the same row. *)
Definition retryProfile (row : gmap string jsval) : gmap string jsval :=
  let override := retryOverride (mapRowToUpdateProfile row) in
  applyFieldOverrides override (applyUpdateOverride override (mapRowToUpdateProfile row)).

(** The network call of the retry of row [idx]. *)
Definition retryCall (rows : list (gmap string jsval)) (endpoint : string) (idx : nat) : call :=
  {| c_index := idx;
     c_envelope :=
       body (updateRequest SOAP_NAMESPACE SOAP_VERSION UPDATE_SOAP_ACTION dir endpoint
               (retryProfile (nth idx rows ∅))) |}.

(** The single-row resubmissions of the rows [idxs], one after the other. *)
Fixpoint retryAll (rows : list (gmap string jsval)) (endpoint : string) (idxs : list nat)
    : M (list singleResult) :=
  match idxs with
  | [] => ret []
  | idx :: rest =>
      run single <- retryOne rows endpoint idx in
      run singles <- retryAll rows endpoint rest in
      ret (single :: singles)
  end.

(** The error reported for a target whose resubmission [single] failed. *)
Definition retryFailure (e : errorRecord) (idx : nat) (single : singleResult) : retryError :=
  {| r_index := idx; r_cardNo := e_cardNo e; r_message := retryMessage single |}.

(** The reported errors, from the targets and their resubmissions. *)
Fixpoint retryFailures (targets : list errorRecord) (idxs : list nat)
    (singles : list singleResult) : list retryError :=
  match targets, idxs, singles with
  | e :: targets', idx :: idxs', single :: singles' =>
      (if retryOk single then [] else [retryFailure e idx single])
      ++ retryFailures targets' idxs' singles'
  | _, _, _ => []
  end.

(** The length of the text that the update envelope renders for a field,
    before escaping: [String(v || '')]. *)
Definition renderedLength (v : jsval) : nat :=
  String.length (ToString (v ||| JStr "")).

End Main.
End UpdateFromExcel.

Import UpdateFromExcel.

(* ===================================================================== *)
(** * Reading an envelope back: the observer used to state the claims     *)
(* ===================================================================== *)

Module Xml.

(** The characters that [escapeXml] replaces, apart from the ampersand. *)
Definition markup (c : ascii) : bool :=
  match c with
  | "<" | ">" | "034" | "'" => true
  | _ => false
  end%char.

Definition entities : list string := ["amp;"; "lt;"; "gt;"; "quot;"; "apos;"].

(** One of the five entity names follows. *)
Definition beginsEntity (post : string) : bool :=
  existsb (fun e => String.prefix e post) entities.

(** No markup character, and every ampersand begins an entity. *)
Fixpoint wellEscaped (x : string) : bool :=
  match x with
  | EmptyString => true
  | String c x' =>
      (if Ascii.eqb c "&" then beginsEntity x' else negb (markup c)) && wellEscaped x'
  end.

(** The replacement of one character by the five passes of [escapeXml]. *)
Definition escapeChar (c : ascii) : string :=
  if Ascii.eqb c "&" then "&amp;"
  else if Ascii.eqb c "<" then "&lt;"
  else if Ascii.eqb c ">" then "&gt;"
  else if Ascii.eqb c "034" then "&quot;"
  else if Ascii.eqb c "'" then "&apos;"
  else String c EmptyString.

Fixpoint escapeEach (x : string) : string :=
  match x with
  | EmptyString => EmptyString
  | String c x' => escapeChar c +:+ escapeEach x'
  end.

(** [c] does not occur in [x]. *)
Fixpoint lacks (c : ascii) (x : string) : bool :=
  match x with
  | EmptyString => true
  | String d x' => negb (Ascii.eqb d c) && lacks c x'
  end.

(** A reader of markup: the text is cut at every [<] and [>]; what stands
    between a [<] and the next [>] is a tag, the rest is character data. *)
Inductive token :=
| Tag (name : string)
| Text (data : string).

Definition pushText (c : ascii) (toks : list token) : list token :=
  match toks with
  | Text d :: rest => Text (String c d) :: rest
  | _ => Text (String c EmptyString) :: toks
  end.

Definition pushTag (c : ascii) (toks : list token) : list token :=
  match toks with
  | Tag n :: rest => Tag (String c n) :: rest
  | _ => toks
  end.

(** [scan inTag x]: the tokens of [x], read from inside a tag when [inTag]. *)
Fixpoint scan (inTag : bool) (x : string) : list token :=
  match x with
  | EmptyString => if inTag then [Tag EmptyString] else []
  | String c x' =>
      if inTag then
        if Ascii.eqb c ">" then Tag EmptyString :: scan false x'
        else pushTag c (scan true x')
      else
        if Ascii.eqb c "<" then scan true x'
        else pushText c (scan false x')
  end.

(** The text of a token list. *)
Definition tokenText (tok : token) : string :=
  match tok with
  | Tag n => "<" +:+ n +:+ ">"
  | Text d => d
  end.

Fixpoint render (toks : list token) : string :=
  match toks with
  | [] => EmptyString
  | tok :: rest => tokenText tok +:+ render rest
  end.

(** Character data as the reader reports it: nothing for the empty text. *)
Definition textTok (d : string) : list token :=
  if nonempty d then [Text d] else [].

(** Token lists that the reader returns unchanged once empty texts are
    dropped: tag names hold no [>], texts hold no [<], and no two texts are
    adjacent. *)
Fixpoint readable (toks : list token) : bool :=
  match toks with
  | [] => true
  | Tag n :: rest => lacks ">" n && readable rest
  | Text d :: rest =>
      lacks "<" d && readable rest
      && match rest with
         | Text _ :: _ => false
         | _ => true
         end
  end.

Definition headIsText (toks : list token) : bool :=
  match toks with
  | Text _ :: _ => true
  | _ => false
  end.

Fixpoint lastIsText (toks : list token) : bool :=
  match toks with
  | [] => false
  | [Text _] => true
  | [Tag _] => false
  | _ :: rest => lastIsText rest
  end.

Definition dropEmpty (toks : list token) : list token :=
  flat_map (fun tok => match tok with
                       | Tag n => [Tag n]
                       | Text d => textTok d
                       end) toks.

(** The elements [<T>data</T>] without children met in a token list, in
    order: name and character data. *)
Fixpoint elements (toks : list token) : list (string * string) :=
  match toks with
  | Tag n :: rest =>
      match rest with
      | Text d :: Tag m :: _ =>
          if String.eqb m ("/" +:+ n) then (n, d) :: elements rest else elements rest
      | Tag m :: _ =>
          if String.eqb m ("/" +:+ n) then (n, EmptyString) :: elements rest else elements rest
      | _ => elements rest
      end
  | Text _ :: rest => elements rest
  | [] => []
  end.

(** A closing tag in front of [toks] closes nothing there. *)
Definition closed (toks : list token) : Prop :=
  forall n : string, elements (Tag ("/" +:+ n) :: toks) = elements toks.

(** The names of the tags of a token list, in order. *)
Definition tagNames (toks : list token) : list string :=
  flat_map (fun tok => match tok with
                       | Tag n => [n]
                       | Text _ => []
                       end) toks.

(** *** The expected content of the two envelopes *)

(** The tags of the profile block, in the order of the templates. *)
Definition tagOrder : list string :=
  [ "CardNo"; "Name"; "CardPinNo"; "CardType"; "Department"; "Company"; "Gentle";
    "AccessLevel"; "FaceAccessLevel"; "LiftAccessLevel"; "BypassAP"; "ActiveStatus";
    "NonExpired"; "ExpiredDate"; "VehicleNo"; "FloorNo"; "UnitNo"; "ParkingNo"; "StaffNo";
    "Title"; "Position"; "NRIC"; "Passport"; "Race"; "DOB"; "JoiningDate"; "ResignDate";
    "Address1"; "Address2"; "PostalCode"; "City"; "State"; "Email"; "MobileNo"; "Photo";
    "Download" ].

(** The value that [photoTag] escapes: the photo when it is truthy. *)
Definition photoValue (profile : gmap string jsval) : jsval :=
  if truthy (get profile "Photo") then get profile "Photo" else JStr "".

(** The value escaped under each tag by [buildAddCardEnvelope]: the field
    itself for the ten fields the create mapper always sets, the field or its
    default for the others. *)
Definition addValue (profile : gmap string jsval) (tag : string) : jsval :=
  if String.eqb tag "Photo" then photoValue profile
  else if existsb (String.eqb tag)
            ["CardNo"; "Name"; "Department"; "Company"; "AccessLevel"; "FaceAccessLevel";
             "ActiveStatus"; "NonExpired"; "ExpiredDate"; "Email"; "MobileNo"; "Download"]
  then get profile tag
  else if String.eqb tag "BypassAP" then get profile tag ||| JStr "false"
  else get profile tag ||| JStr "".

(** The value escaped under each tag by [buildUpdateCardEnvelope]. *)
Definition updateValue (profile : gmap string jsval) (tag : string) : jsval :=
  if String.eqb tag "Photo" then photoValue profile
  else if String.eqb tag "CardNo" then get profile tag
  else if String.eqb tag "BypassAP" then get profile tag ||| JStr "false"
  else if existsb (String.eqb tag) ["ActiveStatus"; "NonExpired"; "Download"]
  then get profile tag ||| JStr "true"
  else get profile tag ||| JStr "".

(** The tokens of one line of the profile block. *)
Definition fieldTokens (value : string -> jsval) (tag : string) : list token :=
  [ Text (nl +:+ "        "); Tag tag; Text (escapeXml (value tag)); Tag ("/" +:+ tag) ].

Definition envelopeHead (soapVersion : string) : list token :=
  [ Tag ("?xml version=" +:+ dq +:+ "1.0" +:+ dq +:+ " encoding=" +:+ dq +:+ "utf-8" +:+ dq +:+ "?");
    Text nl;
    Tag ("soap:Envelope xmlns:xsi=" +:+ dq +:+ "http://www.w3.org/2001/XMLSchema-instance" +:+ dq
         +:+ " xmlns:xsd=" +:+ dq +:+ "http://www.w3.org/2001/XMLSchema" +:+ dq
         +:+ " xmlns:soap=" +:+ dq +:+ soapEnvNs soapVersion +:+ dq);
    Text (nl +:+ "  ");
    Tag "soap:Body";
    Text (nl +:+ "    ") ].

Definition envelopeTail (operation : string) : list token :=
  [ Text (nl +:+ "      "); Tag "/CardProfile";
    Text (nl +:+ "    "); Tag ("/" +:+ operation);
    Text (nl +:+ "  "); Tag "/soap:Body";
    Text nl; Tag "/soap:Envelope" ].

Definition operationTag (operation namespace : string) : token :=
  Tag (operation +:+ " xmlns=" +:+ dq +:+ namespace +:+ dq).


Definition addCardTokens (profile : gmap string jsval) (namespace soapVersion : string)
    : list token :=
  envelopeHead soapVersion
  ++ [ operationTag "AddCard" namespace; Text (nl +:+ "      "); Tag "CardProfile" ]
  ++ flat_map (fieldTokens (addValue profile)) tagOrder
  ++ envelopeTail "AddCard".

Definition updateCardTokens (profile : gmap string jsval) (namespace soapVersion : string)
    : list token :=
  envelopeHead soapVersion
  ++ [ operationTag "UpdateCard" namespace; Text (nl +:+ "      ");
       Tag "CardNo"; Text (escapeXml (get profile "CardNo")); Tag "/CardNo";
       Text (nl +:+ "      "); Tag "CardProfile" ]
  ++ flat_map (fieldTokens (updateValue profile)) tagOrder
  ++ envelopeTail "UpdateCard".

(** The tag [<Operation xmlns="namespace">]. *)
Definition operationName (operation namespace : string) : string :=
  operation +:+ " xmlns=" +:+ dq +:+ namespace +:+ dq.

(** The opening and closing tags of the lines of a profile block. *)
Definition blockNames : list string :=
  flat_map (fun tag => [tag; "/" +:+ tag]) tagOrder.

(** The tag order as the specification lists it. *)
Definition specTagOrder : list string :=
  [ "CardNo"; "Name"; "CardPinNo"; "CardType"; "Department"; "Company"; "Gender";
    "AccessLevel"; "FaceAccessLevel"; "LiftAccessLevel"; "BypassAP"; "ActiveStatus";
    "NonExpired"; "ExpiredDate"; "VehicleNo"; "FloorNo"; "UnitNo"; "ParkingNo"; "StaffNo";
    "Title"; "Position"; "NRIC"; "Passport"; "Race"; "DOB"; "JoiningDate"; "ResignDate";
    "Address1"; "Address2"; "PostalCode"; "City"; "State"; "Email"; "MobileNo"; "Photo";
    "Download" ].

(** What a missing field renders as. *)
Definition addDefault (tag : string) : string :=
  if String.eqb tag "BypassAP" then "false" else "".

Definition updateDefault (tag : string) : string :=
  if String.eqb tag "BypassAP" then "false"
  else if existsb (String.eqb tag) ["ActiveStatus"; "NonExpired"; "Download"] then "true"
  else "".

End Xml.
Import Xml.

(* ===================================================================== *)
(** * Vocabulary of the claims about the mappers                          *)
(* ===================================================================== *)

(** The columns read for CardNo by the create and by the update mapper. *)
Definition createCardColumns : list string :=
  ["Card No #[Max 10]"; "Card No [Max 10]"; "Card No"; "CardNo"; "Card Number"].

Definition updateCardColumns : list string :=
  ["CARD NO"; "Card No"; "CardNo"; "Card Number"].

(** A blank cell: absent, null, or a text of white space only. *)
Definition blank (v : jsval) : bool :=
  match v with
  | JUndefined | JNull => true
  | JStr x => negb (nonempty (trim x))
  | _ => false
  end.

(* ===================================================================== *)
(** * server/src/vaultRegistrar.js: log redaction, CSV registration,      *)
(** * previews                                                            *)
(* ===================================================================== *)

Module RegistrarPaths.

(** ** Redaction of the logged envelope *)

(** The lazy group [([\s\S]*?)] followed by the literal [close]: the group
    and what follows the literal. *)
Fixpoint captureSplit (ci dotall : bool) (close t : string) : option (string * string) :=
  match literalAt ci close t with
  | Some rest => Some (EmptyString, rest)
  | None =>
      match t with
      | EmptyString => None
      | String c t' =>
          if dotall || negb (is_line_terminator c)
          then match captureSplit ci dotall close t' with
               | Some (g, rest) => Some (String c g, rest)
               | None => None
               end
          else None
      end
  end.

(** The replacement function of [redactEnvelope] for the captured group. *)
Definition redactPhoto (inner : string) : string :=
  let content := trim inner in
  if negb (nonempty content) then "<Photo></Photo>" else "<Photo>[redacted]</Photo>".

(** [t.replace(/<Photo>([\s\S]*?)<\/Photo>/i, ...)] when the pattern matches
    somewhere in [t]: the leftmost match is replaced. *)
Fixpoint replacePhoto (t : string) : option string :=
  let here :=
    match literalAt true "<Photo>" t with
    | Some rest =>
        match captureSplit true true "</Photo>" rest with
        | Some (inner, post) => Some (redactPhoto inner +:+ post)
        | None => None
        end
    | None => None
    end in
  match here with
  | Some r => Some r
  | None =>
      match t with
      | EmptyString => None
      | String c t' => option_map (String c) (replacePhoto t')
      end
  end.

Definition redactEnvelope (envelope : string) : string :=
  if negb (nonempty envelope) then envelope
  else match replacePhoto envelope with
       | Some r => r
       | None => envelope
       end.

(** ** Previews of the create paths *)

Record previewDetail := {
  p_cardNo : jsval;
  p_name : jsval;
  p_department : jsval;
  p_staffNo : jsval;
  p_hasPhoto : bool;
  p_profile : gmap string jsval }.

Record previewResult := {
  p_attempted : nat;
  p_registered : nat;
  p_withPhoto : nat;
  p_withoutPhoto : nat;
  p_errors : list errorRecord;
  p_details : list previewDetail }.

Definition emptyPreview : previewResult :=
  {| p_attempted := 0; p_registered := 0; p_withPhoto := 0; p_withoutPhoto := 0;
     p_errors := []; p_details := [] |}.

Definition previewFatal (c msg : string) : previewResult :=
  {| p_attempted := 0; p_registered := 0; p_withPhoto := 0; p_withoutPhoto := 0;
     p_errors := [fatal c msg]; p_details := [] |}.

Section Paths.

Context {W : Type}.
Variable fetch : W -> request -> W * fetchResult.
Variables SOAP_ACTION SOAP_NAMESPACE SOAP_VERSION : string.
Variable dir : gmap string string.

(** [registerCsvPathToVault]: [outputDirExists] and [csvExists] are what
    [fse.pathExistsSync] answers for the directory of the file and for the
    file, [rows] is what [readRowsFromCsvPath(csvPath)] returns.  The loop
    over the rows is the loop of [registerJobToVault], the texts written to
    the logs apart. *)
Definition registerCsvPathToVault (outputDir csvPath : string)
    (outputDirExists csvExists : bool)
    (rows : list (gmap string jsval)) (endpointBaseUrl : string)
    (overrides : list (gmap string jsval)) : M result :=
  if negb outputDirExists then
    ret {| attempted := 0; registered := 0; withPhoto := 0; withoutPhoto := 0;
           errors := [fatal "OUTPUT_NOT_FOUND" ("Output directory not found: " +:+ outputDir)];
           details := [] |}
  else if negb csvExists then
    ret {| attempted := 0; registered := 0; withPhoto := 0; withoutPhoto := 0;
           errors := [fatal "CSV_NOT_FOUND" ("CSV file not found: " +:+ csvPath)];
           details := [] |}
  else
    match rows with
    | [] => ret {| attempted := 0; registered := 0; withPhoto := 0; withoutPhoto := 0;
                   errors := [fatal "NO_ROWS" "No rows found in CSV."];
                   details := [] |}
    | _ => registerLoop fetch SOAP_ACTION SOAP_NAMESPACE SOAP_VERSION dir
             endpointBaseUrl (overrideMapOf overrides ∅) 0 rows emptyResult
    end.

(** The body of the [for ... of] loop of both previews. *)
Definition previewRow (res : previewResult) (row : gmap string jsval) : previewResult :=
  let profile := mapRowToProfile row in
  let '(profile, hasPhoto) := tryAttachPhoto dir profile in
  {| p_attempted := S (p_attempted res);
     p_registered := p_registered res;
     p_withPhoto := if hasPhoto then S (p_withPhoto res) else p_withPhoto res;
     p_withoutPhoto := if hasPhoto then p_withoutPhoto res else S (p_withoutPhoto res);
     p_errors := p_errors res;
     p_details := p_details res ++
       [{| p_cardNo := get profile "CardNo";
           p_name := get profile "Name";
           p_department := get profile "Department";
           p_staffNo :=
             JStr (s (get row "Staff No [Max 15]" ||| get row "Staff No. [Max 10]"
                      ||| get row "Emp. No" ||| get row "Employee ID" ||| get row "ID"
                      ||| get row "NIK"))
             ||| get profile "CardNo";
           p_hasPhoto := hasPhoto;
           p_profile := profile |}] |}.

(** [previewJobToVault]. *)
Definition previewJobToVault (outputDir : string) (outputDirExists : bool)
    (rows : list (gmap string jsval)) : previewResult :=
  if negb outputDirExists then
    previewFatal "OUTPUT_NOT_FOUND" ("Output directory not found: " +:+ outputDir)
  else
    match rows with
    | [] => previewFatal "NO_ROWS" "No rows found in Excel/CSV outputs."
    | _ => fold_left previewRow rows emptyPreview
    end.

(** [previewCsvPathToVault]. *)
Definition previewCsvPathToVault (outputDir csvPath : string)
    (outputDirExists csvExists : bool) (rows : list (gmap string jsval)) : previewResult :=
  if negb outputDirExists then
    previewFatal "OUTPUT_NOT_FOUND" ("Output directory not found: " +:+ outputDir)
  else if negb csvExists then
    previewFatal "CSV_NOT_FOUND" ("CSV file not found: " +:+ csvPath)
  else
    match rows with
    | [] => previewFatal "NO_ROWS" "No rows found in CSV."
    | _ => fold_left previewRow rows emptyPreview
    end.

(** The counters [attempted], [withPhoto] and [withoutPhoto] of the object
    returned by [previewUpdateCsvPathToVault]. *)
Definition previewUpdateCounts (rows : list (gmap string jsval)) : nat * nat * nat :=
  let details := previewUpdateCsvPathToVault dir rows in
  (length rows,
   length (List.filter (fun d => d_hasPhoto d) details),
   length (List.filter (fun d => negb (d_hasPhoto d)) details)).

(** *** Names for what the create batch sends *)

(** The calls of a pass of the create loop over [rows], numbered from [i]:
    one for each row that keeps a card number. *)
Fixpoint createCalls (endpointBaseUrl : string)
    (overrideMap : gmap Z (option string * option bool))
    (i : nat) (rows : list (gmap string jsval)) : list call :=
  match rows with
  | [] => []
  | row :: rest =>
      let profile := applyCreateOverride (overrideMap !! Z.of_nat i) (mapRowToProfile row) in
      (if truthy (get profile "CardNo")
       then [{| c_index := i;
                c_envelope := body (addRequest SOAP_ACTION SOAP_NAMESPACE SOAP_VERSION dir
                                      endpointBaseUrl profile) |}]
       else [])
      ++ createCalls endpointBaseUrl overrideMap (S i) rest
  end.

(** The codes of the errors that the create loop records for a row. *)
Definition rowCodes : list string :=
  ["CARD_NO_MISSING"; "HTTP_ERROR"; "VAULT_ERROR"; "REQUEST_FAILED"].

(** The number of errors of a summary that bear the code [c]. *)
Definition countCode (c : string) (errs : list errorRecord) : nat :=
  length (List.filter (fun e => String.eqb (code e) c) errs).

End Paths.

(** The entry kept by the override map of the create batch for an override
    whose index is a number. *)
Definition createEntry (o : gmap string jsval) : option string * option bool :=
  (match get o "cardNo" with
   | JStr c => Some (substring0 10 (trim c))
   | _ => None
   end,
   match get o "downloadCard" with
   | JBool b => Some b
   | _ => None
   end).

(** [o.index === i] for a row number [i]. *)
Definition hasIndex (ix : Z) (o : gmap string jsval) : bool :=
  match get o "index" with
  | JNum z => z =? ix
  | _ => false
  end.

End RegistrarPaths.

Import RegistrarPaths.

(* ===================================================================== *)
(** * Vocabulary of the properties of the patterns                        *)
(* ===================================================================== *)

Module Patterns.

(** [n] is not [p] read without case: the two differ at a letter they both
    have, or [n] ends before [p] does. *)
Fixpoint differs (p n : string) : bool :=
  match p, n with
  | String a p', String c n' =>
      negb (Ascii.eqb (fold_ascii a) (fold_ascii c)) || differs p' n'
  | String _ _, EmptyString => true
  | EmptyString, _ => false
  end.

(** A token in which a pattern that begins with the tag [<p>] finds no
    place to begin. *)
Definition quietToken (p : string) (tok : token) : bool :=
  match tok with
  | Text d => lacks "<" d
  | Tag n => lacks "<" n && differs p n
  end.

(** A reply of the vendor that carries a code and a message: any quiet
    opening, the two elements with anything quiet between them, and the
    rest. *)
Definition reply (opening : list token) (c : string) (between : list token) (m post : string)
    : string :=
  render (opening ++ [Tag "ErrCode"; Text c; Tag "/ErrCode"] ++ between
          ++ [Tag "ErrMessage"; Text m; Tag "/ErrMessage"]) +:+ post.

(** No line terminator occurs in [x]. *)
Definition oneLine (x : string) : bool := lacks "010" x && lacks "013" x.

(** The tags of the profile block that come before the photo. *)
Definition beforePhoto : list string := firstn 34 tagOrder.

(** What the redacted envelope shows in place of the photo of a profile. *)
Definition redactedPhoto (profile : gmap string jsval) : jsval :=
  if truthy (get profile "Photo") && nonempty (trim (escapeXml (get profile "Photo")))
  then JStr "[redacted]" else JNull.

End Patterns.

Import Patterns.

(* ===================================================================== *)
(** * server/scripts/updateFromExcel.js: the command line                 *)
(* ===================================================================== *)

Module Cli.

(** What follows the first [=] of a text, when it has one. *)
Fixpoint afterEq (x : string) : option string :=
  match x with
  | EmptyString => None
  | String c x' => if Ascii.eqb c "=" then Some x' else afterEq x'
  end.

(** What stands before the first [=] of a text. *)
Fixpoint untilEq (x : string) : string :=
  match x with
  | EmptyString => EmptyString
  | String c x' => if Ascii.eqb c "=" then EmptyString else String c (untilEq x')
  end.

(** [raw.split('=')[1]]. *)
Definition secondPart (raw : string) : option string :=
  option_map untilEq (afterEq raw).

(** [argv.indexOf(x)]. *)
Fixpoint indexOf (x : string) (argv : list string) : Z :=
  match argv with
  | [] => -1
  | a :: rest =>
      if String.eqb a x then 0
      else let r := indexOf x rest in if r <? 0 then -1 else r + 1
  end.

(** [argv[i]]. *)
Definition item (argv : list string) (i : Z) : option string :=
  if i <? 0 then None else nth_error argv (Z.to_nat i).

(** The value read for an argument [raw] found in [argv]: what follows its
    [=], or the argument after it. *)
Definition valueOf (argv : list string) (raw : string) : option string :=
  if includes "=" raw then secondPart raw
  else item argv (indexOf raw argv + 1).

(** [getFlagVal(name)]. *)
Definition getFlagVal (argv : list string) (name : string) : option string :=
  match List.find (fun a => String.eqb a name || String.prefix (name +:+ "=") a) argv with
  | Some raw => if nonempty raw then valueOf argv raw else None
  | None => None
  end.

(** [cardArg]. *)
Definition cardArg (argv : list string) : option string :=
  match List.find (fun a => String.prefix "--card" a) argv with
  | Some cardArgRaw => if nonempty cardArgRaw then valueOf argv cardArgRaw else None
  | None => None
  end.

(** [dbFlag]. *)
Definition dbFlag (argv : list string) : bool :=
  existsb (fun a => String.eqb a "--db" || String.eqb a "--from-db") argv.

(** One turn of the loop that fills [skipIdx]. *)
Definition skipStep (argv : list string) (skipIdx : gset nat) (i : nat) : gset nat :=
  match argv !! i with
  | Some a =>
      if String.prefix "--" a then
        let skipIdx := {[i]} ∪ skipIdx in
        if negb (includes "=" a) then
          if (i + 1 <? length argv)%nat then {[(i + 1)%nat]} ∪ skipIdx else skipIdx
        else skipIdx
      else skipIdx
  | None => skipIdx
  end.

Definition skipIdx (argv : list string) : gset nat :=
  fold_left (skipStep argv) (seq 0 (length argv)) ∅.

(** [nonFlagArgs]. *)
Definition nonFlagArgs (argv : list string) : list string :=
  map snd (List.filter (fun p => negb (String.prefix "--" (snd p))
                                 && negb (bool_decide (fst p ∈ skipIdx argv)))
             (imap pair argv)).

(** The card number of the single-card mode: the mode is entered when
    [cardArg] is given and not blank. *)
Definition singleCard (argv : list string) : option string :=
  match cardArg argv with
  | Some c => if nonempty c && nonempty (trim c) then Some (trim c) else None
  | None => None
  end.

(** The positional arguments as one pass over the arguments finds them:
    [open] says that the argument before was a flag written without [=]. *)
Fixpoint positional (open : bool) (argv : list string) : list string :=
  match argv with
  | [] => []
  | a :: rest =>
      if String.prefix "--" a then positional (negb (includes "=" a)) rest
      else if open then positional false rest
      else a :: positional false rest
  end.

End Cli.

Import Cli.

(* ===================================================================== *)
(** * server/scripts/updateFromExcel.js: the single-card mode             *)
(* ===================================================================== *)

Module SingleCard.

(** The values of the flags that override fields. *)
Record flags := {
  accessLevelOverride : option string;
  faceLevelOverride : option string;
  liftLevelOverride : option string;
  departmentOverride : option string;
  titleOverride : option string;
  positionOverride : option string;
  genderOverride : option string;
  passportOverride : option string;
  nricOverride : option string;
  dobOverride : option string;
  addressOverride : option string;
  phoneOverride : option string;
  joinDateOverride : option string;
  raceOverride : option string;
  vehicleOverride : option string;
  activeOverride : option string;
  messhallOverride : option string }.

(** [a || b] on two values of flags. *)
Definition orFlag (a b : option string) : option string :=
  match a with
  | Some x => if nonempty x then a else b
  | None => b
  end.

Definition flagsOf (argv : list string) : flags :=
  {| accessLevelOverride := getFlagVal argv "--access-level";
     faceLevelOverride := getFlagVal argv "--face-level";
     liftLevelOverride := getFlagVal argv "--lift-level";
     departmentOverride := getFlagVal argv "--department";
     titleOverride := getFlagVal argv "--title";
     positionOverride := getFlagVal argv "--position";
     genderOverride := getFlagVal argv "--gender";
     passportOverride := getFlagVal argv "--passport";
     nricOverride := getFlagVal argv "--nric";
     dobOverride := getFlagVal argv "--dob";
     addressOverride := getFlagVal argv "--address";
     phoneOverride := getFlagVal argv "--phone";
     joinDateOverride := getFlagVal argv "--join-date";
     raceOverride := getFlagVal argv "--race";
     vehicleOverride := getFlagVal argv "--vehicle";
     activeOverride := orFlag (getFlagVal argv "--active") (getFlagVal argv "--card-status");
     messhallOverride := getFlagVal argv "--messhall" |}.

Definition noFlags : flags :=
  {| accessLevelOverride := None; faceLevelOverride := None; liftLevelOverride := None;
     departmentOverride := None; titleOverride := None; positionOverride := None;
     genderOverride := None; passportOverride := None; nricOverride := None;
     dobOverride := None; addressOverride := None; phoneOverride := None;
     joinDateOverride := None; raceOverride := None; vehicleOverride := None;
     activeOverride := None; messhallOverride := None |}.

(** The table [MAX] of the single-card mode. *)
Definition SINGLE_MAX : list (string * nat) :=
  [ ("Name", 50); ("Department", 50); ("Company", 50); ("Title", 50); ("Position", 50);
    ("Address1", 50); ("Address2", 50); ("Email", 50); ("MobileNo", 20); ("VehicleNo", 15);
    ("StaffNo", 15) ]%nat.

(** [SINGLE_MAX.key] for the keys that the script reads. *)
Definition SINGLE_MAX_ (key : string) : nat :=
  match List.find (fun e => String.eqb (fst e) key) SINGLE_MAX with
  | Some e => snd e
  | None => O
  end.

(** The [normalizeExcelDate] of the script: as the one of the mapper, but
    [undefined] where that one gives the empty text. *)
Definition normalizeExcelDateOpt (val : jsval) : option string :=
  match val with
  | JUndefined | JNull => None
  | _ => if nonempty (trim (ToString val)) then Some (normalizeExcelDate val) else None
  end.

(** [if (typeof profile.key !== 'undefined') { const n = ...; if (n) override.key = n }]. *)
Definition setDate (profile : gmap string jsval) (key : string) (override : gmap string jsval)
    : gmap string jsval :=
  match get profile key with
  | JUndefined => override
  | v => match normalizeExcelDateOpt v with
         | Some n => if nonempty n then <[key := JStr n]> override else override
         | None => override
         end
  end.

(** The first loop: every truthy field of the table, cut at its maximum. *)
Definition copyClipped (profile : gmap string jsval) : gmap string jsval :=
  fold_left (fun o e =>
               let key := fst e in
               if truthy (get profile key)
               then <[key := JStr (substring0 (snd e) (ToString (get profile key)))]> o
               else o) SINGLE_MAX ∅.

(** The standard name of a vehicle text, when it has one. *)
Definition standardVehicle (v : string) : option string :=
  let v := toLowerCase v in
  if includes "makarti" v then Some "Makarti"
  else if includes "labota" v then Some "Labota"
  else if includes "local" v || includes "no access" v then Some "NoAccess"
  else None.

(** [if (profile.VehicleNo) { ... }]. *)
Definition setStandardVehicle (profile override : gmap string jsval) : gmap string jsval :=
  if truthy (get profile "VehicleNo")
  then match standardVehicle (ToString (get profile "VehicleNo")) with
       | Some name => <["VehicleNo" := JStr name]> override
       | None => override
       end
  else override.

(** [if (typeof profile.Download !== 'undefined') override.Download = profile.Download]. *)
Definition setDownload (profile override : gmap string jsval) : gmap string jsval :=
  match profile !! "Download" with
  | Some JUndefined | None => override
  | Some v => <["Download" := v]> override
  end.

(** [String(flag).trim().slice(0, m)]. *)
Definition flagText (x : string) (m : option nat) : string :=
  match m with
  | Some n => substring0 n (trim x)
  | None => trim x
  end.

(** [if (flag) override.key = String(flag).trim().slice(0, m)]; no cut when
    [m] is not given. *)
Definition setFlag (flag : option string) (key : string) (m : option nat)
    (override : gmap string jsval) : gmap string jsval :=
  match flag with
  | Some x =>
      if nonempty x
      then <[key := JStr (flagText x m)]> override
      else override
  | None => override
  end.

(** The text of [ActiveStatus] for the value of [--active] or [--card-status]. *)
Definition activeStatusOf (x : string) : string :=
  let val := toLowerCase (trim x) in
  if String.eqb val "true" || String.eqb val "1" || String.eqb val "active"
     || String.eqb val "permanent"
  then "true" else "false".

(** [if (typeof activeOverride !== 'undefined' && activeOverride !== null) { ... }]. *)
Definition setActive (flag : option string) (override : gmap string jsval)
    : gmap string jsval :=
  match flag with
  | Some x => <["ActiveStatus" := JStr (activeStatusOf x)]> override
  | None => override
  end.

(** [if (messhallOverride) { ... }]. *)
Definition setMesshall (flag : option string) (override : gmap string jsval)
    : gmap string jsval :=
  match flag with
  | Some x =>
      if nonempty x then
        let mv := toLowerCase (trim x) in
        if includes "makarti" mv then <["VehicleNo" := JStr "Makarti"]> override
        else if includes "labota" mv then <["VehicleNo" := JStr "Labota"]> override
        else <["VehicleNo" := JStr (substring0 (SINGLE_MAX_ "VehicleNo") (trim x))]> override
      else override
  | None => override
  end.

(** [if (override.VehicleNo) override.VehicleNo = String(override.VehicleNo).slice(0, 15)]. *)
Definition clipVehicle (override : gmap string jsval) : gmap string jsval :=
  if truthy (get override "VehicleNo")
  then <["VehicleNo" := JStr (substring0 15 (ToString (get override "VehicleNo")))]> override
  else override.

(** The override that the single-card mode builds from the previewed
    profile and from the flags. *)
Definition singleOverride (fl : flags) (profile : gmap string jsval) : gmap string jsval :=
  let o := copyClipped profile in
  let o := setDate profile "DOB" o in
  let o := setDate profile "JoiningDate" o in
  let o := setDate profile "ResignDate" o in
  let o := setDate profile "ExpiredDate" o in
  let o := setStandardVehicle profile o in
  let o := setDownload profile o in
  let o := setFlag (accessLevelOverride fl) "AccessLevel" None o in
  let o := setFlag (faceLevelOverride fl) "FaceAccessLevel" None o in
  let o := setFlag (liftLevelOverride fl) "LiftAccessLevel" None o in
  let o := setFlag (departmentOverride fl) "Department" (Some (SINGLE_MAX_ "Department")) o in
  let o := setFlag (titleOverride fl) "Title" (Some (SINGLE_MAX_ "Title")) o in
  let o := setFlag (positionOverride fl) "Position" (Some (SINGLE_MAX_ "Position")) o in
  let o := setFlag (genderOverride fl) "Gentle" None o in
  let o := setFlag (passportOverride fl) "Passport" None o in
  let o := setFlag (nricOverride fl) "NRIC" None o in
  let o := setFlag (dobOverride fl) "DOB" None o in
  let o := setFlag (addressOverride fl) "Address1" (Some (SINGLE_MAX_ "Address1")) o in
  let o := setFlag (phoneOverride fl) "MobileNo" (Some (SINGLE_MAX_ "MobileNo")) o in
  let o := setFlag (joinDateOverride fl) "JoiningDate" None o in
  let o := setFlag (raceOverride fl) "Race" None o in
  let o := setFlag (vehicleOverride fl) "VehicleNo" (Some (SINGLE_MAX_ "VehicleNo")) o in
  let o := setActive (activeOverride fl) o in
  let o := setMesshall (messhallOverride fl) o in
  clipVehicle o.

(** The profile that the single-card mode submits for a row, before the
    photo is attached: the row mapped again by the single-row update, patched
    with the override built from the previewed profile of the same row. *)
Definition singleProfile (fl : flags) (row : gmap string jsval) : gmap string jsval :=
  let override := singleOverride fl (mapRowToUpdateProfile row) in
  applyFieldOverrides override (applyUpdateOverride override (mapRowToUpdateProfile row)).

(** The flags that set one field each, with the field and the cut. *)
Definition fieldFlags : list ((flags -> option string) * string * option nat) :=
  [ (accessLevelOverride, "AccessLevel", None);
    (faceLevelOverride, "FaceAccessLevel", None);
    (liftLevelOverride, "LiftAccessLevel", None);
    (departmentOverride, "Department", Some (SINGLE_MAX_ "Department"));
    (titleOverride, "Title", Some (SINGLE_MAX_ "Title"));
    (positionOverride, "Position", Some (SINGLE_MAX_ "Position"));
    (genderOverride, "Gentle", None);
    (passportOverride, "Passport", None);
    (nricOverride, "NRIC", None);
    (dobOverride, "DOB", None);
    (addressOverride, "Address1", Some (SINGLE_MAX_ "Address1"));
    (phoneOverride, "MobileNo", Some (SINGLE_MAX_ "MobileNo"));
    (joinDateOverride, "JoiningDate", None);
    (raceOverride, "Race", None) ].

(** [(preview.details || []).findIndex(d => String(d.cardNo) === cardNo)]. *)
Fixpoint findIndex (cardNo : string) (details : list detail) : option nat :=
  match details with
  | [] => None
  | d :: rest =>
      if String.eqb (ToString (d_cardNo d)) cardNo then Some O
      else option_map S (findIndex cardNo rest)
  end.

Section Mode.

Context {W : Type}.
Variable fetch : W -> request -> W * fetchResult.
Variables SOAP_NAMESPACE SOAP_VERSION UPDATE_SOAP_ACTION : string.
Variable dir : gmap string string.

Notation "'run' x <- m 'in' k" := (bind m (fun x => k))
  (at level 10, x name, m at level 200, k at level 200, only parsing).

(** The single-card mode of [main] on a file ([--db] not given, the file
    exists): the code with which the process exits. *)
Definition singleCardMode (fl : flags) (rows : list (gmap string jsval))
    (endpoint cardNo : string) : M Z :=
  let preview := previewUpdateCsvPathToVault dir rows in
  match findIndex cardNo preview with
  | None => ret 1
  | Some idx =>
      let profile := match nth_error preview idx with
                     | Some d => d_profile d
                     | None => ∅
                     end in
      let override := singleOverride fl profile in
      run single <- updateCsvRowToVault fetch SOAP_NAMESPACE SOAP_VERSION UPDATE_SOAP_ACTION dir
                      rows (Z.of_nat idx) endpoint (Some override) in
      ret (if retryOk single then 0 else 2)
  end.

(** The network call of the single-card mode for row [idx]. *)
Definition singleCall (fl : flags) (rows : list (gmap string jsval)) (endpoint : string)
    (idx : nat) : call :=
  {| c_index := idx;
     c_envelope :=
       body (updateRequest SOAP_NAMESPACE SOAP_VERSION UPDATE_SOAP_ACTION dir endpoint
               (singleProfile fl (nth idx rows ∅))) |}.

End Mode.

End SingleCard.

Import SingleCard.

(* ===================================================================== *)
(** * Endpoints and rows for the worked examples                          *)
(* ===================================================================== *)

Module Scenario.

(** An endpoint that gives the same reply to every request. *)
Definition always (reply : fetchResult) (w : unit) (_ : request) : unit * fetchResult :=
  (w, reply).

(** An endpoint that gives the replies of a script, in order, and refuses
    the connection once the script is over. *)
Definition scripted (w : list fetchResult) (_ : request) : list fetchResult * fetchResult :=
  match w with
  | reply :: rest => (rest, reply)
  | [] => ([], FetchThrows "connect ECONNREFUSED")
  end.

(** The state before the first call. *)
Definition start {W : Type} (w : W) : state := {| world := w; calls := [] |}.

Definition namespace : string := "http://tempuri.org/".
Definition endpoint : string := "http://10.60.10.6/Vaultsite/APIwebservice.asmx".

Definition accepted : fetchResult :=
  FetchResponse 200 "<ErrCode>0</ErrCode><ErrMessage></ErrMessage>".
Definition truncated : fetchResult :=
  FetchResponse 200
    "<ErrCode>-1</ErrCode><ErrMessage>String or binary data would be Truncated.</ErrMessage>".
Definition unavailable : fetchResult :=
  FetchResponse 500 "<ErrCode>0</ErrCode>".

Definition rowWithCard : gmap string jsval :=
  obj [("Card No", JStr "1234567890"); ("Name", JStr "Siti Rahma"); ("Staff No", JStr "E1001")].
Definition rowWithoutCard : gmap string jsval :=
  obj [("Card No", JStr "  "); ("Name", JStr "Budi"); ("Staff No", JStr "E1002");
       ("Staff No [Max 15]", JStr "E1002")].

End Scenario.

(* ===================================================================== *)
(** * Properties                                                          *)
(* ===================================================================== *)

(** ** Strings *)

Lemma sapp_nil_l (b : string) : "" +:+ b = b.
Proof. reflexivity. Qed.

Lemma sapp_cons (c : ascii) (a b : string) : String c a +:+ b = String c (a +:+ b).
Proof. reflexivity. Qed.

Lemma sapp_nil_r (a : string) : a +:+ "" = a.
Proof. induction a as [|c a IH]; [reflexivity|]. now rewrite sapp_cons, IH. Qed.

Lemma sapp_assoc (a b c : string) : (a +:+ b) +:+ c = a +:+ (b +:+ c).
Proof. induction a as [|x a IH]; [reflexivity|]. now rewrite !sapp_cons, IH. Qed.

Lemma slength_app (a b : string) :
  String.length (a +:+ b) = (String.length a + String.length b)%nat.
Proof.
  induction a as [|c a IH]; [reflexivity|].
  rewrite sapp_cons. cbn [String.length]. now rewrite IH.
Qed.

Lemma substring0_length (n : nat) (x : string) :
  (String.length (substring0 n x) <= n)%nat.
Proof.
  unfold substring0. revert n.
  induction x as [|c x IH]; intros [|n]; cbn; try lia.
  specialize (IH n). lia.
Qed.

Lemma substring0_length_le (n : nat) (x : string) :
  (String.length (substring0 n x) <= String.length x)%nat.
Proof.
  unfold substring0. revert n.
  induction x as [|c x IH]; intros [|n]; cbn; try lia.
  specialize (IH n). lia.
Qed.

Lemma substring0_id (n : nat) (x : string) :
  (String.length x <= n)%nat -> substring0 n x = x.
Proof.
  unfold substring0. revert n.
  induction x as [|c x IH]; intros [|n] H; cbn in *; try reflexivity; try lia.
  f_equal. apply IH. lia.
Qed.

Lemma trimStart_length (x : string) :
  (String.length (trimStart x) <= String.length x)%nat.
Proof.
  induction x as [|c x IH]; cbn; [lia|].
  destruct (is_white c); cbn; lia.
Qed.

Lemma trimEnd_length (x : string) :
  (String.length (trimEnd x) <= String.length x)%nat.
Proof.
  induction x as [|c x IH]; cbn; [lia|].
  destruct (trimEnd x) eqn:E; [destruct (is_white c)|]; cbn in *; lia.
Qed.

Lemma trim_length (x : string) :
  (String.length (trim x) <= String.length x)%nat.
Proof.
  unfold trim. pose proof (trimEnd_length (trimStart x)).
  pose proof (trimStart_length x). lia.
Qed.

Lemma nonempty_false (x : string) : nonempty x = false <-> x = "".
Proof.
  unfold nonempty. destruct (String.eqb_spec x ""); cbn; split; congruence.
Qed.

Lemma nonempty_true (x : string) : nonempty x = true <-> x <> "".
Proof.
  unfold nonempty. destruct (String.eqb_spec x ""); cbn; split; congruence.
Qed.

Lemma trimStart_id (x : string) : headWhite x = false -> trimStart x = x.
Proof. destruct x as [|c x]; cbn; [reflexivity|]. now intros ->. Qed.

Lemma trimEnd_id (x : string) : lastWhite x = false -> trimEnd x = x.
Proof.
  induction x as [|c x IH]; [reflexivity|].
  destruct x as [|d x].
  - cbn. now intros ->.
  - intros H. change (lastWhite (String d x) = false) in H.
    specialize (IH H). cbn [trimEnd] in *. now rewrite IH.
Qed.

Lemma trimEnd_lastWhite (x : string) : lastWhite (trimEnd x) = false.
Proof.
  induction x as [|c x IH]; [reflexivity|].
  cbn [trimEnd]. destruct (trimEnd x) as [|d r] eqn:E.
  - destruct (is_white c) eqn:Ec; cbn; [reflexivity | exact Ec].
  - exact IH.
Qed.

Lemma trimStart_headWhite (x : string) : headWhite (trimStart x) = false.
Proof.
  induction x as [|c x IH]; [reflexivity|].
  cbn [trimStart]. destruct (is_white c) eqn:Ec; [exact IH | cbn; exact Ec].
Qed.

Lemma trimEnd_headWhite (x : string) : headWhite x = false -> headWhite (trimEnd x) = false.
Proof.
  destruct x as [|c x]; [reflexivity|]. cbn [headWhite trimEnd]. intros Hc.
  destruct (trimEnd x); [rewrite Hc|]; cbn; exact Hc.
Qed.

(** A trimmed string is a fixed point of [trim]. *)
Lemma trim_trimmed (x : string) :
  headWhite x = false -> lastWhite x = false -> trim x = x.
Proof. intros H1 H2. unfold trim. rewrite (trimStart_id _ H1). now apply trimEnd_id. Qed.

Lemma trim_idem (x : string) : trim (trim x) = trim x.
Proof.
  apply trim_trimmed.
  - unfold trim. apply trimEnd_headWhite, trimStart_headWhite.
  - unfold trim. apply trimEnd_lastWhite.
Qed.

Lemma s_trimmed (v : jsval) : trim (s v) = s v.
Proof. destruct v; cbn [s]; try reflexivity; apply trim_idem. Qed.

(** ** Date normalisation *)

Lemma normalizeExcelDate_not_serial (x : string) :
  is_serial (trim x) = false -> normalizeExcelDate (JStr x) = trim x.
Proof.
  intros H. unfold normalizeExcelDate. cbn [ToString]. rewrite H.
  destruct (nonempty (trim x)) eqn:E; cbn [negb]; [reflexivity|].
  apply nonempty_false in E. now rewrite E.
Qed.

(** C7, as the code has it: the day count 35524 is turned into the text
    [4 Apr 1997], the calendar date of day 35524 - 25569 counted from
    1970-01-01 and written as [D Mon YYYY]; an input that is not a day count is
    returned trimmed of surrounding white space, hence unchanged when it has
    none, as for [1990-01-02]. *)
Theorem C7_normalizeExcelDate_amended :
  normalizeExcelDate (JStr "35524") = "4 Apr 1997"
  /\ normalizeExcelDate (JNum 35524) = "4 Apr 1997"
  /\ civil_from_days (35524 - 25569) = (1997, 3, 4)
  /\ nth 3 months "undefined" = "Apr"
  /\ normalizeExcelDate (JStr "1990-01-02") = "1990-01-02"
  /\ (forall x : string,
        is_serial (trim x) = false -> normalizeExcelDate (JStr x) = trim x)
  /\ (forall x : string,
        is_serial x = false -> headWhite x = false -> lastWhite x = false ->
        normalizeExcelDate (JStr x) = x).
Proof.
  split; [vm_compute; reflexivity|].
  split; [vm_compute; reflexivity|].
  split; [vm_compute; reflexivity|].
  split; [reflexivity|].
  split; [vm_compute; reflexivity|].
  split.
  - apply normalizeExcelDate_not_serial.
  - intros x Hs Hh Hl. pose proof (trim_trimmed x Hh Hl) as Ht.
    rewrite <- Ht at 2. apply normalizeExcelDate_not_serial. now rewrite Ht.
Qed.

(** C7 as stated fails twice: the day count 35524 is not rendered as
    [17 Apr 1997], and a date text with surrounding blanks is not returned
    unchanged. *)
Lemma C7_counterexample :
  normalizeExcelDate (JStr "35524") <> "17 Apr 1997"
  /\ is_serial (trim " 1990-01-02 ") = false
  /\ normalizeExcelDate (JStr " 1990-01-02 ") <> " 1990-01-02 ".
Proof. repeat split; vm_compute; congruence. Qed.

(** ** Result classification *)

Lemma in2xx_res_ok (st : Z) : in2xx st = res_ok st.
Proof. unfold in2xx, res_ok. f_equal. apply eq_iff_eq_true. rewrite Z.ltb_lt, Z.leb_le. lia. Qed.

Lemma bizSuccess_iff (resp : response) :
  in2xx (httpStatus resp) = true ->
  (bizSuccess resp = true <->
   exists c, errCode resp = Some c
             /\ (num_eq (StringToNumber c) num_zero = true
                 \/ num_eq (StringToNumber c) num_one = true)).
Proof.
  intros H. unfold bizSuccess, errCodeNum. rewrite H. cbn [andb].
  rewrite orb_true_iff. destruct (errCode resp) as [c|].
  - split; [intros Hc; exists c; auto | intros (c' & [= <-] & Hc); exact Hc].
  - split; [intros [Hc|Hc]; vm_compute in Hc; discriminate | intros (c & [=] & _)].
Qed.

Lemma updateOk_iff (resp : response) :
  status resp = "ok" ->
  (updateOk resp = true <->
   errCode resp = None \/ errCode resp = Some "" \/ errCode resp = Some "0").
Proof.
  intros H. unfold updateOk. rewrite H. cbn [String.eqb Ascii.eqb Bool.eqb andb].
  destruct (errCode resp) as [c|]; [|intuition congruence].
  rewrite orb_true_iff, negb_true_iff, nonempty_false, String.eqb_eq.
  intuition congruence.
Qed.

(** C1: for a response with HTTP status in [200,300), the create operation
    counts a business success exactly when the vendor code is present and
    [Number] of it equals 0 or 1, and the update operation exactly when the
    vendor code is absent, empty or the string [0]; a reply with vendor code
    [1] is a success for create, and for update a failure recorded under
    VAULT_ERROR. *)
Theorem C1_business_success (st : Z) (text : string) (H2xx : in2xx st = true) :
  let created := parseAddCardResponse st text in
  let updated := parseUpdateCardResponse st text in
  (bizSuccess created = true <->
     exists c, errCode created = Some c
               /\ (num_eq (StringToNumber c) num_zero = true
                   \/ num_eq (StringToNumber c) num_one = true))
  /\ (updateOk updated = true <->
       errCode updated = None \/ errCode updated = Some "" \/ errCode updated = Some "0")
  /\ (errCode created = Some "1" -> bizSuccess created = true)
  /\ (errCode updated = Some "1" ->
       updateOk updated = false
       /\ forall profile ix, code (vaultError updated profile ix) = "VAULT_ERROR").
Proof.
  intros created updated.
  assert (Hc : in2xx (httpStatus created) = true) by exact H2xx.
  assert (Hu : status updated = "ok").
  { unfold updated, parseUpdateCardResponse. cbn [status].
    now rewrite <- in2xx_res_ok, H2xx. }
  split; [apply bizSuccess_iff, Hc|].
  split; [apply updateOk_iff, Hu|].
  split.
  - intros E. apply bizSuccess_iff; [exact Hc|]. exists "1". split; [exact E|].
    right. vm_compute. reflexivity.
  - intros E. split; [|reflexivity].
    destruct (updateOk updated) eqn:Ok; [|reflexivity].
    apply updateOk_iff in Ok; [|exact Hu]. rewrite E in Ok.
    destruct Ok as [Ok|[Ok|Ok]]; discriminate Ok.
Qed.

(** C1 at HTTP 200 with the body [<ErrCode>1</ErrCode>]. *)
Lemma C1_witness :
  bizSuccess (parseAddCardResponse 200 "<ErrCode>1</ErrCode>") = true
  /\ updateOk (parseUpdateCardResponse 200 "<ErrCode>1</ErrCode>") = false.
Proof.
  pose proof (C1_business_success 200 "<ErrCode>1</ErrCode>" eq_refl) as (_ & _ & Hc & Hu).
  split; [apply Hc | apply Hu]; reflexivity.
Defined.

(** ** Escaping *)

Lemma replaceAll_app (c : ascii) (r a b : string) :
  replaceAll c r (a +:+ b) = replaceAll c r a +:+ replaceAll c r b.
Proof.
  induction a as [|x a IH]; [reflexivity|].
  rewrite sapp_cons. cbn [replaceAll]. destruct (Ascii.eqb x c).
  - now rewrite IH, sapp_assoc.
  - now rewrite IH, sapp_cons.
Qed.

(** The five passes, as [escapeXml] chains them. *)
Lemma escapeXml_passes (v : jsval) :
  escapeXml v =
  match v with
  | JUndefined | JNull => ""
  | _ => replaceAll "'" "&apos;" (replaceAll "034" "&quot;" (replaceAll ">" "&gt;"
           (replaceAll "<" "&lt;" (replaceAll "&" "&amp;" (ToString v)))))
  end.
Proof. reflexivity. Qed.

Lemma passes_char (c : ascii) :
  replaceAll "'" "&apos;" (replaceAll "034" "&quot;" (replaceAll ">" "&gt;"
    (replaceAll "<" "&lt;" (replaceAll "&" "&amp;" (String c "")))))
  = escapeChar c.
Proof. destruct c as [[] [] [] [] [] [] [] []]; vm_compute; reflexivity. Qed.

Lemma passes_escapeEach (x : string) :
  replaceAll "'" "&apos;" (replaceAll "034" "&quot;" (replaceAll ">" "&gt;"
    (replaceAll "<" "&lt;" (replaceAll "&" "&amp;" x))))
  = escapeEach x.
Proof.
  induction x as [|c x IH]; [reflexivity|].
  change (String c x) with (String c "" +:+ x).
  rewrite !replaceAll_app, IH, passes_char. reflexivity.
Qed.

(** The five sequential passes amount to one pass replacing each character. *)
Lemma escapeXml_escapeEach (v : jsval) :
  escapeXml v = match v with
                | JUndefined | JNull => ""
                | _ => escapeEach (ToString v)
                end.
Proof. destruct v; try reflexivity; apply passes_escapeEach. Qed.

Lemma markup_eqb (c : ascii) :
  markup c = Ascii.eqb c "<" || Ascii.eqb c ">" || Ascii.eqb c "034" || Ascii.eqb c "'".
Proof. destruct c as [[] [] [] [] [] [] [] []]; reflexivity. Qed.

Lemma prefix_nil (x : string) : String.prefix "" x = true.
Proof. destruct x; reflexivity. Qed.

Lemma wellEscaped_escapeChar (c : ascii) (rest : string) :
  wellEscaped rest = true -> wellEscaped (escapeChar c +:+ rest) = true.
Proof.
  intros H. unfold escapeChar.
  destruct (Ascii.eqb c "&") eqn:E1; [rewrite !sapp_cons, sapp_nil_l; cbn; rewrite ?prefix_nil; exact H|].
  destruct (Ascii.eqb c "<") eqn:E2; [rewrite !sapp_cons, sapp_nil_l; cbn; rewrite ?prefix_nil; exact H|].
  destruct (Ascii.eqb c ">") eqn:E3; [rewrite !sapp_cons, sapp_nil_l; cbn; rewrite ?prefix_nil; exact H|].
  destruct (Ascii.eqb c "034") eqn:E4; [rewrite !sapp_cons, sapp_nil_l; cbn; rewrite ?prefix_nil; exact H|].
  destruct (Ascii.eqb c "'") eqn:E5; [rewrite !sapp_cons, sapp_nil_l; cbn; rewrite ?prefix_nil; exact H|].
  rewrite sapp_cons, sapp_nil_l. cbn [wellEscaped].
  now rewrite E1, markup_eqb, E2, E3, E4, E5, H.
Qed.

Lemma wellEscaped_escapeEach (x : string) : wellEscaped (escapeEach x) = true.
Proof.
  induction x as [|c x IH]; [reflexivity|].
  cbn [escapeEach]. now apply wellEscaped_escapeChar.
Qed.

Lemma wellEscaped_escapeXml (v : jsval) : wellEscaped (escapeXml v) = true.
Proof.
  rewrite escapeXml_escapeEach. destruct v; try reflexivity; apply wellEscaped_escapeEach.
Qed.

Lemma wellEscaped_lacks (x : string) (c : ascii) :
  markup c = true -> wellEscaped x = true -> lacks c x = true.
Proof.
  intros Hc. induction x as [|d x IH]; [reflexivity|].
  cbn [wellEscaped lacks]. intros H. apply andb_true_iff in H as [Hd Hx].
  rewrite (IH Hx), andb_true_r.
  destruct (Ascii.eqb_spec d c) as [->|]; [|reflexivity].
  destruct (Ascii.eqb_spec c "&") as [->|]; [discriminate Hc|].
  now rewrite Hc in Hd.
Qed.

Lemma wellEscaped_ampersand (x pre post : string) :
  wellEscaped x = true -> x = pre +:+ String "&" post -> beginsEntity post = true.
Proof.
  revert x. induction pre as [|c pre IH]; intros x H ->.
  - rewrite sapp_nil_l in H. cbn [wellEscaped] in H.
    rewrite Ascii.eqb_refl in H. now apply andb_true_iff in H as [H _].
  - rewrite sapp_cons in H. cbn [wellEscaped] in H.
    apply andb_true_iff in H as [_ H]. now apply (IH _ H).
Qed.

(** ** Reading an envelope back *)

(** The lines of a profile block, as the templates chain them. *)
Lemma tagLine_tokens (value : string -> jsval) (tag rest : string) :
  nl +:+ tagLine tag (value tag) +:+ rest
  = render (fieldTokens value tag) +:+ nl +:+ rest.
Proof.
  unfold tagLine, fieldTokens. cbn [render tokenText].
  rewrite !sapp_assoc, sapp_nil_l. reflexivity.
Qed.

Lemma render_app (a b : list token) : render (a ++ b) = render a +:+ render b.
Proof.
  induction a as [|tok a IH]; [reflexivity|].
  cbn [render app]. now rewrite IH, sapp_assoc.
Qed.

Lemma lines_tokens (value : string -> jsval) (tags : list string) (rest : string) :
  nl +:+ fold_right (fun tag acc => tagLine tag (value tag) +:+ acc) rest tags
  = render (flat_map (fieldTokens value) tags) +:+ nl +:+ rest.
Proof.
  induction tags as [|tag tags IH]; [reflexivity|].
  cbn [fold_right flat_map]. rewrite tagLine_tokens, IH, render_app, sapp_assoc.
  reflexivity.
Qed.

Lemma photo_line (profile : gmap string jsval) (rest : string) :
  "        " +:+ photoTag profile +:+ nl +:+ rest
  = tagLine "Photo" (photoValue profile) +:+ rest.
Proof.
  unfold tagLine, photoTag, photoValue.
  destruct (truthy (get profile "Photo")); rewrite !sapp_assoc; reflexivity.
Qed.

Lemma envelopeOpen_tokens (soapVersion rest : string) :
  envelopeOpen soapVersion +:+ "  <soap:Body>" +:+ nl +:+ "    " +:+ rest
  = render (envelopeHead soapVersion) +:+ rest.
Proof.
  unfold envelopeOpen, envelopeHead. cbn [render tokenText].
  rewrite !sapp_assoc, sapp_nil_l. reflexivity.
Qed.

Lemma addCard_lines (profile : gmap string jsval) (namespace soapVersion : string) :
  buildAddCardEnvelope profile namespace soapVersion
  = envelopeOpen soapVersion +:+ "  <soap:Body>" +:+ nl +:+ "    "
    +:+ ("<AddCard xmlns=" +:+ dq +:+ namespace +:+ dq +:+ ">" +:+ nl +:+ "      <CardProfile>")
    +:+ nl +:+ fold_right (fun tag acc => tagLine tag (addValue profile tag) +:+ acc)
                 ("      </CardProfile>" +:+ nl +:+ "    </AddCard>" +:+ nl
                  +:+ "  </soap:Body>" +:+ nl +:+ "</soap:Envelope>") tagOrder.
Proof.
  unfold buildAddCardEnvelope. rewrite photo_line, !sapp_assoc. reflexivity.
Qed.

Lemma addCard_render (profile : gmap string jsval) (namespace soapVersion : string) :
  buildAddCardEnvelope profile namespace soapVersion
  = render (addCardTokens profile namespace soapVersion).
Proof.
  rewrite addCard_lines, envelopeOpen_tokens, lines_tokens.
  unfold addCardTokens. rewrite !render_app.
  unfold operationTag. cbn [render tokenText].
  rewrite !sapp_assoc, sapp_nil_l. reflexivity.
Qed.

Lemma updateCard_lines (profile : gmap string jsval) (namespace soapVersion : string) :
  buildUpdateCardEnvelope profile namespace soapVersion
  = envelopeOpen soapVersion +:+ "  <soap:Body>" +:+ nl +:+ "    "
    +:+ ("<UpdateCard xmlns=" +:+ dq +:+ namespace +:+ dq +:+ ">" +:+ nl
         +:+ "      <CardNo>" +:+ escapeXml (get profile "CardNo") +:+ "</CardNo>" +:+ nl
         +:+ "      <CardProfile>")
    +:+ nl +:+ fold_right (fun tag acc => tagLine tag (updateValue profile tag) +:+ acc)
                 ("      </CardProfile>" +:+ nl +:+ "    </UpdateCard>" +:+ nl
                  +:+ "  </soap:Body>" +:+ nl +:+ "</soap:Envelope>") tagOrder.
Proof.
  unfold buildUpdateCardEnvelope. rewrite photo_line, !sapp_assoc. reflexivity.
Qed.

Lemma updateCard_render (profile : gmap string jsval) (namespace soapVersion : string) :
  buildUpdateCardEnvelope profile namespace soapVersion
  = render (updateCardTokens profile namespace soapVersion).
Proof.
  rewrite updateCard_lines, envelopeOpen_tokens, lines_tokens.
  unfold updateCardTokens. rewrite !render_app.
  unfold operationTag. cbn [render tokenText].
  rewrite !sapp_assoc, sapp_nil_l. reflexivity.
Qed.

(** *** The reader inverts [render] *)

Lemma scan_tag (n rest : string) :
  lacks ">" n = true -> scan true (n +:+ String ">" rest) = Tag n :: scan false rest.
Proof.
  induction n as [|c n IH]; intros H.
  - rewrite sapp_nil_l. reflexivity.
  - cbn [lacks] in H. apply andb_true_iff in H as [Hc Hn].
    rewrite sapp_cons. cbn [scan]. apply negb_true_iff in Hc. rewrite Hc, (IH Hn).
    reflexivity.
Qed.

Lemma scan_text (d rest : string) :
  lacks "<" d = true -> headIsText (scan false rest) = false ->
  scan false (d +:+ rest) = textTok d ++ scan false rest.
Proof.
  intros Hd Hr. induction d as [|c d IH].
  - rewrite sapp_nil_l. reflexivity.
  - cbn [lacks] in Hd. apply andb_true_iff in Hd as [Hc Hd].
    rewrite sapp_cons. cbn [scan]. apply negb_true_iff in Hc. rewrite Hc, (IH Hd).
    unfold textTok. destruct d as [|e d]; cbn [nonempty String.eqb negb app pushText].
    + destruct (scan false rest) as [|[] ?]; [reflexivity | reflexivity | discriminate Hr].
    + reflexivity.
Qed.

Lemma headIsText_dropEmpty (toks : list token) :
  headIsText toks = false -> headIsText (dropEmpty toks) = false.
Proof. destruct toks as [|[] ?]; [reflexivity | reflexivity | discriminate]. Qed.

Lemma scan_render (toks : list token) :
  readable toks = true -> scan false (render toks) = dropEmpty toks.
Proof.
  induction toks as [|[n|d] toks IH]; [reflexivity| |]; cbn [readable]; intros H.
  - apply andb_true_iff in H as [Hn Ht].
    cbn [render tokenText dropEmpty flat_map app]. rewrite !sapp_assoc.
    change ("<" +:+ n +:+ ">" +:+ render toks) with (String "<" (n +:+ String ">" (render toks))).
    cbn [scan Ascii.eqb Bool.eqb]. rewrite (scan_tag _ _ Hn), (IH Ht). reflexivity.
  - apply andb_true_iff in H as [H Hadj]. apply andb_true_iff in H as [Hd Ht].
    cbn [render tokenText dropEmpty flat_map]. rewrite scan_text, (IH Ht); [reflexivity|exact Hd|].
    rewrite (IH Ht). apply headIsText_dropEmpty. now destruct toks as [|[] ?].
Qed.

Lemma lacks_app (c : ascii) (a b : string) :
  lacks c (a +:+ b) = lacks c a && lacks c b.
Proof.
  induction a as [|x a IH]; [reflexivity|].
  rewrite sapp_cons. cbn [lacks]. now rewrite IH, andb_assoc.
Qed.

Lemma lastIsText_app (a b : list token) :
  b <> [] -> lastIsText (a ++ b) = lastIsText b.
Proof.
  intros Hb. induction a as [|tok a IH]; [reflexivity|].
  cbn [app]. destruct (a ++ b) as [|tok' r] eqn:E.
  - destruct a; [cbn in E; congruence | discriminate E].
  - rewrite <- IH. now destruct tok.
Qed.

Lemma readable_app (a b : list token) :
  readable a = true -> readable b = true ->
  lastIsText a && headIsText b = false ->
  readable (a ++ b) = true.
Proof.
  induction a as [|[n|d] a IH]; intros Ha Hb Hj; [exact Hb| |]; cbn [readable app] in *.
  - apply andb_true_iff in Ha as [Hn Ha]. rewrite Hn. cbn [andb].
    apply IH; [exact Ha | exact Hb |].
    destruct a; [reflexivity | exact Hj].
  - apply andb_true_iff in Ha as [Ha Hadj]. apply andb_true_iff in Ha as [Hd Ha].
    rewrite Hd. cbn [andb]. destruct a as [|tok a].
    + cbn [app lastIsText andb] in *. rewrite Hb. cbn [andb].
      now destruct b as [|[] ?].
    + rewrite IH; [cbn [app andb]; exact Hadj | exact Ha | exact Hb | exact Hj].
Qed.

Lemma readable_fieldTokens (value : string -> jsval) (tag : string) :
  lacks ">" tag = true -> readable (fieldTokens value tag) = true.
Proof.
  intros H. unfold fieldTokens. cbn [readable].
  rewrite !lacks_app, !H, (wellEscaped_lacks _ "<" eq_refl (wellEscaped_escapeXml _)).
  reflexivity.
Qed.

Lemma readable_fields (value : string -> jsval) (tags : list string) :
  forallb (lacks ">") tags = true ->
  readable (flat_map (fieldTokens value) tags) = true
  /\ lastIsText (flat_map (fieldTokens value) tags) = false.
Proof.
  induction tags as [|tag tags IH]; [split; reflexivity|].
  cbn [forallb flat_map]. intros H. apply andb_true_iff in H as [Ht Hs].
  destruct (IH Hs) as [IH1 IH2]. split.
  - apply readable_app; [now apply readable_fieldTokens | exact IH1 | reflexivity].
  - destruct tags as [|tag' tags]; [reflexivity|].
    rewrite lastIsText_app; [exact IH2 | discriminate].
Qed.

Lemma lacks_soapEnvNs (soapVersion : string) : lacks ">" (soapEnvNs soapVersion) = true.
Proof. unfold soapEnvNs. destruct (String.eqb soapVersion "1.2"); reflexivity. Qed.

Lemma readable_envelopeHead (soapVersion : string) :
  readable (envelopeHead soapVersion) = true.
Proof.
  unfold envelopeHead. cbn [readable]. rewrite !lacks_app, lacks_soapEnvNs. reflexivity.
Qed.

Lemma readable_addCardTokens (profile : gmap string jsval) (namespace soapVersion : string) :
  lacks ">" namespace = true ->
  readable (addCardTokens profile namespace soapVersion) = true.
Proof.
  intros Hns. unfold addCardTokens.
  destruct (readable_fields (addValue profile) tagOrder eq_refl) as [Hf Hl].
  apply readable_app; [apply readable_envelopeHead | | reflexivity].
  apply readable_app; [ | | reflexivity].
  - unfold operationTag. cbn [readable]. rewrite !lacks_app, Hns. reflexivity.
  - apply readable_app; [exact Hf | reflexivity | now rewrite Hl].
Qed.

Lemma readable_updateCardTokens (profile : gmap string jsval) (namespace soapVersion : string) :
  lacks ">" namespace = true ->
  readable (updateCardTokens profile namespace soapVersion) = true.
Proof.
  intros Hns. unfold updateCardTokens.
  destruct (readable_fields (updateValue profile) tagOrder eq_refl) as [Hf Hl].
  apply readable_app; [apply readable_envelopeHead | | reflexivity].
  apply readable_app; [ | | reflexivity].
  - unfold operationTag. cbn [readable]. rewrite !lacks_app, Hns.
    rewrite (wellEscaped_lacks _ "<" eq_refl (wellEscaped_escapeXml _)). reflexivity.
  - apply readable_app; [exact Hf | reflexivity | now rewrite Hl].
Qed.

(** *** The elements of the two envelopes *)

Lemma dropEmpty_app (a b : list token) : dropEmpty (a ++ b) = dropEmpty a ++ dropEmpty b.
Proof. unfold dropEmpty. apply flat_map_app. Qed.

Lemma elements_field (tag d : string) (rest : list token) :
  elements (Tag tag :: textTok d ++ Tag ("/" +:+ tag) :: rest)
  = (tag, d) :: elements (Tag ("/" +:+ tag) :: rest).
Proof.
  unfold textTok. destruct (nonempty d) eqn:E; cbn [app elements].
  - now rewrite String.eqb_refl.
  - apply nonempty_false in E. now rewrite String.eqb_refl, E.
Qed.

Lemma elements_text (d : string) (rest : list token) :
  elements (Text d :: rest) = elements rest.
Proof. reflexivity. Qed.

Lemma elements_skip (n d m : string) (rest : list token) :
  String.eqb m ("/" +:+ n) = false ->
  elements (Tag n :: Text d :: Tag m :: rest) = elements (Tag m :: rest).
Proof. intros H. cbn [elements]. now rewrite H. Qed.

Lemma dropEmpty_fieldTokens (value : string -> jsval) (tag : string) (rest : list token) :
  dropEmpty (fieldTokens value tag ++ rest)
  = Text (nl +:+ "        ") :: Tag tag
      :: textTok (escapeXml (value tag)) ++ Tag ("/" +:+ tag) :: dropEmpty rest.
Proof. reflexivity. Qed.

Lemma closed_text_tag (d m : string) (rest : list token) :
  String.prefix "//" m = false -> closed (Text d :: Tag m :: rest).
Proof.
  intros H n. cbn [elements].
  destruct (String.eqb_spec m ("/" +:+ "/" +:+ n)) as [->|]; [|reflexivity].
  change ("/" +:+ "/" +:+ n) with (String "/" (String "/" n)) in H.
  cbn in H. rewrite prefix_nil in H. discriminate H.
Qed.

Lemma elements_fields (value : string -> jsval) (tags : list string) (rest : list token) :
  forallb (fun tag => negb (String.prefix "//" tag)) tags = true ->
  closed (dropEmpty rest) ->
  elements (dropEmpty (flat_map (fieldTokens value) tags ++ rest))
  = map (fun tag => (tag, escapeXml (value tag))) tags ++ elements (dropEmpty rest)
  /\ closed (dropEmpty (flat_map (fieldTokens value) tags ++ rest)).
Proof.
  induction tags as [|tag tags IH]; intros Hok Hrest; [split; [reflexivity | exact Hrest]|].
  cbn [forallb] in Hok. apply andb_true_iff in Hok as [Ht Hok].
  destruct (IH Hok Hrest) as [IH1 IH2].
  cbn [flat_map map]. rewrite <- List.app_assoc, dropEmpty_fieldTokens. split.
  - rewrite elements_text, elements_field, IH2, IH1. reflexivity.
  - apply closed_text_tag. now apply negb_true_iff.
Qed.

Lemma closed_envelopeTail (operation : string) : closed (dropEmpty (envelopeTail operation)).
Proof. apply closed_text_tag. reflexivity. Qed.

Lemma elements_envelopeTail :
  elements (dropEmpty (envelopeTail "AddCard")) = []
  /\ elements (dropEmpty (envelopeTail "UpdateCard")) = [].
Proof. split; vm_compute; reflexivity. Qed.

Lemma elements_addCardTokens (profile : gmap string jsval) (namespace soapVersion : string) :
  elements (dropEmpty (addCardTokens profile namespace soapVersion))
  = map (fun tag => (tag, escapeXml (addValue profile tag))) tagOrder.
Proof.
  unfold addCardTokens.
  destruct (elements_fields (addValue profile) tagOrder (envelopeTail "AddCard") eq_refl
              (closed_envelopeTail _)) as [Hf _].
  rewrite (proj1 elements_envelopeTail), app_nil_r in Hf. rewrite <- Hf.
  do 2 rewrite dropEmpty_app.
  set (block := dropEmpty (flat_map (fieldTokens (addValue profile)) tagOrder
                           ++ envelopeTail "AddCard")).
  unfold envelopeHead, operationTag.
  change (elements
            (Tag ("?xml version=" +:+ dq +:+ "1.0" +:+ dq +:+ " encoding=" +:+ dq +:+ "utf-8"
                  +:+ dq +:+ "?")
             :: Text nl
             :: Tag ("soap:Envelope xmlns:xsi=" +:+ dq
                     +:+ "http://www.w3.org/2001/XMLSchema-instance" +:+ dq
                     +:+ " xmlns:xsd=" +:+ dq +:+ "http://www.w3.org/2001/XMLSchema" +:+ dq
                     +:+ " xmlns:soap=" +:+ dq +:+ soapEnvNs soapVersion +:+ dq)
             :: Text (nl +:+ "  ") :: Tag "soap:Body" :: Text (nl +:+ "    ")
             :: Tag ("AddCard" +:+ " xmlns=" +:+ dq +:+ namespace +:+ dq)
             :: Text (nl +:+ "      ") :: Tag "CardProfile" :: block)
          = elements block).
  rewrite !elements_skip by reflexivity.
  subst block. unfold tagOrder at 1. cbn [flat_map].
  rewrite <- List.app_assoc, dropEmpty_fieldTokens.
  apply elements_skip. reflexivity.
Qed.

Lemma elements_updateCardTokens (profile : gmap string jsval) (namespace soapVersion : string) :
  elements (dropEmpty (updateCardTokens profile namespace soapVersion))
  = ("CardNo", escapeXml (get profile "CardNo"))
      :: map (fun tag => (tag, escapeXml (updateValue profile tag))) tagOrder.
Proof.
  unfold updateCardTokens.
  destruct (elements_fields (updateValue profile) tagOrder (envelopeTail "UpdateCard") eq_refl
              (closed_envelopeTail _)) as [Hf _].
  rewrite (proj2 elements_envelopeTail), app_nil_r in Hf. rewrite <- Hf.
  rewrite dropEmpty_app.
  set (block := flat_map (fieldTokens (updateValue profile)) tagOrder
                ++ envelopeTail "UpdateCard").
  unfold envelopeHead, operationTag.
  change (elements
            (Tag ("?xml version=" +:+ dq +:+ "1.0" +:+ dq +:+ " encoding=" +:+ dq +:+ "utf-8"
                  +:+ dq +:+ "?")
             :: Text nl
             :: Tag ("soap:Envelope xmlns:xsi=" +:+ dq
                     +:+ "http://www.w3.org/2001/XMLSchema-instance" +:+ dq
                     +:+ " xmlns:xsd=" +:+ dq +:+ "http://www.w3.org/2001/XMLSchema" +:+ dq
                     +:+ " xmlns:soap=" +:+ dq +:+ soapEnvNs soapVersion +:+ dq)
             :: Text (nl +:+ "  ") :: Tag "soap:Body" :: Text (nl +:+ "    ")
             :: Tag ("UpdateCard" +:+ " xmlns=" +:+ dq +:+ namespace +:+ dq)
             :: Text (nl +:+ "      ")
             :: Tag "CardNo" :: textTok (escapeXml (get profile "CardNo"))
                  ++ Tag ("/" +:+ "CardNo") :: Text (nl +:+ "      ")
                  :: Tag "CardProfile" :: dropEmpty block)
          = ("CardNo", escapeXml (get profile "CardNo")) :: elements (dropEmpty block)).
  rewrite !elements_skip by reflexivity.
  rewrite elements_field. apply f_equal.
  rewrite elements_skip by reflexivity.
  subst block. unfold tagOrder at 1. cbn [flat_map].
  rewrite <- List.app_assoc, dropEmpty_fieldTokens.
  apply elements_skip. reflexivity.
Qed.

Lemma tagNames_app (a b : list token) : tagNames (a ++ b) = tagNames a ++ tagNames b.
Proof. unfold tagNames. apply flat_map_app. Qed.

Lemma tagNames_dropEmpty (toks : list token) : tagNames (dropEmpty toks) = tagNames toks.
Proof.
  induction toks as [|[n|d] toks IH]; [reflexivity| |].
  - change (n :: tagNames (dropEmpty toks) = n :: tagNames toks). now rewrite IH.
  - change (dropEmpty (Text d :: toks)) with (textTok d ++ dropEmpty toks).
    rewrite tagNames_app, IH. unfold textTok. now destruct (nonempty d).
Qed.

Lemma tagNames_fields (value : string -> jsval) (tags : list string) :
  tagNames (flat_map (fieldTokens value) tags) = flat_map (fun tag => [tag; "/" +:+ tag]) tags.
Proof.
  induction tags as [|tag tags IH]; [reflexivity|].
  cbn [flat_map]. rewrite tagNames_app, IH. reflexivity.
Qed.

Lemma tagNames_addCardTokens (profile : gmap string jsval) (namespace soapVersion : string) :
  tagNames (addCardTokens profile namespace soapVersion)
  = tagNames (envelopeHead soapVersion)
    ++ [operationName "AddCard" namespace; "CardProfile"]
    ++ blockNames
    ++ ["/CardProfile"; "/AddCard"; "/soap:Body"; "/soap:Envelope"].
Proof. unfold addCardTokens. rewrite !tagNames_app, tagNames_fields. reflexivity. Qed.

Lemma tagNames_updateCardTokens (profile : gmap string jsval) (namespace soapVersion : string) :
  tagNames (updateCardTokens profile namespace soapVersion)
  = tagNames (envelopeHead soapVersion)
    ++ [operationName "UpdateCard" namespace; "CardNo"; "/CardNo"; "CardProfile"]
    ++ blockNames
    ++ ["/CardProfile"; "/UpdateCard"; "/soap:Body"; "/soap:Envelope"].
Proof. unfold updateCardTokens. rewrite !tagNames_app, tagNames_fields. reflexivity. Qed.

Lemma scan_addCard (profile : gmap string jsval) (namespace soapVersion : string) :
  lacks ">" namespace = true ->
  scan false (buildAddCardEnvelope profile namespace soapVersion)
  = dropEmpty (addCardTokens profile namespace soapVersion).
Proof.
  intros H. rewrite addCard_render. apply scan_render. now apply readable_addCardTokens.
Qed.

Lemma scan_updateCard (profile : gmap string jsval) (namespace soapVersion : string) :
  lacks ">" namespace = true ->
  scan false (buildUpdateCardEnvelope profile namespace soapVersion)
  = dropEmpty (updateCardTokens profile namespace soapVersion).
Proof.
  intros H. rewrite updateCard_render. apply scan_render. now apply readable_updateCardTokens.
Qed.

Lemma missing_field_default (profile : gmap string jsval) (tag : string) :
  In tag tagOrder -> get profile tag = JUndefined ->
  escapeXml (addValue profile tag) = addDefault tag
  /\ escapeXml (updateValue profile tag) = updateDefault tag.
Proof.
  intros Hin Hu. unfold tagOrder in Hin. cbn [In] in Hin.
  repeat (destruct Hin as [<-|Hin];
          [unfold addValue, updateValue, photoValue; cbn [existsb String.eqb Ascii.eqb Bool.eqb orb];
           rewrite Hu; split; reflexivity|]).
  destruct Hin.
Qed.

(** C6, as the code has it: read back, the create envelope holds exactly one
    element per field, in the order CardNo, Name, CardPinNo, CardType,
    Department, Company, Gentle, AccessLevel, FaceAccessLevel,
    LiftAccessLevel, BypassAP, ActiveStatus, NonExpired, ExpiredDate,
    VehicleNo, FloorNo, UnitNo, ParkingNo, StaffNo, Title, Position, NRIC,
    Passport, Race, DOB, JoiningDate, ResignDate, Address1, Address2,
    PostalCode, City, State, Email, MobileNo, Photo, Download, all of them
    between the tags CardProfile and /CardProfile; the update envelope holds
    the same block after one more CardNo element that stands before the tag
    CardProfile.  Every value is the XML-escaped field, and a missing field
    is never omitted: it renders as an empty element, except BypassAP, which
    renders [false], and, in the update envelope, ActiveStatus, NonExpired
    and Download, which render [true]. *)
Theorem C6_envelope_amended (profile : gmap string jsval) (namespace soapVersion : string)
    (Hns : lacks ">" namespace = true) :
  let add := scan false (buildAddCardEnvelope profile namespace soapVersion) in
  let upd := scan false (buildUpdateCardEnvelope profile namespace soapVersion) in
  tagOrder =
    [ "CardNo"; "Name"; "CardPinNo"; "CardType"; "Department"; "Company"; "Gentle";
      "AccessLevel"; "FaceAccessLevel"; "LiftAccessLevel"; "BypassAP"; "ActiveStatus";
      "NonExpired"; "ExpiredDate"; "VehicleNo"; "FloorNo"; "UnitNo"; "ParkingNo"; "StaffNo";
      "Title"; "Position"; "NRIC"; "Passport"; "Race"; "DOB"; "JoiningDate"; "ResignDate";
      "Address1"; "Address2"; "PostalCode"; "City"; "State"; "Email"; "MobileNo"; "Photo";
      "Download" ]
  /\ elements add = map (fun tag => (tag, escapeXml (addValue profile tag))) tagOrder
  /\ elements upd = ("CardNo", escapeXml (get profile "CardNo"))
                      :: map (fun tag => (tag, escapeXml (updateValue profile tag))) tagOrder
  /\ tagNames add = tagNames (envelopeHead soapVersion)
                    ++ [operationName "AddCard" namespace; "CardProfile"]
                    ++ blockNames
                    ++ ["/CardProfile"; "/AddCard"; "/soap:Body"; "/soap:Envelope"]
  /\ tagNames upd = tagNames (envelopeHead soapVersion)
                    ++ [operationName "UpdateCard" namespace; "CardNo"; "/CardNo"; "CardProfile"]
                    ++ blockNames
                    ++ ["/CardProfile"; "/UpdateCard"; "/soap:Body"; "/soap:Envelope"]
  /\ (forall tag, In tag tagOrder -> get profile tag = JUndefined ->
        escapeXml (addValue profile tag) = addDefault tag
        /\ escapeXml (updateValue profile tag) = updateDefault tag)
  /\ (forall tag, wellEscaped (escapeXml (addValue profile tag)) = true
                  /\ wellEscaped (escapeXml (updateValue profile tag)) = true).
Proof.
  intros add upd. subst add upd.
  rewrite (scan_addCard _ _ _ Hns), (scan_updateCard _ _ _ Hns), !tagNames_dropEmpty.
  split; [reflexivity|].
  split; [apply elements_addCardTokens|].
  split; [apply elements_updateCardTokens|].
  split; [apply tagNames_addCardTokens|].
  split; [apply tagNames_updateCardTokens|].
  split; [apply missing_field_default|].
  intros tag. split; apply wellEscaped_escapeXml.
Qed.

(** C6 at the profile mapped from a one-cell row, under the default
    namespace. *)
Lemma C6_witness :
  elements (scan false (buildAddCardEnvelope (mapRowToProfile (obj [("Card No", JStr "123")]))
                          "http://tempuri.org/" "1.1"))
  = map (fun tag => (tag, escapeXml (addValue (mapRowToProfile (obj [("Card No", JStr "123")]))
                                              tag))) tagOrder.
Proof.
  exact (proj1 (proj2 (C6_envelope_amended (mapRowToProfile (obj [("Card No", JStr "123")]))
                         "http://tempuri.org/" "1.1" eq_refl))).
Defined.

(** C6 as stated fails on the empty profile: the envelope has no Gender
    element (the seventh tag is Gentle), and the missing BypassAP is rendered
    [false], not empty. *)
Lemma C6_counterexample :
  map fst (elements (scan false (buildAddCardEnvelope ∅ "http://tempuri.org/" "1.1")))
    <> specTagOrder
  /\ ~ In "Gender" (tagNames (scan false (buildAddCardEnvelope ∅ "http://tempuri.org/" "1.1")))
  /\ In ("BypassAP", "false")
        (elements (scan false (buildAddCardEnvelope ∅ "http://tempuri.org/" "1.1")))
  /\ get (∅ : gmap string jsval) "BypassAP" = JUndefined.
Proof.
  rewrite (scan_addCard ∅ "http://tempuri.org/" "1.1" eq_refl), elements_addCardTokens,
    tagNames_dropEmpty, tagNames_addCardTokens.
  split; [vm_compute; congruence|].
  split; [vm_compute; intuition congruence|].
  split; [vm_compute; tauto | reflexivity].
Qed.

(** C10: whatever the value, [escapeXml] returns a text without any of the
    characters [<], [>], double quote and single quote, in which every
    ampersand is followed by [amp;], [lt;], [gt;], [quot;] or [apos;]; null and
    undefined give the empty text; hence the sequence of tags read back from
    either envelope is the same for all profiles. *)
Theorem C10_escapeXml (v : jsval) :
  lacks "<" (escapeXml v) = true
  /\ lacks ">" (escapeXml v) = true
  /\ lacks "034" (escapeXml v) = true
  /\ lacks "'" (escapeXml v) = true
  /\ (forall pre post : string,
        escapeXml v = pre +:+ String "&" post ->
        exists entity, In entity ["amp;"; "lt;"; "gt;"; "quot;"; "apos;"]
                       /\ String.prefix entity post = true)
  /\ escapeXml JNull = ""
  /\ escapeXml JUndefined = ""
  /\ (forall (profile profile' : gmap string jsval) (namespace soapVersion : string),
        lacks ">" namespace = true ->
        tagNames (scan false (buildAddCardEnvelope profile namespace soapVersion))
        = tagNames (scan false (buildAddCardEnvelope profile' namespace soapVersion))
        /\ tagNames (scan false (buildUpdateCardEnvelope profile namespace soapVersion))
           = tagNames (scan false (buildUpdateCardEnvelope profile' namespace soapVersion))).
Proof.
  pose proof (wellEscaped_escapeXml v) as Hw.
  repeat (split; [apply wellEscaped_lacks; [reflexivity | exact Hw]|]).
  split.
  { intros pre post E. pose proof (wellEscaped_ampersand _ _ _ Hw E) as Hb.
    unfold beginsEntity in Hb. apply existsb_exists in Hb as (entity & Hin & Hp).
    exists entity. split; [exact Hin | exact Hp]. }
  split; [reflexivity|]. split; [reflexivity|].
  intros profile profile' namespace soapVersion Hns.
  rewrite !(scan_addCard _ _ _ Hns), !(scan_updateCard _ _ _ Hns), !tagNames_dropEmpty,
    !tagNames_addCardTokens, !tagNames_updateCardTokens.
  split; reflexivity.
Qed.

(** ** Profiles as objects *)

Lemma get_obj_cons (k : string) (v : jsval) (l : list (string * jsval)) (k' : string) :
  get (obj ((k, v) :: l)) k' = if String.eqb k k' then v else get (obj l) k'.
Proof.
  unfold get, obj. cbn [list_to_map foldr curry fst snd].
  destruct (String.eqb_spec k k') as [->|Hne].
  - now rewrite lookup_insert_eq.
  - now rewrite lookup_insert_ne.
Qed.

Ltac get_obj :=
  repeat (rewrite get_obj_cons; cbn [String.eqb Ascii.eqb Bool.eqb]).

Lemma mapRowToProfile_CardNo (row : gmap string jsval) :
  get (mapRowToProfile row) "CardNo"
  = JStr (substring0 10 (orDefault
            (s (get row "Card No #[Max 10]" ||| get row "Card No [Max 10]"
                ||| get row "Card No" ||| get row "CardNo" ||| get row "Card Number")) "")).
Proof. unfold mapRowToProfile. cbv zeta. get_obj. reflexivity. Qed.

Lemma mapRowToUpdateProfile_CardNo (row : gmap string jsval) :
  get (mapRowToUpdateProfile row) "CardNo"
  = JStr (substring0 10
            (s (get row "CARD NO" ||| get row "Card No" ||| get row "CardNo"
                ||| get row "Card Number"))).
Proof.
  unfold mapRowToUpdateProfile. cbv zeta.
  destruct (negb (nonempty _)); get_obj; reflexivity.
Qed.

(** ** CardNo comes from the card-number columns only *)

Lemma s_blank (v : jsval) : blank v = true -> s v = "".
Proof.
  destruct v as [| | |z|x]; cbn [blank s]; try reflexivity; try discriminate.
  intros H. apply negb_true_iff in H. now apply nonempty_false.
Qed.

Lemma or_blank (a b : jsval) : blank a = true -> blank b = true -> blank (a ||| b) = true.
Proof. intros Ha Hb. unfold JS.or. now destruct (truthy a). Qed.

(** C8: in both mappers the CardNo of the profile is a function of the
    card-number columns of the row alone, and it is the empty string when
    each of them is blank, whatever the staff-number columns hold. *)
Theorem C8_cardNo_from_card_columns (row : gmap string jsval) :
  (forall row' : gmap string jsval,
      (forall k, In k createCardColumns -> get row' k = get row k) ->
      get (mapRowToProfile row') "CardNo" = get (mapRowToProfile row) "CardNo")
  /\ (forall row' : gmap string jsval,
        (forall k, In k updateCardColumns -> get row' k = get row k) ->
        get (mapRowToUpdateProfile row') "CardNo" = get (mapRowToUpdateProfile row) "CardNo")
  /\ ((forall k, In k createCardColumns -> blank (get row k) = true) ->
      get (mapRowToProfile row) "CardNo" = JStr "")
  /\ ((forall k, In k updateCardColumns -> blank (get row k) = true) ->
      get (mapRowToUpdateProfile row) "CardNo" = JStr "").
Proof.
  split; [|split; [|split]].
  - intros row' H. rewrite !mapRowToProfile_CardNo.
    rewrite !H by (cbn; tauto). reflexivity.
  - intros row' H. rewrite !mapRowToUpdateProfile_CardNo.
    rewrite !H by (cbn; tauto). reflexivity.
  - intros H. rewrite mapRowToProfile_CardNo, s_blank; [reflexivity|].
    repeat apply or_blank; apply H; cbn; tauto.
  - intros H. rewrite mapRowToUpdateProfile_CardNo, s_blank; [reflexivity|].
    repeat apply or_blank; apply H; cbn; tauto.
Qed.

(** C8 on a row whose card-number cells are blank and whose staff-number
    cells are not. *)
Lemma C8_witness :
  get (mapRowToProfile (obj [("Card No", JStr "  "); ("Staff No [Max 15]", JStr "E1001");
                             ("Staff No", JStr "E1001")])) "CardNo" = JStr ""
  /\ get (mapRowToUpdateProfile (obj [("Card No", JStr "  "); ("Staff No [Max 15]", JStr "E1001");
                                      ("Staff No", JStr "E1001")])) "CardNo" = JStr "".
Proof.
  pose proof (C8_cardNo_from_card_columns
                (obj [("Card No", JStr "  "); ("Staff No [Max 15]", JStr "E1001");
                      ("Staff No", JStr "E1001")])) as (_ & _ & Hc & Hu).
  split; [apply Hc | apply Hu]; intros k Hk; cbn in Hk;
    repeat (destruct Hk as [<-|Hk]; [vm_compute; reflexivity|]); destruct Hk.
Defined.

(** ** Clipping *)

Lemma clip_length (v : jsval) (m : nat) :
  (0 < m)%nat -> (String.length (clip v m) <= m)%nat.
Proof.
  intros Hm. unfold clip.
  destruct v; cbn [String.length]; try lia;
    (destruct (Nat.eqb_spec m 0) as [->|_]; [lia|]; cbn [negb andb];
     match goal with |- context [Nat.ltb m ?n] => destruct (Nat.ltb_spec m n) end;
     [apply substring0_length | lia]).
Qed.

Lemma clip_headWhite (v : jsval) (m : nat) : headWhite (clip v m) = false.
Proof.
  assert (Hsub : forall x, headWhite x = false -> headWhite (substring0 m x) = false).
  { intros [|c x] H; destruct m; cbn in *; auto. }
  assert (Ht : forall x, headWhite (trim x) = false).
  { intros x. unfold trim. apply trimEnd_headWhite, trimStart_headWhite. }
  unfold clip. destruct v; try reflexivity;
    match goal with |- context [if ?b then _ else _] => destruct b end; auto.
Qed.

(** Clipping a clipped value again trims it, and does nothing else. *)
Lemma clip_clip (v : jsval) (m : nat) : clip (JStr (clip v m)) m = trim (clip v m).
Proof.
  unfold clip at 1. cbn [ToString].
  destruct (Nat.eqb_spec m 0) as [->|Hm]; [reflexivity|]. cbn [negb andb].
  pose proof (clip_length v m ltac:(lia)) as Hl.
  pose proof (trim_length (clip v m)) as Ht.
  destruct (Nat.ltb_spec m (String.length (trim (clip v m)))); [lia | reflexivity].
Qed.

Lemma clip_idem_trimmed (v : jsval) (m : nat) :
  lastWhite (clip v m) = false -> clip (JStr (clip v m)) m = clip v m.
Proof.
  intros H. rewrite clip_clip. apply trim_trimmed; [apply clip_headWhite | exact H].
Qed.

Lemma guarded_clip_length (x y : string) (m : nat) :
  (0 < m)%nat ->
  (String.length (if nonempty x then clip (JStr y) m else x) <= m)%nat.
Proof.
  intros Hm. destruct (nonempty x) eqn:E; [now apply clip_length|].
  apply nonempty_false in E. subst x. cbn. lia.
Qed.

Lemma update_field_bound (row : gmap string jsval) (k : string) (m : nat) :
  In (k, m) MAX ->
  exists x, get (mapRowToUpdateProfile row) k = JStr x /\ (String.length x <= m)%nat.
Proof.
  intros H. unfold MAX in H. cbn [In] in H.
  repeat (destruct H as [[= <- <-]|H];
          [unfold mapRowToUpdateProfile; cbv zeta;
           destruct (negb (nonempty _)); get_obj;
           (eexists; split; [reflexivity|]);
           first [ apply clip_length; vm_compute; lia
                 | apply guarded_clip_length; vm_compute; lia
                 | cbn; lia ]|]).
  destruct H.
Qed.

(** C4, as the code has it: the update mapper returns every field of its
    table of maximum lengths within its maximum, and both mappers return a
    CardNo of at most 10 characters (the create mapper clips no other field);
    a clipped value is never longer than a positive maximum, and clipping it
    again to the same maximum trims it and changes nothing else, so it is
    left unchanged whenever it does not end with white space. *)
Theorem C4_clipping_amended (row : gmap string jsval) :
  (forall k m, In (k, m) MAX ->
     exists x, get (mapRowToUpdateProfile row) k = JStr x /\ (String.length x <= m)%nat)
  /\ (exists x, get (mapRowToUpdateProfile row) "CardNo" = JStr x
                /\ (String.length x <= 10)%nat)
  /\ (exists x, get (mapRowToProfile row) "CardNo" = JStr x /\ (String.length x <= 10)%nat)
  /\ (forall v m, (0 < m)%nat -> (String.length (clip v m) <= m)%nat)
  /\ (forall v m, clip (JStr (clip v m)) m = trim (clip v m))
  /\ (forall v m, lastWhite (clip v m) = false -> clip (JStr (clip v m)) m = clip v m).
Proof.
  split; [apply update_field_bound|].
  split; [rewrite mapRowToUpdateProfile_CardNo; eexists; split;
          [reflexivity | apply substring0_length]|].
  split; [rewrite mapRowToProfile_CardNo; eexists; split;
          [reflexivity | apply substring0_length]|].
  split; [apply clip_length|].
  split; [apply clip_clip | apply clip_idem_trimmed].
Qed.

(** C4 as stated fails twice: the create mapper returns a name of 60
    characters unclipped, above the contracted 40 (and above the 50 of the
    column header), and clipping [ab cd] to 3 characters twice differs from
    clipping it once. *)
Lemma C4_counterexample :
  get (mapRowToProfile
         (obj [("Card Name [Max 50]",
                JStr "ABCDEFGHIJABCDEFGHIJABCDEFGHIJABCDEFGHIJABCDEFGHIJABCDEFGHIJ")])) "Name"
    = JStr "ABCDEFGHIJABCDEFGHIJABCDEFGHIJABCDEFGHIJABCDEFGHIJABCDEFGHIJ"
  /\ String.length "ABCDEFGHIJABCDEFGHIJABCDEFGHIJABCDEFGHIJABCDEFGHIJABCDEFGHIJ" = 60%nat
  /\ In ("Name", 40%nat) MAX
  /\ clip (JStr "ab cd") 3 = "ab "
  /\ clip (JStr (clip (JStr "ab cd") 3)) 3 = "ab"
  /\ clip (JStr (clip (JStr "ab cd") 3)) 3 <> clip (JStr "ab cd") 3.
Proof.
  split; [vm_compute; reflexivity|].
  split; [reflexivity|].
  split; [cbn; tauto|].
  split; [reflexivity|].
  split; [reflexivity|].
  vm_compute. congruence.
Qed.

(** ** The override of the automatic retry *)

Lemma get_lookup (o : gmap string jsval) (k : string) (v : jsval) :
  o !! k = Some v -> get o k = v.
Proof. unfold get. now intros ->. Qed.

Lemma retry_fold_other (profile : gmap string jsval) (table : list (string * nat))
    (o : gmap string jsval) (k : string) :
  ~ In k (map fst table) ->
  fold_left (fun o e =>
               if truthy (get profile (fst e))
               then <[fst e := JStr (substring0 (snd e) (ToString (get profile (fst e))))]> o
               else o) table o !! k = o !! k.
Proof.
  revert o. induction table as [|e table IH]; intros o Hk; [reflexivity|].
  cbn [fold_left map In] in *. rewrite IH by tauto.
  destruct (truthy _); [|reflexivity]. apply lookup_insert_ne. tauto.
Qed.

Lemma retry_fold_key (profile : gmap string jsval) (table : list (string * nat))
    (o : gmap string jsval) (k : string) (m : nat) :
  List.NoDup (map fst table) -> In (k, m) table ->
  fold_left (fun o e =>
               if truthy (get profile (fst e))
               then <[fst e := JStr (substring0 (snd e) (ToString (get profile (fst e))))]> o
               else o) table o !! k
  = if truthy (get profile k)
    then Some (JStr (substring0 m (ToString (get profile k))))
    else o !! k.
Proof.
  revert o. induction table as [|e table IH]; intros o Hnd Hin; [destruct Hin|].
  cbn [fold_left map In] in *. inversion Hnd as [|x l Hx Hnd']; subst.
  destruct Hin as [->|Hin].
  - cbn [fst snd] in *. rewrite retry_fold_other by exact Hx.
    destruct (truthy (get profile k)); [apply lookup_insert_eq | reflexivity].
  - rewrite (IH _ Hnd' Hin). destruct (truthy (get profile k)); [reflexivity|].
    destruct (truthy _); [|reflexivity]. apply lookup_insert_ne.
    intros E. apply Hx. rewrite E. apply (in_map fst _ _ Hin).
Qed.

Lemma RETRY_MAX_NoDup : List.NoDup (map fst RETRY_MAX).
Proof.
  unfold RETRY_MAX. cbn [map fst].
  repeat (constructor; [cbn [In]; intuition discriminate|]). constructor.
Qed.

Lemma retryOverride_key (profile : gmap string jsval) (k : string) (m : nat) :
  In (k, m) RETRY_MAX ->
  retryOverride profile !! k
  = if truthy (get profile k)
    then Some (JStr (substring0 m (ToString (get profile k))))
    else None.
Proof.
  intros Hin. unfold retryOverride.
  assert (Hk : k <> "Download").
  { intros ->. unfold RETRY_MAX in Hin. cbn [In] in Hin. intuition discriminate. }
  assert (E : forall o : gmap string jsval,
             (match profile !! "Download" with
              | Some JUndefined | None => o
              | Some v => <["Download" := v]> o
              end) !! k = o !! k).
  { intros o. destruct (profile !! "Download") as [[]|]; try reflexivity;
      apply lookup_insert_ne; congruence. }
  rewrite E, (retry_fold_key _ _ _ _ _ RETRY_MAX_NoDup Hin), lookup_empty. reflexivity.
Qed.

Lemma retryOverride_other (profile : gmap string jsval) (k : string) :
  ~ In k (map fst RETRY_MAX) -> k <> "Download" -> retryOverride profile !! k = None.
Proof.
  intros Hk Hd. unfold retryOverride.
  assert (E : forall o : gmap string jsval,
             (match profile !! "Download" with
              | Some JUndefined | None => o
              | Some v => <["Download" := v]> o
              end) !! k = o !! k).
  { intros o. destruct (profile !! "Download") as [[]|]; try reflexivity;
      apply lookup_insert_ne; congruence. }
  rewrite E, retry_fold_other by exact Hk. apply lookup_empty.
Qed.

Lemma retryOverride_Download (profile : gmap string jsval) (v : jsval) :
  profile !! "Download" = Some v -> v <> JUndefined ->
  retryOverride profile !! "Download" = Some v.
Proof.
  intros E Hv. unfold retryOverride. rewrite E.
  destruct v; try congruence; apply lookup_insert_eq.
Qed.

Lemma applyFieldOverrides_get (override profile : gmap string jsval) (k : string) :
  In k overrideKeys ->
  get (applyFieldOverrides override profile) k
  = match override !! k with
    | Some v => JStr (ToString v)
    | None => get profile k
    end.
Proof.
  unfold applyFieldOverrides. generalize overrideKeys as keys. intros keys.
  assert (Hout : forall keys p,
             ~ In k keys ->
             get (fold_left (fun p key => match override !! key with
                                          | Some val => <[key := JStr (ToString val)]> p
                                          | None => p
                                          end) keys p) k = get p k).
  { clear. induction keys as [|key keys IH]; intros p Hk; [reflexivity|].
    cbn [fold_left In] in *. rewrite IH by tauto.
    destruct (override !! key); [|reflexivity].
    unfold get. rewrite lookup_insert_ne; [reflexivity | tauto]. }
  revert profile. induction keys as [|key keys IH]; intros p Hin; [destruct Hin|].
  cbn [fold_left].
  destruct (in_dec string_dec k keys) as [Hk|Hk].
  - rewrite (IH _ Hk). destruct (override !! k) eqn:E; [reflexivity|].
    destruct (override !! key) eqn:E'; [|reflexivity].
    unfold get. rewrite lookup_insert_ne; [reflexivity | congruence].
  - destruct Hin as [->|Hin]; [|contradiction].
    rewrite Hout by exact Hk.
    destruct (override !! k); [|reflexivity].
    unfold get. now rewrite lookup_insert_eq.
Qed.

Lemma retryProfile_unfold (row : gmap string jsval) :
  retryProfile row
  = applyFieldOverrides (retryOverride (mapRowToUpdateProfile row)) (mapRowToUpdateProfile row).
Proof.
  unfold retryProfile. cbv zeta. f_equal. unfold applyUpdateOverride, get.
  rewrite !retryOverride_other; try discriminate; try reflexivity;
    unfold RETRY_MAX; cbn [map fst In]; intuition discriminate.
Qed.

Lemma tryAttachPhoto_get (dir : gmap string string) (profile : gmap string jsval) (k : string) :
  k <> "Photo" -> get (fst (tryAttachPhoto dir profile)) k = get profile k.
Proof.
  intros Hk. unfold tryAttachPhoto. destruct (firstExisting dir _); [|reflexivity].
  cbn [fst]. unfold get. now rewrite lookup_insert_ne by congruence.
Qed.

(** The fields of the retry table, as the retry sends them. *)
Lemma retryProfile_bound (row : gmap string jsval) (k : string) (m : nat) :
  In (k, m) RETRY_MAX -> (renderedLength (get (retryProfile row) k) <= m)%nat.
Proof.
  intros Hin. rewrite retryProfile_unfold, applyFieldOverrides_get.
  - rewrite (retryOverride_key _ _ _ Hin). unfold renderedLength, JS.or.
    destruct (truthy (get (mapRowToUpdateProfile row) k)) eqn:Ht.
    + cbn [ToString truthy].
      pose proof (substring0_length m (ToString (get (mapRowToUpdateProfile row) k))) as Hl.
      destruct (negb _); cbn [ToString String.length]; lia.
    + rewrite Ht. cbn. lia.
  - unfold RETRY_MAX in Hin. cbn [In] in Hin. unfold overrideKeys. cbn [In].
    repeat (destruct Hin as [[= <- <-]|Hin]; [tauto|]). destruct Hin.
Qed.

Lemma mapRowToUpdateProfile_Download (row : gmap string jsval) :
  mapRowToUpdateProfile row !! "Download" = Some (JStr "true").
Proof.
  assert (H : get (mapRowToUpdateProfile row) "Download" = JStr "true").
  { unfold mapRowToUpdateProfile. cbv zeta. destruct (negb (nonempty _)); get_obj; reflexivity. }
  unfold get in H. destruct (mapRowToUpdateProfile row !! "Download"); cbn in H; congruence.
Qed.

Lemma retryProfile_Download (row : gmap string jsval) :
  get (retryProfile row) "Download" = get (mapRowToUpdateProfile row) "Download".
Proof.
  rewrite retryProfile_unfold, applyFieldOverrides_get by (unfold overrideKeys; cbn; tauto).
  rewrite (retryOverride_Download _ _ (mapRowToUpdateProfile_Download row)) by discriminate.
  now rewrite (get_lookup _ _ _ (mapRowToUpdateProfile_Download row)).
Qed.

(** ** Substring search *)

Lemma prefix_spec (needle x : string) :
  String.prefix needle x = true <-> exists b, x = needle +:+ b.
Proof.
  revert x. induction needle as [|c needle IH]; intros x.
  - rewrite prefix_nil. split; [intros _; exists x; reflexivity | reflexivity].
  - destruct x as [|d x]; cbn [String.prefix].
    + split; [discriminate | intros [b Hb]; rewrite sapp_cons in Hb; discriminate Hb].
    + destruct (ascii_dec c d) as [->|Hne].
      * rewrite IH. split; intros [b Hb]; exists b.
        -- now rewrite sapp_cons, Hb.
        -- rewrite sapp_cons in Hb. now injection Hb.
      * split; [discriminate|]. intros [b Hb]. rewrite sapp_cons in Hb.
        injection Hb as Hc _. congruence.
Qed.

Lemma includes_spec (needle x : string) :
  includes needle x = true <-> exists a b, x = a +:+ needle +:+ b.
Proof.
  induction x as [|c x IH]; cbn [includes]; rewrite orb_true_iff, prefix_spec.
  - split.
    + intros [[b Hb]|H]; [exists "", b; exact Hb | discriminate H].
    + intros (a & b & H). left. destruct a as [|d a]; [|rewrite sapp_cons in H; discriminate H].
      exists b. exact H.
  - rewrite IH. split.
    + intros [[b Hb]|(a & b & H)]; [exists "", b; exact Hb|].
      exists (String c a), b. now rewrite sapp_cons, H.
    + intros (a & b & H). destruct a as [|d a].
      * left. exists b. exact H.
      * right. rewrite sapp_cons in H. injection H as _ H. exists a, b. exact H.
Qed.

(* ===================================================================== *)
(** * The orchestrators                                                   *)
(* ===================================================================== *)

Section OrchestratorFacts.

Context {W : Type}.
Variable fetch : W -> request -> W * fetchResult.
Variables SOAP_ACTION SOAP_NAMESPACE SOAP_VERSION UPDATE_SOAP_ACTION : string.
Variable dir : gmap string string.

Local Abbreviation submitUpdate' :=
  (submitUpdate fetch SOAP_NAMESPACE SOAP_VERSION UPDATE_SOAP_ACTION dir).
Local Abbreviation updateRow' :=
  (updateRow fetch SOAP_NAMESPACE SOAP_VERSION UPDATE_SOAP_ACTION dir).
Local Abbreviation updateLoop' :=
  (updateLoop fetch SOAP_NAMESPACE SOAP_VERSION UPDATE_SOAP_ACTION dir).
Local Abbreviation updateCsvPathToVault' :=
  (updateCsvPathToVault fetch SOAP_NAMESPACE SOAP_VERSION UPDATE_SOAP_ACTION dir).
Local Abbreviation registerRow' :=
  (registerRow fetch SOAP_ACTION SOAP_NAMESPACE SOAP_VERSION dir).
Local Abbreviation registerLoop' :=
  (registerLoop fetch SOAP_ACTION SOAP_NAMESPACE SOAP_VERSION dir).
Local Abbreviation registerJobToVault' :=
  (registerJobToVault fetch SOAP_ACTION SOAP_NAMESPACE SOAP_VERSION dir).
Local Abbreviation updateRequest' :=
  (updateRequest SOAP_NAMESPACE SOAP_VERSION UPDATE_SOAP_ACTION dir).
Local Abbreviation addRequest' :=
  (addRequest SOAP_ACTION SOAP_NAMESPACE SOAP_VERSION dir).
Local Abbreviation updateCalls' :=
  (updateCalls SOAP_NAMESPACE SOAP_VERSION UPDATE_SOAP_ACTION dir).

(** What one submission of the update paths does, case by case on the reply. *)
Lemma submitUpdate_spec (endpointBaseUrl : string) (i : nat) (ix : option nat)
    (profile : gmap string jsval) (res : result) (st : state) :
  let sent := fst (tryAttachPhoto dir profile) in
  let reply := fetch (world st) (updateRequest' endpointBaseUrl profile) in
  let '(res', st') := submitUpdate' endpointBaseUrl i ix profile res st in
  world st' = fst reply
  /\ calls st' = calls st ++ [{| c_index := i; c_envelope := body (updateRequest' endpointBaseUrl profile) |}]
  /\ attempted res' = attempted res
  /\ (withPhoto res' + withoutPhoto res' = S (withPhoto res + withoutPhoto res))%nat
  /\ match snd reply with
     | FetchThrows msg =>
         registered res' = registered res
         /\ errors res' = errors res ++ [requestFailed msg sent ix]
         /\ details res' = details res
     | FetchResponse code text =>
         let resp := parseUpdateCardResponse code text in
         exists d, details res' = details res ++ [d]
                   /\ respCode d = errCode resp /\ respMessage d = errMessage resp
                   /\ d_profile d = sent
                   /\ if updateOk resp
                      then registered res' = S (registered res) /\ errors res' = errors res
                      else registered res' = registered res
                           /\ errors res' = errors res ++ [vaultError resp sent ix]
     end.
Proof.
  unfold submitUpdate, updateRequest, postUpdateCard, bind, ret.
  destruct (tryAttachPhoto dir profile) as [sent hasPhoto]. cbn [fst body].
  destruct (fetch (world st) _) as [w' [msg|code text]]; cbn [fst snd].
  - repeat split; cbn; destruct hasPhoto; lia.
  - destruct (updateOk (parseUpdateCardResponse code text)) eqn:Ok; cbn;
      (split; [reflexivity|]); (split; [reflexivity|]); (split; [reflexivity|]);
      (split; [destruct hasPhoto; lia|]);
      eexists; (split; [reflexivity|]); cbn; rewrite ?Ok; repeat split; reflexivity.
Qed.

(** *** The update batch *)

Lemma indexed_nil (lo hi : nat) : indexed lo hi [].
Proof. exists []. repeat split; constructor. Qed.

Lemma indexed_weaken (lo lo' hi : nat) (errs : list errorRecord) :
  (lo' <= lo)%nat -> indexed lo hi errs -> indexed lo' hi errs.
Proof.
  intros Hlo (idxs & Hm & Hn & Hf). exists idxs. repeat split; auto.
  eapply List.Forall_impl; [|exact Hf]. cbn. intros j Hj. lia.
Qed.

Lemma indexed_cons (lo hi : nat) (e : errorRecord) (errs : list errorRecord) :
  e_index e = Some lo -> (lo < hi)%nat -> indexed (S lo) hi errs ->
  indexed lo hi (e :: errs).
Proof.
  intros He Hlo (idxs & Hm & Hn & Hf). exists (lo :: idxs). repeat split.
  - cbn. now rewrite He, Hm.
  - constructor; [|exact Hn]. intros Hin.
    rewrite Forall_forall in Hf. specialize (Hf lo Hin). lia.
  - constructor; [lia|]. eapply List.Forall_impl; [|exact Hf]. cbn. intros j Hj. lia.
Qed.

Lemma updateRow_spec (endpointBaseUrl : string) (overrides : list (gmap string jsval))
    (i : nat) (row : gmap string jsval) (res : result) (st : state) :
  updateRow' endpointBaseUrl overrides i row res st
  = submitUpdate' endpointBaseUrl i (Some i) (updateProfile overrides i row) res st.
Proof. unfold updateRow, updateProfile. now destruct (findOverride overrides i). Qed.

(** One row of the update batch: exactly one call; either the counter of
    updated rows grows by one and the errors stay, or the counter stays and
    exactly one error, carrying the index of the row, is appended. *)
Lemma updateRow_step (endpointBaseUrl : string) (overrides : list (gmap string jsval))
    (i : nat) (row : gmap string jsval) (res : result) (st : state) :
  let '(res', st') := updateRow' endpointBaseUrl overrides i row res st in
  calls st' = calls st ++ updateCalls' endpointBaseUrl overrides i [row]
  /\ attempted res' = attempted res
  /\ (withPhoto res' + withoutPhoto res' = S (withPhoto res + withoutPhoto res))%nat
  /\ ((registered res' = S (registered res) /\ errors res' = errors res)
      \/ (registered res' = registered res
          /\ exists e, errors res' = errors res ++ [e] /\ e_index e = Some i
                       /\ (code e = "VAULT_ERROR" \/ code e = "REQUEST_FAILED"))).
Proof.
  rewrite updateRow_spec.
  pose proof (submitUpdate_spec endpointBaseUrl i (Some i) (updateProfile overrides i row)
                res st) as H.
  cbv zeta in H.
  destruct (submitUpdate' endpointBaseUrl i (Some i) (updateProfile overrides i row) res st)
    as [res' st'].
  destruct H as (_ & Hc & Ha & Hp & Hr).
  split; [exact Hc|]. split; [exact Ha|]. split; [exact Hp|].
  destruct (snd (fetch (world st) _)) as [msg|code text].
  - destruct Hr as (Hr & He & _). right. split; [exact Hr|].
    eexists. split; [exact He|]. split; [reflexivity | right; reflexivity].
  - destruct Hr as (d & _ & _ & _ & _ & Hr).
    destruct (updateOk (parseUpdateCardResponse code text)).
    + left. exact Hr.
    + right. destruct Hr as [Hr He]. split; [exact Hr|].
      eexists. split; [exact He|]. split; [reflexivity | left; reflexivity].
Qed.

Lemma updateLoop_spec (endpointBaseUrl : string) (overrides : list (gmap string jsval))
    (rows : list (gmap string jsval)) :
  forall (i : nat) (res : result) (st : state),
  let '(res', st') := updateLoop' endpointBaseUrl overrides i rows res st in
  calls st' = calls st ++ updateCalls' endpointBaseUrl overrides i rows
  /\ attempted res' = attempted res
  /\ (withPhoto res' + withoutPhoto res'
      = withPhoto res + withoutPhoto res + length rows)%nat
  /\ (registered res' + length (errors res')
      = registered res + length (errors res) + length rows)%nat
  /\ exists errs, errors res' = errors res ++ errs
                  /\ indexed i (i + length rows) errs
                  /\ Forall (fun e => code e = "VAULT_ERROR" \/ code e = "REQUEST_FAILED") errs.
Proof.
  induction rows as [|row rows IH]; intros i res st.
  - cbn. rewrite !app_nil_r. repeat split; try lia.
    exists []. rewrite app_nil_r. repeat split; [apply indexed_nil | constructor].
  - cbn [updateLoop]. unfold bind.
    pose proof (updateRow_step endpointBaseUrl overrides i row res st) as Hrow.
    destruct (updateRow' endpointBaseUrl overrides i row res st) as [res1 st1].
    specialize (IH (S i) res1 st1).
    destruct (updateLoop' endpointBaseUrl overrides (S i) rows res1 st1) as [res' st'].
    destruct Hrow as (Hc1 & Ha1 & Hp1 & Hr1).
    destruct IH as (Hc & Ha & Hp & Hr & errs & He & Hi & Hk).
    cbn [length updateCalls] in *.
    split; [rewrite Hc, Hc1, <- List.app_assoc; reflexivity|].
    split; [congruence|]. split; [lia|].
    destruct Hr1 as [[Hr1 He1]|(Hr1 & e & He1 & Hix & Hcode)].
    + split; [rewrite He1 in Hr; lia|].
      exists errs. split; [now rewrite He, He1|]. split; [|exact Hk].
      eapply indexed_weaken; [|replace (i + S (length rows))%nat with (S i + length rows)%nat by lia; exact Hi].
      lia.
    + split; [rewrite He, He1, !List.length_app in *; cbn [length] in *; lia|].
      exists (e :: errs). split; [rewrite He, He1, <- List.app_assoc; reflexivity|].
      split; [|constructor; assumption].
      apply indexed_cons; [exact Hix | lia |].
      replace (i + S (length rows))%nat with (S i + length rows)%nat by lia. exact Hi.
Qed.

(** C9: every row of the update batch adds one to the counter of updated
    rows or appends exactly one error, never both; so the summary returned
    satisfies attempted = registered + errors.length and
    withPhoto + withoutPhoto = attempted. *)
Theorem C9_update_summary (rows : list (gmap string jsval)) (endpointBaseUrl : string)
    (overrides : list (gmap string jsval)) (st : state) :
  let res := fst (updateCsvPathToVault' rows endpointBaseUrl overrides st) in
  attempted res = length rows
  /\ attempted res = (registered res + length (errors res))%nat
  /\ (withPhoto res + withoutPhoto res)%nat = attempted res
  /\ forall (i : nat) (row : gmap string jsval) (acc : result) (st0 : state),
       let acc' := fst (updateRow' endpointBaseUrl overrides i row acc st0) in
       (registered acc' = S (registered acc) /\ errors acc' = errors acc)
       \/ (registered acc' = registered acc
           /\ exists e, errors acc' = errors acc ++ [e]).
Proof.
  cbv zeta. unfold updateCsvPathToVault.
  pose proof (updateLoop_spec endpointBaseUrl overrides rows 0
                {| attempted := length rows; registered := 0; withPhoto := 0;
                   withoutPhoto := 0; errors := []; details := [] |} st) as H.
  destruct (updateLoop' endpointBaseUrl overrides 0 rows _ st) as [res st'].
  destruct H as (_ & Ha & Hp & Hr & _). cbn [fst attempted registered withPhoto withoutPhoto
                                              errors length] in *.
  split; [exact Ha|]. split; [lia|]. split; [lia|].
  intros i row acc st0.
  pose proof (updateRow_step endpointBaseUrl overrides i row acc st0) as Hrow.
  destruct (updateRow' endpointBaseUrl overrides i row acc st0) as [acc' st1].
  destruct Hrow as (_ & _ & _ & [Hok|(Hr1 & e & He & _)]); cbn [fst]; [left; exact Hok|].
  right. split; [exact Hr1 | exists e; exact He].
Qed.

(** *** The create batch *)

(** What the loop body of the create batch does for row [i], case by case. *)
Lemma registerRow_spec (endpointBaseUrl : string)
    (overrideMap : gmap Z (option string * option bool))
    (i : nat) (row : gmap string jsval) (res : result) (st : state) :
  let profile := applyCreateOverride (overrideMap !! Z.of_nat i) (mapRowToProfile row) in
  let sent := fst (tryAttachPhoto dir profile) in
  let reply := fetch (world st) (addRequest' endpointBaseUrl profile) in
  let '(res', st') := registerRow' endpointBaseUrl overrideMap i row res st in
  attempted res' = S (attempted res)
  /\ if truthy (get profile "CardNo") then
       world st' = fst reply
       /\ calls st' = calls st
                      ++ [{| c_index := i;
                             c_envelope := body (addRequest' endpointBaseUrl profile) |}]
       /\ match snd reply with
          | FetchThrows msg =>
              registered res' = registered res
              /\ errors res' = errors res ++ [requestFailed msg sent None]
          | FetchResponse code text =>
              let resp := parseAddCardResponse code text in
              if bizSuccess resp
              then registered res' = S (registered res) /\ errors res' = errors res
              else registered res' = registered res
                   /\ errors res' = errors res
                                    ++ [if in2xx code then vaultError resp sent None
                                        else httpError resp sent]
          end
     else
       st' = st
       /\ registered res' = registered res
       /\ errors res' = errors res ++ [cardNoMissing i profile].
Proof.
  unfold registerRow, addRequest, postAddCard, bind, ret. cbv zeta.
  destruct (truthy (get (applyCreateOverride _ _) "CardNo")); cbn [negb];
    [|repeat split; reflexivity].
  destruct (tryAttachPhoto dir _) as [sent hasPhoto]. cbn [fst body].
  destruct (fetch (world st) _) as [w' [msg|code text]]; cbn [fst snd].
  - repeat split; reflexivity.
  - destruct (bizSuccess (parseAddCardResponse code text)) eqn:Ok.
    + repeat split; reflexivity.
    + change (httpStatus (parseAddCardResponse code text)) with code.
      destruct (in2xx code); repeat split; reflexivity.
Qed.

(** C2, as the code has it.  Create batch: for a row that reaches the network
    call and gets a reply, a status outside [200,300) is recorded as
    HTTP_ERROR whatever the vendor code, and a status inside with a vendor
    code that is no business success is recorded as VAULT_ERROR with the
    vendor code and message.  Update batch: every reply that is no business
    success is recorded as VAULT_ERROR with the vendor code and message, a
    reply with a status outside [200,300) included; the update batch never
    records HTTP_ERROR. *)
Theorem C2_error_codes_amended (endpointBaseUrl : string)
    (overrides : list (gmap string jsval)) (i : nat) (row : gmap string jsval)
    (res : result) (st : state) (http : Z) (text : string) :
  (truthy (get (createProfile overrides i row) "CardNo") = true ->
   snd (fetch (world st) (addRequest' endpointBaseUrl (createProfile overrides i row)))
     = FetchResponse http text ->
   let resp := parseAddCardResponse http text in
   let res' := fst (registerRow' endpointBaseUrl (overrideMapOf overrides ∅) i row res st) in
   (in2xx http = false ->
      exists e, errors res' = errors res ++ [e]
                /\ code e = "HTTP_ERROR"
                /\ message e = "HTTP " +:+ string_of_Z http)
   /\ (in2xx http = true -> bizSuccess resp = false ->
        exists e, errors res' = errors res ++ [e]
                  /\ code e = "VAULT_ERROR"
                  /\ e_errCode e = errCode resp
                  /\ message e = messageOr (errMessage resp)))
  /\ (snd (fetch (world st) (updateRequest' endpointBaseUrl (updateProfile overrides i row)))
       = FetchResponse http text ->
      let resp := parseUpdateCardResponse http text in
      let res' := fst (updateRow' endpointBaseUrl overrides i row res st) in
      (in2xx http = false -> updateOk resp = false)
      /\ (updateOk resp = false ->
           exists e, errors res' = errors res ++ [e]
                     /\ code e = "VAULT_ERROR"
                     /\ e_errCode e = errCode resp
                     /\ message e = messageOr (errMessage resp))).
Proof.
  split.
  - intros Hcard Hreply resp res'. subst resp res'.
    pose proof (registerRow_spec endpointBaseUrl (overrideMapOf overrides ∅) i row res st) as H.
    cbv zeta in H. fold (createProfile overrides i row) in H.
    destruct (registerRow' endpointBaseUrl (overrideMapOf overrides ∅) i row res st)
      as [res' st'].
    rewrite Hcard, Hreply in H. destruct H as (_ & _ & _ & H). cbn [fst]. split.
    + intros Hst. unfold bizSuccess in H at 1. cbn [httpStatus parseAddCardResponse] in H.
      rewrite Hst in H. cbn [andb] in H. destruct H as [_ H].
      eexists. split; [exact H|]. split; reflexivity.
    + intros Hst Hbiz. rewrite Hbiz, Hst in H. destruct H as [_ H].
      eexists. split; [exact H|]. repeat split; reflexivity.
  - intros Hreply resp res'. subst resp res'. rewrite updateRow_spec.
    pose proof (submitUpdate_spec endpointBaseUrl i (Some i) (updateProfile overrides i row)
                  res st) as H.
    cbv zeta in H.
    destruct (submitUpdate' endpointBaseUrl i (Some i) (updateProfile overrides i row) res st)
      as [res' st'].
    rewrite Hreply in H. destruct H as (_ & _ & _ & _ & d & _ & _ & _ & _ & H). cbn [fst].
    split.
    + intros Hst. unfold updateOk, parseUpdateCardResponse. cbn [status].
      now rewrite <- in2xx_res_ok, Hst.
    + intros Hok. rewrite Hok in H. destruct H as [_ H].
      eexists. split; [exact H|]. repeat split; reflexivity.
Qed.

Lemma registerLoop_spec (endpointBaseUrl : string)
    (overrideMap : gmap Z (option string * option bool))
    (rows : list (gmap string jsval)) :
  forall (i : nat) (res : result) (st : state),
  let profileAt j row :=
    applyCreateOverride (overrideMap !! Z.of_nat (i + j)) (mapRowToProfile row) in
  let '(res', st') := registerLoop' endpointBaseUrl overrideMap i rows res st in
  attempted res' = (attempted res + length rows)%nat
  /\ exists errs newCalls,
       errors res' = errors res ++ errs
       /\ calls st' = calls st ++ newCalls
       /\ (forall j row, rows !! j = Some row ->
             if truthy (get (profileAt j row) "CardNo")
             then In {| c_index := i + j;
                        c_envelope := body (addRequest' endpointBaseUrl (profileAt j row)) |}
                     newCalls
             else In (cardNoMissing (i + j) (profileAt j row)) errs)
       /\ (forall c, In c newCalls ->
             exists j row, rows !! j = Some row /\ c_index c = (i + j)%nat
                           /\ truthy (get (profileAt j row) "CardNo") = true).
Proof.
  induction rows as [|row rows IH]; intros i res st; cbv zeta.
  - cbn. split; [lia|]. exists [], []. rewrite !app_nil_r.
    repeat split; [intros j r Hj; discriminate Hj | intros c []].
  - cbn [registerLoop]. unfold bind.
    pose proof (registerRow_spec endpointBaseUrl overrideMap i row res st) as Hrow.
    cbv zeta in Hrow.
    destruct (registerRow' endpointBaseUrl overrideMap i row res st) as [res1 st1].
    specialize (IH (S i) res1 st1). cbv zeta in IH.
    destruct (registerLoop' endpointBaseUrl overrideMap (S i) rows res1 st1) as [res' st'].
    destruct Hrow as (Ha1 & Hrow).
    destruct IH as (Ha & errs & newCalls & He & Hc & Hall & Hcalls).
    cbn [length]. split; [lia|].
    assert (Hshift : forall j, (S i + j = i + S j)%nat) by (intros; lia).
    destruct (truthy (get (applyCreateOverride (overrideMap !! Z.of_nat i)
                             (mapRowToProfile row)) "CardNo")) eqn:Hcard.
    + destruct Hrow as (_ & Hc1 & Hrow).
      assert (Herr : exists errs1, errors res1 = errors res ++ errs1).
      { destruct (snd (fetch (world st) _)) as [msg|http text].
        - destruct Hrow as [_ Hrow]. eexists. exact Hrow.
        - destruct (bizSuccess _); destruct Hrow as [_ Hrow].
          + exists []. now rewrite app_nil_r.
          + eexists. exact Hrow. }
      destruct Herr as [errs1 Herr].
      exists (errs1 ++ errs), ({| c_index := i; c_envelope := body (addRequest' endpointBaseUrl
                 (applyCreateOverride (overrideMap !! Z.of_nat i) (mapRowToProfile row))) |}
                               :: newCalls).
      split; [rewrite He, Herr, <- List.app_assoc; reflexivity|].
      split; [rewrite Hc, Hc1, <- List.app_assoc; reflexivity|].
      split.
      * intros [|j] r Hj.
        -- cbn in Hj. injection Hj as <-. rewrite Nat.add_0_r, Hcard. left. reflexivity.
        -- cbn in Hj. specialize (Hall j r Hj). rewrite Hshift in Hall.
           destruct (truthy _); [right; exact Hall | apply in_or_app; right; exact Hall].
      * intros c [<-|Hin].
        -- exists 0%nat, row. rewrite Nat.add_0_r. repeat split; [exact Hcard].
        -- destruct (Hcalls c Hin) as (j & r & Hj & Hcj & Ht).
           exists (S j), r. rewrite <- Hshift. repeat split; assumption.
    + destruct Hrow as (-> & _ & Herr).
      exists (cardNoMissing i (applyCreateOverride (overrideMap !! Z.of_nat i)
                                 (mapRowToProfile row)) :: errs), newCalls.
      split; [rewrite He, Herr, <- List.app_assoc; reflexivity|].
      split; [exact Hc|].
      split.
      * intros [|j] r Hj.
        -- cbn in Hj. injection Hj as <-. rewrite Nat.add_0_r, Hcard. left. reflexivity.
        -- cbn in Hj. specialize (Hall j r Hj). rewrite Hshift in Hall.
           destruct (truthy _); [exact Hall | right; exact Hall].
      * intros c Hin. destruct (Hcalls c Hin) as (j & r & Hj & Hcj & Ht).
        exists (S j), r. rewrite <- Hshift. repeat split; assumption.
Qed.

(** C5, as the code has it.  Create batch: a row whose CardNo is blank after
    mapping and override gets the error CARD_NO_MISSING with its index and no
    network call, and every other row of the batch still gets its call.
    Update batch: there is no such check; every row, blank CardNo or not, gets
    its network call, and CARD_NO_MISSING is never recorded. *)
Theorem C5_card_no_missing_amended (outputDir endpointBaseUrl : string)
    (rows overrides : list (gmap string jsval)) (st : state) :
  (rows <> [] ->
   let '(res, st') := registerJobToVault' outputDir true rows endpointBaseUrl overrides st in
   attempted res = length rows
   /\ exists newCalls,
        calls st' = calls st ++ newCalls
        /\ forall i row, rows !! i = Some row ->
             if truthy (get (createProfile overrides i row) "CardNo")
             then In {| c_index := i;
                        c_envelope := body (addRequest' endpointBaseUrl
                                              (createProfile overrides i row)) |} newCalls
             else In (cardNoMissing i (createProfile overrides i row)) (errors res)
                  /\ code (cardNoMissing i (createProfile overrides i row)) = "CARD_NO_MISSING"
                  /\ forall c, In c newCalls -> c_index c <> i)
  /\ (let '(res, st') := updateCsvPathToVault' rows endpointBaseUrl overrides st in
      calls st' = calls st ++ updateCalls' endpointBaseUrl overrides 0 rows
      /\ length (updateCalls' endpointBaseUrl overrides 0 rows) = length rows
      /\ forall e, In e (errors res) -> code e <> "CARD_NO_MISSING").
Proof.
  split.
  - intros Hrows. unfold registerJobToVault. cbn [negb].
    destruct rows as [|row0 rows0] eqn:Erows; [congruence|]. rewrite <- Erows. clear Hrows.
    pose proof (registerLoop_spec endpointBaseUrl (overrideMapOf overrides ∅) rows 0
                  emptyResult st) as H.
    cbv zeta in H.
    destruct (registerLoop' endpointBaseUrl (overrideMapOf overrides ∅) 0 rows emptyResult st)
      as [res st'].
    destruct H as (Ha & errs & newCalls & He & Hc & Hall & Hcalls).
    split; [exact Ha|]. exists newCalls. split; [exact Hc|].
    intros i row Hi. specialize (Hall i row Hi). cbn [Nat.add] in Hall.
    unfold createProfile.
    destruct (truthy (get (applyCreateOverride (overrideMapOf overrides ∅ !! Z.of_nat i)
                             (mapRowToProfile row)) "CardNo")) eqn:Hcard; [exact Hall|].
    split; [rewrite He; cbn; exact Hall|]. split; [reflexivity|].
    intros c Hin Hci. destruct (Hcalls c Hin) as (j & r & Hj & Hcj & Ht).
    cbn [Nat.add] in Hcj, Ht. rewrite Hci in Hcj. subst j.
    rewrite Hi in Hj. injection Hj as <-. congruence.
  - unfold updateCsvPathToVault.
    pose proof (updateLoop_spec endpointBaseUrl overrides rows 0
                  {| attempted := length rows; registered := 0; withPhoto := 0;
                     withoutPhoto := 0; errors := []; details := [] |} st) as H.
    destruct (updateLoop' endpointBaseUrl overrides 0 rows _ st) as [res st'].
    destruct H as (Hc & _ & _ & _ & errs & He & _ & Hk). cbn [errors app] in He.
    split; [exact Hc|]. split.
    + clear. generalize 0%nat. induction rows as [|r rows IH]; intros n; [reflexivity|].
      cbn [updateCalls length]. now rewrite IH.
    + intros e Hin. rewrite He in Hin. rewrite Forall_forall in Hk.
      apply list_elem_of_In in Hin. destruct (Hk e Hin) as [-> | ->]; discriminate.
Qed.

(** *** The automatic retry *)

Local Abbreviation retryOne' :=
  (retryOne fetch SOAP_NAMESPACE SOAP_VERSION UPDATE_SOAP_ACTION dir).
Local Abbreviation retryLoop' :=
  (retryLoop fetch SOAP_NAMESPACE SOAP_VERSION UPDATE_SOAP_ACTION dir).
Local Abbreviation retryAll' :=
  (retryAll fetch SOAP_NAMESPACE SOAP_VERSION UPDATE_SOAP_ACTION dir).
Local Abbreviation retryCall' :=
  (retryCall SOAP_NAMESPACE SOAP_VERSION UPDATE_SOAP_ACTION dir).
Local Abbreviation main' :=
  (main fetch SOAP_NAMESPACE SOAP_VERSION UPDATE_SOAP_ACTION dir).

Lemma preview_profile (rows : list (gmap string jsval)) (idx : nat) :
  (idx < length rows)%nat ->
  match nth_error (previewUpdateCsvPathToVault dir rows) idx with
  | Some d => d_profile d
  | None => ∅
  end = mapRowToUpdateProfile (nth idx rows ∅).
Proof.
  intros Hlt. unfold previewUpdateCsvPathToVault.
  rewrite nth_error_map.
  destruct (nth_error rows idx) as [row|] eqn:E.
  - cbn. now rewrite (nth_error_nth _ _ _ E).
  - apply nth_error_None in E. lia.
Qed.

(** One resubmission: one call, for the row mapped again and patched; it
    succeeds exactly when the reply is a business success, and reports the
    message of this reply. *)
Lemma retryOne_spec (rows : list (gmap string jsval)) (endpoint : string) (idx : nat)
    (st : state) :
  (idx < length rows)%nat ->
  let reply := fetch (world st) (updateRequest' endpoint (retryProfile (nth idx rows ∅))) in
  let '(single, st') := retryOne' rows endpoint idx st in
  world st' = fst reply
  /\ calls st' = calls st ++ [retryCall' rows endpoint idx]
  /\ match snd reply with
     | FetchThrows msg =>
         retryOk single = false
         /\ retryMessage single = (if nonempty msg then msg else "Unknown error")
     | FetchResponse http text =>
         retryOk single = updateOk (parseUpdateCardResponse http text)
         /\ retryMessage single = messageOr (errMessage (parseUpdateCardResponse http text))
     end.
Proof.
  intros Hlt. unfold retryOne, retryCall. cbv zeta. rewrite (preview_profile rows idx Hlt).
  unfold updateCsvRowToVault.
  replace (Z.of_nat idx <? 0) with false by (symmetry; apply Z.ltb_ge; lia).
  replace (Z.of_nat (length rows) <=? Z.of_nat idx) with false
    by (symmetry; apply Z.leb_gt; lia).
  cbn [orb]. rewrite Nat2Z.id. cbv zeta. unfold retryProfile. cbv zeta.
  set (sent := applyFieldOverrides _ _). clearbody sent.
  unfold bind, ret.
  pose proof (submitUpdate_spec endpoint idx None sent
                {| attempted := 1; registered := 0; withPhoto := 0; withoutPhoto := 0;
                   errors := []; details := [] |} st) as H.
  cbv zeta in H.
  destruct (submitUpdate' endpoint idx None sent _ st) as [res st'].
  destruct H as (Hw & Hc & _ & _ & Hr).
  split; [exact Hw|]. split; [exact Hc|].
  unfold retryOk, retryMessage. cbn [s_rowStatus rs_ok rs_message].
  destruct (snd (fetch (world st) _)) as [msg|http text].
  - destruct Hr as (_ & He & Hd). cbn [errors details app] in He, Hd. rewrite He, Hd.
    cbn [message requestFailed messageOr]. split; [reflexivity|].
    destruct (nonempty msg) eqn:E; cbn [messageOr]; now rewrite ?E.
  - destruct Hr as (d & Hd & _ & Hm & _ & Hr). cbn [errors details app] in Hd, Hr.
    rewrite Hd. cbn [respMessage]. rewrite Hm. split; [|reflexivity].
    destruct (updateOk (parseUpdateCardResponse http text)); destruct Hr as [_ ->]; reflexivity.
Qed.


Lemma retryAll_spec (rows : list (gmap string jsval)) (endpoint : string) (idxs : list nat) :
  forall st : state,
  Forall (fun idx => (idx < length rows)%nat) idxs ->
  let '(singles, st') := retryAll' rows endpoint idxs st in
  calls st' = calls st ++ map (retryCall' rows endpoint) idxs
  /\ length singles = length idxs.
Proof.
  induction idxs as [|idx idxs IH]; intros st Hall.
  - cbn. now rewrite app_nil_r.
  - apply Forall_cons in Hall as [Hlt Hall]. cbn [retryAll]. unfold bind, ret.
    pose proof (retryOne_spec rows endpoint idx st Hlt) as H1. cbv zeta in H1.
    destruct (retryOne' rows endpoint idx st) as [single st1].
    specialize (IH st1 Hall).
    destruct (retryAll' rows endpoint idxs st1) as [singles st'].
    destruct H1 as (_ & Hc1 & _). destruct IH as [Hc Hl].
    cbn [map length]. split; [|now rewrite Hl].
    rewrite Hc, Hc1, <- List.app_assoc. reflexivity.
Qed.

(** The loop of the retry is the sequence of the resubmissions, with the
    failures collected. *)
Lemma retryLoop_spec (rows : list (gmap string jsval)) (endpoint : string)
    (targets : list errorRecord) :
  forall (idxs : list nat) (updated : nat) (errs : list retryError) (st : state),
  map e_index targets = map Some idxs ->
  retryLoop' rows endpoint targets updated errs st
  = let '(singles, st') := retryAll' rows endpoint idxs st in
    (Some ((updated + length (List.filter retryOk singles))%nat,
           errs ++ retryFailures targets idxs singles), st').
Proof.
  induction targets as [|e targets IH]; intros idxs updated errs st Hm.
  - destruct idxs; [|discriminate Hm]. cbn. unfold ret.
    now rewrite Nat.add_0_r, app_nil_r.
  - destruct idxs as [|idx idxs]; [discriminate Hm|].
    cbn [map] in Hm. injection Hm as He Hm.
    cbn [retryLoop retryAll]. rewrite He. unfold bind, ret.
    destruct (retryOne' rows endpoint idx st) as [single st1].
    destruct (retryOk single) eqn:Ok.
    + rewrite (IH idxs _ _ _ Hm).
      destruct (retryAll' rows endpoint idxs st1) as [singles st'].
      cbn [List.filter retryFailures length app]. rewrite Ok. cbn [length app].
      f_equal. f_equal. f_equal. lia.
    + rewrite (IH idxs _ _ _ Hm).
      destruct (retryAll' rows endpoint idxs st1) as [singles st'].
      cbn [List.filter retryFailures length app]. rewrite Ok.
      now rewrite <- List.app_assoc.
Qed.

Lemma indexed_filter (lo hi : nat) (f : errorRecord -> bool) (errs : list errorRecord) :
  indexed lo hi errs -> indexed lo hi (List.filter f errs).
Proof.
  intros (idxs & Hm & Hn & Hf). revert idxs Hm Hn Hf.
  induction errs as [|e errs IH]; intros idxs Hm Hn Hf.
  - exists []. repeat split; constructor.
  - destruct idxs as [|idx idxs]; [discriminate Hm|].
    cbn [map] in Hm. injection Hm as He Hm.
    apply NoDup_cons in Hn as [Hnotin Hn]. apply Forall_cons in Hf as [Hidx Hf].
    destruct (IH idxs Hm Hn Hf) as (idxs' & Hm' & Hn' & Hf').
    cbn [List.filter]. destruct (f e); [|exists idxs'; auto].
    assert (Hsub : forall x, x ∈ idxs' -> x ∈ idxs).
    { clear - Hm Hm'. revert idxs idxs' Hm Hm'.
      induction errs as [|e errs IH]; intros idxs idxs' Hm Hm'.
      - destruct idxs'; [|discriminate Hm']. intros x Hx. inversion Hx.
      - destruct idxs as [|i idxs]; [discriminate Hm|].
        cbn [map] in Hm. injection Hm as He Hm. cbn [List.filter] in Hm'.
        destruct (f e).
        + destruct idxs' as [|i' idxs']; [discriminate Hm'|].
          cbn [map] in Hm'. injection Hm' as He' Hm'.
          assert (i' = i) as -> by congruence.
          intros x Hx. apply elem_of_cons in Hx as [->|Hx]; [left|right].
          now apply (IH idxs idxs').
        + intros x Hx. right. now apply (IH idxs idxs'). }
    exists (idx :: idxs'). split; [cbn; now rewrite He, Hm'|]. split.
    + apply NoDup_cons. split; [|exact Hn']. intros Hin. apply Hnotin, Hsub, Hin.
    + constructor; assumption.
Qed.

Lemma retryFailures_In (targets : list errorRecord) :
  forall (idxs : list nat) (singles : list singleResult) (r : retryError),
  In r (retryFailures targets idxs singles) ->
  exists j e idx single,
    targets !! j = Some e /\ idxs !! j = Some idx /\ singles !! j = Some single
    /\ retryOk single = false /\ r = retryFailure e idx single.
Proof.
  induction targets as [|e targets IH]; intros idxs singles r Hin; [destruct Hin|].
  destruct idxs as [|idx idxs]; [destruct Hin|].
  destruct singles as [|single singles]; [destruct Hin|].
  cbn [retryFailures] in Hin. apply in_app_or in Hin as [Hin|Hin].
  - destruct (retryOk single) eqn:Ok; [destruct Hin|].
    destruct Hin as [<-|[]]. exists 0%nat, e, idx, single. repeat split; auto.
  - destruct (IH _ _ _ Hin) as (j & e' & idx' & single' & H1 & H2 & H3 & H4 & H5).
    exists (S j), e', idx', single'. repeat split; auto.
Qed.

Lemma retryFailures_failed (targets : list errorRecord) :
  forall (idxs : list nat) (singles : list singleResult) (j : nat)
         (e : errorRecord) (idx : nat) (single : singleResult),
  targets !! j = Some e -> idxs !! j = Some idx -> singles !! j = Some single ->
  retryOk single = false ->
  In (retryFailure e idx single) (retryFailures targets idxs singles).
Proof.
  induction targets as [|e0 targets IH]; intros idxs singles j e idx single Ht Hi Hs Ok;
    [discriminate Ht|].
  destruct idxs as [|idx0 idxs]; [discriminate Hi|].
  destruct singles as [|single0 singles]; [discriminate Hs|].
  cbn [retryFailures]. apply in_or_app. destruct j as [|j].
  - cbn in Ht, Hi, Hs. injection Ht as ->. injection Hi as ->. injection Hs as ->.
    left. rewrite Ok. left. reflexivity.
  - right. now apply (IH idxs singles j).
Qed.

Lemma isTruncated_spec (msg : string) :
  isTruncated msg = true <-> exists a b, toLowerCase msg = a +:+ "truncated" +:+ b.
Proof. apply includes_spec. Qed.

Lemma firstPass_indexed (rows : list (gmap string jsval)) (endpoint : string) (st : state) :
  indexed 0 (length rows) (errors (fst (updateCsvPathToVault' rows endpoint [] st))).
Proof.
  unfold updateCsvPathToVault.
  pose proof (updateLoop_spec endpoint [] rows 0
                {| attempted := length rows; registered := 0; withPhoto := 0;
                   withoutPhoto := 0; errors := []; details := [] |} st) as H.
  destruct (updateLoop' endpoint [] 0 rows _ st) as [res st'].
  destruct H as (_ & _ & _ & _ & errs & He & Hi & _). cbn [fst errors app] in *.
  now rewrite He.
Qed.

(** What the retry of a row sends: the envelope of the row mapped again and
    patched, every field of the retry table within its maximum, and the
    Download flag of the mapping. *)
Lemma retry_sent (rows : list (gmap string jsval)) (endpoint : string) (idx : nat) :
  let sent := fst (tryAttachPhoto dir (retryProfile (nth idx rows ∅))) in
  c_envelope (retryCall' rows endpoint idx)
    = buildUpdateCardEnvelope sent SOAP_NAMESPACE SOAP_VERSION
  /\ (forall k m, In (k, m) RETRY_MAX -> (renderedLength (get sent k) <= m)%nat)
  /\ get sent "Download" = get (mapRowToUpdateProfile (nth idx rows ∅)) "Download".
Proof.
  cbv zeta. split; [reflexivity|]. split.
  - intros k m Hin. rewrite tryAttachPhoto_get; [now apply retryProfile_bound|].
    intros ->. unfold RETRY_MAX in Hin. cbn [In] in Hin. intuition discriminate.
  - rewrite tryAttachPhoto_get by discriminate. apply retryProfile_Download.
Qed.

(** What is reported after the retry: a target whose resubmission failed is
    reported with the message of that resubmission, and no report bears the
    index of a target whose resubmission succeeded. *)
Lemma retryFailures_report (targets : list errorRecord) (idxs : list nat)
    (singles : list singleResult) :
  NoDup idxs ->
  forall j e idx single,
    targets !! j = Some e -> idxs !! j = Some idx -> singles !! j = Some single ->
    if retryOk single
    then forall r, In r (retryFailures targets idxs singles) -> r_index r <> idx
    else In {| r_index := idx; r_cardNo := e_cardNo e; r_message := retryMessage single |}
            (retryFailures targets idxs singles).
Proof.
  intros Hnd j e idx single Ht Hi Hs.
  destruct (retryOk single) eqn:Ok.
  - intros r Hin Hr.
    destruct (retryFailures_In _ _ _ _ Hin) as (j' & e' & idx' & single' & Ht' & Hi' & Hs' & Ok' & ->).
    cbn [r_index retryFailure] in Hr. subst idx'.
    assert (j' = j) as -> by (eapply NoDup_lookup; eauto).
    rewrite Hs in Hs'. injection Hs' as <-. congruence.
  - now apply (retryFailures_failed targets idxs singles j).
Qed.

(** The batch mode of the script: the first pass, the targets of the retry,
    the calls of the retry and what is reported. *)
Lemma main_spec (rows : list (gmap string jsval)) (endpoint : string)
    (st : state) :
  let first := updateCsvPathToVault' rows endpoint [] st in
  let final := main' rows endpoint st in
  let out := fst final in
  let targets := retryTargets out in
  firstPass out = fst first
  /\ targets = List.filter (fun e => isTruncated (message e)) (errors (fst first))
  /\ (forall msg, isTruncated msg = true
                  <-> exists a b, toLowerCase msg = a +:+ "truncated" +:+ b)
  /\ exists idxs : list nat,
       map e_index targets = map Some idxs
       /\ NoDup idxs
       /\ Forall (fun idx => (idx < length rows)%nat) idxs
       /\ calls (snd final) = calls (snd first) ++ map (retryCall' rows endpoint) idxs
       /\ (forall idx,
             let sent := fst (tryAttachPhoto dir (retryProfile (nth idx rows ∅))) in
             c_envelope (retryCall' rows endpoint idx)
               = buildUpdateCardEnvelope sent SOAP_NAMESPACE SOAP_VERSION
             /\ (forall k m, In (k, m) RETRY_MAX -> (renderedLength (get sent k) <= m)%nat)
             /\ get sent "Download" = get (mapRowToUpdateProfile (nth idx rows ∅)) "Download")
       /\ let singles := fst (retryAll' rows endpoint idxs (snd first)) in
          length singles = length idxs
          /\ retryErrors out = retryFailures targets idxs singles
          /\ retryUpdated out = length (List.filter retryOk singles)
          /\ ending_ out <> Exit 1
          /\ forall j e idx single,
               targets !! j = Some e -> idxs !! j = Some idx -> singles !! j = Some single ->
               if retryOk single
               then forall r, In r (retryErrors out) -> r_index r <> idx
               else In {| r_index := idx; r_cardNo := e_cardNo e;
                          r_message := retryMessage single |} (retryErrors out).
Proof.
  cbv zeta.
  pose proof (firstPass_indexed rows endpoint st) as Hidx.
  apply (indexed_filter _ _ (fun e => isTruncated (message e))) in Hidx.
  destruct Hidx as (idxs & Hm & Hnd & Hall).
  assert (Hall' : Forall (fun idx => (idx < length rows)%nat) idxs).
  { eapply List.Forall_impl; [|exact Hall]. cbn. intros j Hj. lia. }
  pose proof (retryAll_spec rows endpoint idxs
                (snd (updateCsvPathToVault' rows endpoint [] st)) Hall') as Hcalls.
  pose proof (retryLoop_spec rows endpoint _ idxs 0 []
                (snd (updateCsvPathToVault' rows endpoint [] st)) Hm) as Hloop.
  pose proof (retryFailures_report
                (List.filter (fun e => isTruncated (message e))
                   (errors (fst (updateCsvPathToVault' rows endpoint [] st))))
                idxs (fst (retryAll' rows endpoint idxs
                             (snd (updateCsvPathToVault' rows endpoint [] st)))) Hnd) as Hrep.
  unfold main, bind, ret.
  destruct (updateCsvPathToVault' rows endpoint [] st) as [result st1]. cbn [fst snd] in *.
  destruct (retryAll' rows endpoint idxs st1) as [singles st2] eqn:Eall.
  destruct Hcalls as [Hcalls Hlen]. cbn [fst] in Hrep.
  remember (List.filter (fun e => isTruncated (message e)) (errors result)) as targets
    eqn:Etargets.
  assert (Hnil : targets = [] -> idxs = [] /\ singles = [] /\ st2 = st1).
  { intros ->. destruct idxs; [|discriminate Hm]. cbn in Eall. unfold ret in Eall.
    injection Eall as <- <-. auto. }
  destruct (errors result) as [|e0 errs0] eqn:Eerr.
  - cbn [List.filter] in Etargets. subst targets. destruct (Hnil eq_refl) as (-> & -> & ->).
    cbn [fst snd firstPass retryTargets retryErrors retryUpdated ending_].
    split; [reflexivity|]. split; [reflexivity|]. split; [apply isTruncated_spec|].
    exists []. rewrite app_nil_r.
    split; [reflexivity|]. split; [constructor|]. split; [constructor|].
    split; [reflexivity|]. split; [intros idx; apply retry_sent|].
    split; [reflexivity|]. split; [reflexivity|]. split; [reflexivity|].
    split; [discriminate|].
    intros j e idx single Hj. discriminate Hj.
  - destruct targets as [|t0 ts] eqn:Et.
    + destruct (Hnil eq_refl) as (-> & -> & ->).
      cbn [fst snd firstPass retryTargets retryErrors retryUpdated ending_].
      split; [reflexivity|]. split; [reflexivity|]. split; [apply isTruncated_spec|].
      exists []. rewrite app_nil_r.
      split; [reflexivity|]. split; [constructor|]. split; [constructor|].
      split; [reflexivity|]. split; [intros idx; apply retry_sent|].
      split; [reflexivity|]. split; [reflexivity|]. split; [reflexivity|].
      split; [discriminate|].
      intros j e idx single Hj. discriminate Hj.
    + rewrite Hloop. cbn [Nat.add app].
      destruct (retryFailures (t0 :: ts) idxs singles) as [|r rs] eqn:Ef;
        cbn [fst snd firstPass retryTargets retryErrors retryUpdated ending_];
        (split; [reflexivity|]); (split; [reflexivity|]);
        (split; [apply isTruncated_spec|]);
        exists idxs; rewrite Eall; cbn [fst];
        (split; [exact Hm|]); (split; [exact Hnd|]); (split; [exact Hall'|]);
        (split; [exact Hcalls|]); (split; [intros idx; apply retry_sent|]);
        (split; [exact Hlen|]); (split; [now rewrite Ef|]); (split; [reflexivity|]);
        (split; [discriminate|]); exact Hrep.
Qed.

(** C3: after the full pass of the update batch, the retry takes exactly the
    errors whose message, put in lower case, contains [truncated]; every
    target is a distinct row of the file, so no row is retried twice, and the
    retry makes exactly one single-row call per target, in order; each call
    sends the envelope of the row mapped again from the file and patched so
    that every field of the retry table is within the maximum of that table,
    with the Download flag of the mapping; a target whose resubmission fails
    is reported with the message of that resubmission (the vendor message of
    its reply, or the message of the exception), and no report bears the index
    of a target whose resubmission succeeds. *)
Theorem C3_truncation_retry (rows : list (gmap string jsval)) (endpoint : string)
    (st : state) :
  (let first := updateCsvPathToVault' rows endpoint [] st in
  let final := main' rows endpoint st in
  let out := fst final in
  let targets := retryTargets out in
  firstPass out = fst first
  /\ targets = List.filter (fun e => isTruncated (message e)) (errors (fst first))
  /\ (forall msg, isTruncated msg = true
                  <-> exists a b, toLowerCase msg = a +:+ "truncated" +:+ b)
  /\ exists idxs : list nat,
       map e_index targets = map Some idxs
       /\ NoDup idxs
       /\ Forall (fun idx => (idx < length rows)%nat) idxs
       /\ calls (snd final) = calls (snd first) ++ map (retryCall' rows endpoint) idxs
       /\ (forall idx,
             let sent := fst (tryAttachPhoto dir (retryProfile (nth idx rows ∅))) in
             c_envelope (retryCall' rows endpoint idx)
               = buildUpdateCardEnvelope sent SOAP_NAMESPACE SOAP_VERSION
             /\ (forall k m, In (k, m) RETRY_MAX -> (renderedLength (get sent k) <= m)%nat)
             /\ get sent "Download" = get (mapRowToUpdateProfile (nth idx rows ∅)) "Download")
       /\ let singles := fst (retryAll' rows endpoint idxs (snd first)) in
          length singles = length idxs
          /\ retryErrors out = retryFailures targets idxs singles
          /\ retryUpdated out = length (List.filter retryOk singles)
          /\ ending_ out <> Exit 1
          /\ forall j e idx single,
               targets !! j = Some e -> idxs !! j = Some idx -> singles !! j = Some single ->
               if retryOk single
               then forall r, In r (retryErrors out) -> r_index r <> idx
               else In {| r_index := idx; r_cardNo := e_cardNo e;
                          r_message := retryMessage single |} (retryErrors out))
  /\ (forall (idx : nat) (st0 : state),
        (idx < length rows)%nat ->
        let reply := fetch (world st0)
                       (updateRequest' endpoint (retryProfile (nth idx rows ∅))) in
        let single := fst (retryOne' rows endpoint idx st0) in
        match snd reply with
        | FetchThrows msg =>
            retryOk single = false
            /\ retryMessage single = (if nonempty msg then msg else "Unknown error")
        | FetchResponse http text =>
            retryOk single = updateOk (parseUpdateCardResponse http text)
            /\ retryMessage single
               = messageOr (errMessage (parseUpdateCardResponse http text))
        end).
Proof.
  split; [apply main_spec|].
  intros idx st0 Hlt. cbv zeta.
  pose proof (retryOne_spec rows endpoint idx st0 Hlt) as H. cbv zeta in H.
  destruct (retryOne' rows endpoint idx st0) as [single st']. cbn [fst].
  now destruct H as (_ & _ & H).
Qed.

End OrchestratorFacts.

(* ===================================================================== *)
(** * Worked examples                                                     *)
(* ===================================================================== *)

Import Scenario.

(** C2 in the create batch, at a reply with status 500. *)
Lemma C2_witness :
  exists e,
    errors (fst (registerRow (always unavailable) "" namespace "1.1" ∅ endpoint
                   (overrideMapOf [] ∅) 0 rowWithCard emptyResult (start tt)))
      = errors emptyResult ++ [e]
    /\ code e = "HTTP_ERROR"
    /\ message e = "HTTP " +:+ string_of_Z 500.
Proof.
  pose proof (C2_error_codes_amended (always unavailable) "" namespace "1.1"
                "WebAPI/UpdateCard" ∅ endpoint [] 0 rowWithCard emptyResult (start tt)
                500 "<ErrCode>0</ErrCode>") as [Hcreate _].
  assert (Hcard : truthy (get (createProfile [] 0 rowWithCard) "CardNo") = true)
    by (vm_compute; reflexivity).
  specialize (Hcreate Hcard eq_refl). cbv zeta in Hcreate.
  destruct Hcreate as [Hhttp _]. exact (Hhttp eq_refl).
Defined.

(** C2 as stated fails in the update batch: a reply with status 500 is
    recorded under VAULT_ERROR, not HTTP_ERROR. *)
Lemma C2_counterexample :
  in2xx 500 = false
  /\ map code (errors (fst (updateCsvPathToVault (always unavailable) namespace "1.1"
                              "WebAPI/UpdateCard" ∅ [rowWithCard] endpoint [] (start tt))))
     = ["VAULT_ERROR"]
  /\ "VAULT_ERROR" <> "HTTP_ERROR".
Proof. split; [reflexivity|]. split; [vm_compute; reflexivity | discriminate]. Qed.

(** C5 in a create batch whose first row has a blank CardNo. *)
Lemma C5_witness :
  In (cardNoMissing 0 (createProfile [] 0 rowWithoutCard))
     (errors (fst (registerJobToVault (always accepted) "" namespace "1.1" ∅ "out" true
                     [rowWithoutCard; rowWithCard] endpoint [] (start tt)))).
Proof.
  pose proof (C5_card_no_missing_amended (always accepted) "" namespace "1.1"
                "WebAPI/UpdateCard" ∅ "out" endpoint [rowWithoutCard; rowWithCard] []
                (start tt)) as [Hcreate _].
  assert (Hrows : [rowWithoutCard; rowWithCard] <> []) by discriminate.
  specialize (Hcreate Hrows).
  destruct (registerJobToVault (always accepted) "" namespace "1.1" ∅ "out" true
              [rowWithoutCard; rowWithCard] endpoint [] (start tt)) as [res st'].
  destruct Hcreate as (_ & newCalls & _ & Hall).
  specialize (Hall 0%nat rowWithoutCard eq_refl).
  replace (truthy (get (createProfile [] 0 rowWithoutCard) "CardNo")) with false in Hall
    by (vm_compute; reflexivity).
  exact (proj1 Hall).
Defined.

(** C5 as stated fails in the update batch: the row with a blank CardNo is
    sent to the endpoint, and no CARD_NO_MISSING is recorded for it. *)
Lemma C5_counterexample :
  truthy (get (updateProfile [] 0 rowWithoutCard) "CardNo") = false
  /\ map c_index (calls (snd (updateCsvPathToVault (always accepted) namespace "1.1"
                                 "WebAPI/UpdateCard" ∅ [rowWithoutCard] endpoint []
                                 (start tt)))) = [0%nat]
  /\ map code (errors (fst (updateCsvPathToVault (always accepted) namespace "1.1"
                              "WebAPI/UpdateCard" ∅ [rowWithoutCard] endpoint []
                              (start tt)))) = [].
Proof. repeat split; vm_compute; reflexivity. Qed.

(** C3 on the first row of a two-row file: the resubmission succeeds
    exactly when its reply is a business success. *)
Lemma C3_witness :
  retryOk (fst (retryOne scripted namespace "1.1" "WebAPI/UpdateCard" ∅
                  [rowWithCard; rowWithoutCard] endpoint 0 (start [accepted])))
  = updateOk (parseUpdateCardResponse 200 "<ErrCode>0</ErrCode><ErrMessage></ErrMessage>").
Proof.
  pose proof (C3_truncation_retry scripted namespace "1.1" "WebAPI/UpdateCard" ∅
                [rowWithCard; rowWithoutCard] endpoint (start [accepted])) as [_ Hretry].
  assert (Hlt : (0 < length [rowWithCard; rowWithoutCard])%nat) by (cbn; lia).
  specialize (Hretry 0%nat (start [accepted]) Hlt). cbv zeta in Hretry.
  exact (proj1 Hretry).
Defined.

(** C4 on a padded name clipped to 8 characters. *)
Lemma C4_witness : (String.length (clip (JStr "  Jonathan Livingston  ") 8) <= 8)%nat.
Proof.
  pose proof (C4_clipping_amended ∅) as (_ & _ & _ & Hclip & _).
  apply Hclip. lia.
Defined.

(** C7 on a date text padded with blanks. *)
Lemma C7_witness : normalizeExcelDate (JStr "  12 Jan 2020 ") = trim "  12 Jan 2020 ".
Proof.
  pose proof C7_normalizeExcelDate_amended as (_ & _ & _ & _ & _ & Htext & _).
  apply Htext. reflexivity.
Defined.

(** C10 on two profiles, one of them with markup in a name. *)
Lemma C10_witness :
  tagNames (scan false (buildAddCardEnvelope (mapRowToProfile rowWithCard) namespace "1.1"))
  = tagNames (scan false (buildAddCardEnvelope
                            (mapRowToProfile (obj [("Name", JStr "</Name><CardNo>1")]))
                            namespace "1.1")).
Proof.
  pose proof (C10_escapeXml JNull) as (_ & _ & _ & _ & _ & _ & _ & Htags).
  exact (proj1 (Htags (mapRowToProfile rowWithCard)
                  (mapRowToProfile (obj [("Name", JStr "</Name><CardNo>1")]))
                  namespace "1.1" eq_refl)).
Defined.

(** The batch mode of the script on two rows: the first row fails with a
    truncation message and succeeds when retried. *)
Example main_retry_succeeds :
  let final := main scripted namespace "1.1" "WebAPI/UpdateCard" ∅
                 [rowWithCard; rowWithoutCard] endpoint
                 (start [truncated; accepted; accepted]) in
  map c_index (calls (snd final)) = [0; 1; 0]%nat
  /\ retryUpdated (fst final) = 1%nat
  /\ retryErrors (fst final) = []
  /\ ending_ (fst final) = Exit 0.
Proof. vm_compute. repeat split; reflexivity. Qed.

(** The same rows when the retry fails again: the row stays reported, with
    the message of the retry. *)
Example main_retry_fails :
  let final := main scripted namespace "1.1" "WebAPI/UpdateCard" ∅
                 [rowWithCard; rowWithoutCard] endpoint
                 (start [truncated; accepted;
                         FetchResponse 200 "<ErrMessage>Data TRUNCATED again</ErrMessage><ErrCode>-1</ErrCode>"]) in
  map c_index (calls (snd final)) = [0; 1; 0]%nat
  /\ retryUpdated (fst final) = 0%nat
  /\ map r_message (retryErrors (fst final)) = ["Data TRUNCATED again"]
  /\ ending_ (fst final) = Exit 2.
Proof. vm_compute. repeat split; reflexivity. Qed.

(** Readings of [Number] and of the date functions used above. *)
Example number_readings :
  num_eq (StringToNumber "1") num_one = true
  /\ num_eq (StringToNumber "") num_zero = true
  /\ num_eq (StringToNumber " 0x1 ") num_one = true
  /\ num_eq (StringToNumber "1e0") num_one = true
  /\ num_eq (StringToNumber "-0") num_zero = true
  /\ num_eq (StringToNumber "2") num_one = false
  /\ StringToNumber "abc" = NaN
  /\ num_eq NaN NaN = false.
Proof. vm_compute. repeat split; reflexivity. Qed.

Example calendar_readings :
  civil_from_days 0 = (1970, 0, 1)
  /\ civil_from_days (-1) = (1969, 11, 31)
  /\ civil_from_days 11016 = (2000, 1, 29)
  /\ civil_from_days (25569 - 25569) = (1970, 0, 1)
  /\ normalizeExcelDate (JStr "25569") = "1 Jan 1970"
  /\ normalizeExcelDate (JStr "35537") = "17 Apr 1997"
  /\ normalizeExcelDate (JStr "35524.75") = "4 Apr 1997".
Proof. vm_compute. repeat split; reflexivity. Qed.

(* ===================================================================== *)
(** * Further properties: the mappers                                     *)
(* ===================================================================== *)

Lemma includes_inactive (x : string) :
  includes "inactive" x = true -> includes "active" x = true.
Proof.
  rewrite !includes_spec. intros (a & b & ->).
  exists (a +:+ "in"), b. rewrite !sapp_assoc. reflexivity.
Qed.

(** X1: the update mapper always gives ActiveStatus true.  A card status
    that contains [inactive] contains [active] too, and the test for [active]
    comes first, so the branch that gives false is never taken. *)
Theorem X1_activeStatus_always_true (row : gmap string jsval) :
  get (mapRowToUpdateProfile row) "ActiveStatus" = JStr "true".
Proof.
  unfold mapRowToUpdateProfile. cbv zeta.
  destruct (negb (nonempty _)); get_obj;
  (destruct (nonempty _); [|reflexivity]);
  (destruct (includes "active" _) eqn:Ha; [reflexivity|]);
  (destruct (includes "inactive" _) eqn:Hi; [|reflexivity]);
  apply includes_inactive in Hi; congruence.
Qed.

Lemma orDefault_nonempty (x d : string) : d <> "" -> orDefault x d <> "".
Proof.
  intros Hd. unfold orDefault. destruct (nonempty x) eqn:Hx; [|exact Hd].
  now apply nonempty_true.
Qed.

(** X2: both mappers give an access level, a face access level and a lift
    access level that are never empty. *)
Theorem X2_access_levels_never_blank (row : gmap string jsval) (k : string) :
  In k ["AccessLevel"; "FaceAccessLevel"; "LiftAccessLevel"] ->
  (exists x, get (mapRowToProfile row) k = JStr x /\ x <> "")
  /\ (exists x, get (mapRowToUpdateProfile row) k = JStr x /\ x <> "").
Proof.
  intros Hk. cbn [In] in Hk.
  split.
  - unfold mapRowToProfile. cbv zeta.
    destruct Hk as [<-|[<-|[<-|[]]]]; get_obj;
      (eexists; split; [reflexivity|]); apply orDefault_nonempty; discriminate.
  - unfold mapRowToUpdateProfile. cbv zeta.
    destruct (negb (nonempty _));
    destruct Hk as [<-|[<-|[<-|[]]]]; get_obj;
      (eexists; split; [reflexivity|]); apply orDefault_nonempty; discriminate.
Qed.

Lemma X2_witness :
  exists x, get (mapRowToUpdateProfile ∅) "AccessLevel" = JStr x /\ x <> "".
Proof.
  apply (X2_access_levels_never_blank ∅ "AccessLevel"). cbn. tauto.
Defined.

Lemma substring0_nonempty (n : nat) (x : string) :
  (0 < n)%nat -> x <> "" -> substring0 n x <> "".
Proof.
  intros Hn Hx. destruct x as [|c x]; [congruence|].
  destruct n as [|n]; [lia|]. unfold substring0. cbn. discriminate.
Qed.

Lemma clip_nonempty (x : string) (m : nat) :
  trim x <> "" -> clip (JStr x) m <> "".
Proof.
  intros Hx. unfold clip. cbn [ToString].
  destruct (negb (m =? 0)%nat && (m <? String.length (trim x))%nat) eqn:E; [|exact Hx].
  apply andb_prop in E as [E _]. apply negb_true_iff, Nat.eqb_neq in E.
  apply substring0_nonempty; [lia | exact Hx].
Qed.

(** X3: the vehicle number of the update mapper is never empty.  When the
    vehicle columns of the row are blank it is one of the three standard
    names, derived from the mess hall; a vehicle text that names Makarti,
    whatever its case, gives the standard name Makarti. *)
Theorem X3_update_vehicleNo (row : gmap string jsval) :
  let explicit := s (get row "VEHICLE NO" ||| get row "Vehicle No" ||| get row "VehicleNo") in
  exists v, get (mapRowToUpdateProfile row) "VehicleNo" = JStr v
    /\ v <> ""
    /\ (explicit = "" -> v = "Makarti" \/ v = "Labota" \/ v = "NoAccess")
    /\ (includes "makarti" (toLowerCase explicit) = true -> v = "Makarti").
Proof.
  cbv zeta. unfold mapRowToUpdateProfile. cbv zeta.
  set (explicit := s (get row "VEHICLE NO" ||| get row "Vehicle No" ||| get row "VehicleNo")).
  set (mess := toLowerCase (s _)).
  destruct (nonempty explicit) eqn:He; cbn [negb]; get_obj.
  - rewrite He. eexists. split; [reflexivity|].
    apply nonempty_true in He.
    split; [|split].
    + destruct (includes "makarti" _); [discriminate|].
      destruct (includes "labota" _); [discriminate|].
      destruct (_ || _); [discriminate|].
      apply clip_nonempty. unfold explicit. rewrite s_trimmed. exact He.
    + intros H. congruence.
    + intros ->. reflexivity.
  - apply nonempty_false in He. rewrite He.
    destruct (includes "makarti" mess), (includes "labota" mess);
      get_obj; (eexists; split; [reflexivity|]);
      (split; [discriminate|]); split; try tauto;
      intros H; vm_compute in H; discriminate H.
Qed.

Lemma orDefault_eq (x d y : string) :
  orDefault x d = y -> d <> y -> x = y.
Proof.
  unfold orDefault. destruct (nonempty x); congruence.
Qed.

(** X4: the update mapper gives the access level 11 only when the digits 0
    and 1 of the mess-hall cell read 11, or when the access-level column says
    so.  Naming both mess halls never gives it: the test for Labota alone comes
    first and gives 01. *)
Theorem X4_accessLevel_11 (row : gmap string jsval) :
  get (mapRowToUpdateProfile row) "AccessLevel" = JStr "11" ->
  keep01 (s (get row "MESSHALL" ||| get row "MessHall" ||| get row "Mess Hall")) = "11"
  \/ s (get row "ACCESS LEVEL" ||| get row "Access Level" ||| get row "AccessLevel") = "11".
Proof.
  unfold mapRowToUpdateProfile. cbv zeta.
  set (messRaw := s (get row "MESSHALL" ||| get row "MessHall" ||| get row "Mess Hall")).
  set (explicit := s (get row "ACCESS LEVEL" ||| get row "Access Level" ||| get row "AccessLevel")).
  destruct (negb (nonempty _)); get_obj; intros [= H];
    apply orDefault_eq in H; try discriminate.
  - destruct (String.eqb (keep01 messRaw) "00" || _ || _); [discriminate H|].
    destruct (String.eqb (keep01 messRaw) "01" || includes "labota" _) eqn:E1; [discriminate H|].
    destruct (String.eqb (keep01 messRaw) "10" || includes "makarti" _) eqn:E2; [discriminate H|].
    apply orb_false_elim in E1 as [_ E1]. rewrite E1, andb_false_r, orb_false_r in H.
    destruct (String.eqb (keep01 messRaw) "11") eqn:E3.
    + left. now apply String.eqb_eq.
    + cbn in H. destruct (nonempty explicit); [right; exact H | discriminate H].
  - destruct (String.eqb (keep01 messRaw) "00"); [discriminate H|].
    destruct (String.eqb (keep01 messRaw) "01"); [discriminate H|].
    destruct (String.eqb (keep01 messRaw) "10"); [discriminate H|].
    destruct (String.eqb (keep01 messRaw) "11") eqn:E3.
    + left. now apply String.eqb_eq.
    + cbn in H. destruct (nonempty explicit); [right; exact H | discriminate H].
Qed.

Lemma X4_witness :
  keep01 (s (get (obj [("MESSHALL", JStr "1-1")]) "MESSHALL"
             ||| get (obj [("MESSHALL", JStr "1-1")]) "MessHall"
             ||| get (obj [("MESSHALL", JStr "1-1")]) "Mess Hall")) = "11"
  \/ s (get (obj [("MESSHALL", JStr "1-1")]) "ACCESS LEVEL"
        ||| get (obj [("MESSHALL", JStr "1-1")]) "Access Level"
        ||| get (obj [("MESSHALL", JStr "1-1")]) "AccessLevel") = "11".
Proof.
  apply (X4_accessLevel_11 (obj [("MESSHALL", JStr "1-1")])). vm_compute. reflexivity.
Defined.

(* ===================================================================== *)
(** * Further properties: the create paths                                *)
(* ===================================================================== *)

Section CreateFacts.

Context {W : Type}.
Variable fetch : W -> request -> W * fetchResult.
Variables SOAP_ACTION SOAP_NAMESPACE SOAP_VERSION UPDATE_SOAP_ACTION : string.
Variable dir : gmap string string.

Local Abbreviation registerRow' :=
  (registerRow fetch SOAP_ACTION SOAP_NAMESPACE SOAP_VERSION dir).
Local Abbreviation registerLoop' :=
  (registerLoop fetch SOAP_ACTION SOAP_NAMESPACE SOAP_VERSION dir).
Local Abbreviation registerJobToVault' :=
  (registerJobToVault fetch SOAP_ACTION SOAP_NAMESPACE SOAP_VERSION dir).
Local Abbreviation registerCsvPathToVault' :=
  (registerCsvPathToVault fetch SOAP_ACTION SOAP_NAMESPACE SOAP_VERSION dir).
Local Abbreviation createCalls' :=
  (createCalls SOAP_ACTION SOAP_NAMESPACE SOAP_VERSION dir).
Local Abbreviation addRequest' :=
  (addRequest SOAP_ACTION SOAP_NAMESPACE SOAP_VERSION dir).

Lemma countCode_app (c : string) (a b : list errorRecord) :
  countCode c (a ++ b) = (countCode c a + countCode c b)%nat.
Proof. unfold countCode. now rewrite List.filter_app, List.length_app. Qed.

(** What one turn of the create loop does to the summary and to the calls. *)
Lemma registerRow_counts (endpointBaseUrl : string)
    (overrideMap : gmap Z (option string * option bool))
    (i : nat) (row : gmap string jsval) (res : result) (st : state) :
  let '(res', st') := registerRow' endpointBaseUrl overrideMap i row res st in
  attempted res' = S (attempted res)
  /\ calls st' = calls st ++ createCalls' endpointBaseUrl overrideMap i [row]
  /\ exists errs dets,
       errors res' = errors res ++ errs
       /\ details res' = details res ++ dets
       /\ (registered res' + length errs = S (registered res))%nat
       /\ (withPhoto res' + withoutPhoto res' + countCode "CARD_NO_MISSING" errs
           = S (withPhoto res + withoutPhoto res))%nat
       /\ (length dets + countCode "REQUEST_FAILED" errs = 1)%nat
       /\ Forall (fun e => In (code e) rowCodes) errs.
Proof.
  unfold registerRow, postAddCard, bind, ret. cbv zeta.
  cbn [createCalls]. rewrite List.app_nil_r.
  destruct (truthy (get (applyCreateOverride _ _) "CardNo")) eqn:Hcard; cbn [negb].
  - unfold addRequest. cbn [body].
    destruct (tryAttachPhoto dir _) as [sent hasPhoto]. cbn [fst].
    destruct (fetch (world st) _) as [w' [msg|http text]].
    + cbn [attempted calls errors details registered withPhoto withoutPhoto].
      split; [reflexivity|]. split; [reflexivity|].
      eexists [_], []. rewrite List.app_nil_r.
      split; [reflexivity|]. split; [reflexivity|].
      split; [cbn; lia|]. split; [destruct hasPhoto; cbn; lia|].
      split; [reflexivity|]. constructor; [unfold rowCodes; cbn; tauto | constructor].
    + destruct (bizSuccess _); [|destruct (negb (in2xx _))];
        cbn [attempted calls errors details registered withPhoto withoutPhoto];
        (split; [reflexivity|]); (split; [reflexivity|]).
      * eexists [], [_]. rewrite List.app_nil_r.
        split; [reflexivity|]. split; [reflexivity|].
        split; [cbn; lia|]. split; [destruct hasPhoto; cbn; lia|].
        split; [reflexivity|]. constructor.
      * eexists [_], [_].
        split; [reflexivity|]. split; [reflexivity|].
        split; [cbn; lia|]. split; [destruct hasPhoto; cbn; lia|].
        split; [reflexivity|]. constructor; [unfold rowCodes; cbn; tauto | constructor].
      * eexists [_], [_].
        split; [reflexivity|]. split; [reflexivity|].
        split; [cbn; lia|]. split; [destruct hasPhoto; cbn; lia|].
        split; [reflexivity|]. constructor; [unfold rowCodes; cbn; tauto | constructor].
  - cbn [attempted calls errors details registered withPhoto withoutPhoto].
    split; [reflexivity|]. split; [now rewrite List.app_nil_r|].
    eexists [_], [_].
    split; [reflexivity|]. split; [reflexivity|].
    split; [cbn; lia|]. split; [cbn; lia|].
    split; [reflexivity|]. constructor; [unfold rowCodes; cbn; tauto | constructor].
Qed.

Lemma registerLoop_counts (endpointBaseUrl : string)
    (overrideMap : gmap Z (option string * option bool))
    (rows : list (gmap string jsval)) :
  forall (i : nat) (res : result) (st : state),
  let '(res', st') := registerLoop' endpointBaseUrl overrideMap i rows res st in
  attempted res' = (attempted res + length rows)%nat
  /\ calls st' = calls st ++ createCalls' endpointBaseUrl overrideMap i rows
  /\ exists errs dets,
       errors res' = errors res ++ errs
       /\ details res' = details res ++ dets
       /\ (registered res' + length errs = registered res + length rows)%nat
       /\ (withPhoto res' + withoutPhoto res' + countCode "CARD_NO_MISSING" errs
           = withPhoto res + withoutPhoto res + length rows)%nat
       /\ (length dets + countCode "REQUEST_FAILED" errs = length rows)%nat
       /\ Forall (fun e => In (code e) rowCodes) errs.
Proof.
  induction rows as [|row rows IH]; intros i res st.
  - cbn [registerLoop ret length createCalls]. rewrite !List.app_nil_r, !Nat.add_0_r.
    split; [reflexivity|]. split; [reflexivity|].
    exists [], []. rewrite !List.app_nil_r. cbn. repeat split; try lia. constructor.
  - cbn [registerLoop]. unfold bind.
    pose proof (registerRow_counts endpointBaseUrl overrideMap i row res st) as H1.
    destruct (registerRow' endpointBaseUrl overrideMap i row res st) as [res1 st1].
    specialize (IH (S i) res1 st1).
    destruct (registerLoop' endpointBaseUrl overrideMap (S i) rows res1 st1) as [res' st'].
    destruct H1 as (Ha1 & Hc1 & errs1 & dets1 & He1 & Hd1 & Hr1 & Hp1 & Hf1 & Hk1).
    destruct IH as (Ha & Hc & errs & dets & He & Hd & Hr & Hp & Hf & Hk).
    cbn [length].
    split; [lia|].
    split.
    { rewrite Hc, Hc1, <- List.app_assoc. f_equal.
      cbn [createCalls]. now rewrite List.app_nil_r. }
    exists (errs1 ++ errs), (dets1 ++ dets).
    split; [now rewrite He, He1, List.app_assoc|].
    split; [now rewrite Hd, Hd1, List.app_assoc|].
    rewrite !countCode_app, !List.length_app.
    split; [lia|]. split; [lia|]. split; [lia|].
    apply Forall_app. split; assumption.
Qed.

(** X6: the summary of a create run over a file that has rows.  Every row
    is counted once as registered or as an error; the rows without a card
    number are the only ones left out of the photo counters; a row has a
    detail unless its request failed; and the registration by file path gives
    the summary and the calls of the registration by job. *)
Theorem X6_create_summary (outputDir csvPath endpointBaseUrl : string)
    (rows overrides : list (gmap string jsval)) (st : state) :
  rows <> [] ->
  let job := registerJobToVault' outputDir true rows endpointBaseUrl overrides st in
  let res := fst job in
  registerCsvPathToVault' outputDir csvPath true true rows endpointBaseUrl overrides st = job
  /\ calls (snd job)
     = calls st ++ createCalls' endpointBaseUrl (overrideMapOf overrides ∅) 0 rows
  /\ attempted res = length rows
  /\ attempted res = (registered res + length (errors res))%nat
  /\ (withPhoto res + withoutPhoto res + countCode "CARD_NO_MISSING" (errors res))%nat
     = attempted res
  /\ (length (details res) + countCode "REQUEST_FAILED" (errors res))%nat = attempted res
  /\ Forall (fun e => In (code e) ["CARD_NO_MISSING"; "HTTP_ERROR"; "VAULT_ERROR";
                                   "REQUEST_FAILED"]) (errors res).
Proof.
  intros Hrows. cbv zeta.
  unfold registerCsvPathToVault, registerJobToVault. cbn [negb].
  destruct rows as [|row0 rows0] eqn:Erows; [congruence|]. rewrite <- Erows. clear Hrows.
  split; [reflexivity|].
  pose proof (registerLoop_counts endpointBaseUrl (overrideMapOf overrides ∅) rows 0
                emptyResult st) as H.
  destruct (registerLoop' endpointBaseUrl (overrideMapOf overrides ∅) 0 rows emptyResult st)
    as [res st'].
  destruct H as (Ha & Hc & errs & dets & He & Hd & Hr & Hp & Hf & Hk).
  cbn [fst snd emptyResult attempted registered withPhoto withoutPhoto errors details
       app Nat.add] in *.
  subst errs dets.
  split; [exact Hc|]. split; [exact Ha|]. split; [lia|]. split; [lia|]. split; [lia|].
  exact Hk.
Qed.

End CreateFacts.

(** X6 on a file of two rows, the first of them without a card number. *)
Lemma X6_witness :
  let res := fst (registerJobToVault (always accepted) "" namespace "1.1" ∅ "out" true
                    [rowWithoutCard; rowWithCard] endpoint [] (start tt)) in
  attempted res = 2%nat /\ attempted res = (registered res + length (errors res))%nat.
Proof.
  pose proof (X6_create_summary (always accepted) "" namespace "1.1" ∅ "out" "out/cards.csv"
                endpoint [rowWithoutCard; rowWithCard] [] (start tt)) as H.
  assert (Hrows : [rowWithoutCard; rowWithCard] <> []) by discriminate.
  specialize (H Hrows). cbv zeta in H |- *.
  destruct H as (_ & _ & Ha & Hr & _). split; [exact Ha | exact Hr].
Defined.

(* ===================================================================== *)
(** * Further properties: overrides                                       *)
(* ===================================================================== *)

Lemma find_app {A : Type} (f : A -> bool) (a b : list A) :
  List.find f (a ++ b) = match List.find f a with
                         | Some x => Some x
                         | None => List.find f b
                         end.
Proof.
  induction a as [|x a IH]; [reflexivity|]. cbn. destruct (f x); [reflexivity | exact IH].
Qed.

(** The override map of the create batch keeps, for each index, the entry of
    the last override of the list that bears it. *)
Lemma overrideMapOf_lookup (overrides : list (gmap string jsval)) :
  forall (m : gmap Z (option string * option bool)) (ix : Z),
  overrideMapOf overrides m !! ix
  = match List.find (hasIndex ix) (rev overrides) with
    | Some o => Some (createEntry o)
    | None => m !! ix
    end.
Proof.
  induction overrides as [|o rest IH]; intros m ix; [reflexivity|].
  cbn [overrideMapOf rev]. rewrite find_app. cbn [List.find]. unfold hasIndex at 2.
  destruct (get o "index") as [| | |z|] eqn:Hix; rewrite IH;
    destruct (List.find (hasIndex ix) (rev rest)); try reflexivity.
  destruct (Z.eqb_spec z ix) as [->|Hne].
  - now rewrite lookup_insert_eq.
  - now rewrite lookup_insert_ne.
Qed.

Lemma findOverride_find (overrides : list (gmap string jsval)) (i : nat) :
  findOverride overrides i = List.find (hasIndex (Z.of_nat i)) overrides.
Proof. reflexivity. Qed.

Lemma createProfile_find (overrides : list (gmap string jsval)) (i : nat)
    (row : gmap string jsval) :
  createProfile overrides i row
  = match List.find (hasIndex (Z.of_nat i)) (rev overrides) with
    | Some o => applyCreateOverride (Some (createEntry o)) (mapRowToProfile row)
    | None => mapRowToProfile row
    end.
Proof.
  unfold createProfile. rewrite overrideMapOf_lookup.
  destruct (List.find _ _); [reflexivity|]. now rewrite lookup_empty.
Qed.

Lemma updateProfile_find (overrides : list (gmap string jsval)) (i : nat)
    (row : gmap string jsval) :
  updateProfile overrides i row
  = match List.find (hasIndex (Z.of_nat i)) overrides with
    | Some o => applyUpdateOverride o (mapRowToUpdateProfile row)
    | None => mapRowToUpdateProfile row
    end.
Proof. unfold updateProfile. now rewrite findOverride_find. Qed.

(** X9: when several overrides bear the index of a row, the create batch
    applies the last of them and the update batch the first. *)
Theorem X9_override_precedence (overrides : list (gmap string jsval)) (i : nat)
    (row : gmap string jsval) :
  createProfile overrides i row
  = match List.find (hasIndex (Z.of_nat i)) (rev overrides) with
    | Some o => applyCreateOverride (Some (createEntry o)) (mapRowToProfile row)
    | None => mapRowToProfile row
    end
  /\ updateProfile overrides i row
     = match List.find (hasIndex (Z.of_nat i)) overrides with
       | Some o => applyUpdateOverride o (mapRowToUpdateProfile row)
       | None => mapRowToUpdateProfile row
       end.
Proof. split; [apply createProfile_find | apply updateProfile_find]. Qed.

Lemma get_insert_eq (p : gmap string jsval) (k : string) (v : jsval) :
  get (<[k := v]> p) k = v.
Proof. unfold get. now rewrite lookup_insert_eq. Qed.

Lemma get_insert_ne (p : gmap string jsval) (k k' : string) (v : jsval) :
  k <> k' -> get (<[k := v]> p) k' = get p k'.
Proof. intros H. unfold get. now rewrite lookup_insert_ne. Qed.

Lemma applyCreateOverride_get (item : option (option string * option bool))
    (profile : gmap string jsval) (k : string) :
  k <> "CardNo" -> k <> "DownloadCard" ->
  get (applyCreateOverride item profile) k = get profile k.
Proof.
  intros H1 H2. unfold applyCreateOverride.
  destruct item as [[[c|] [b|]]|]; rewrite ?get_insert_ne by congruence; reflexivity.
Qed.

Lemma applyCreateOverride_CardNo (c : option string) (d : option bool)
    (profile : gmap string jsval) :
  get (applyCreateOverride (Some (c, d)) profile) "CardNo"
  = match c with
    | Some x => JStr x
    | None => get profile "CardNo"
    end.
Proof.
  unfold applyCreateOverride.
  destruct c as [x|], d as [b|]; rewrite ?get_insert_ne by discriminate;
    rewrite ?get_insert_eq; try reflexivity;
    unfold orDefault; destruct (nonempty x) eqn:E; try reflexivity;
    apply nonempty_false in E; now subst.
Qed.

Lemma mapRowToProfile_Download (row : gmap string jsval) :
  get (mapRowToProfile row) "Download" = JStr "true".
Proof. unfold mapRowToProfile. cbv zeta. get_obj. reflexivity. Qed.

Lemma mapRowToUpdateProfile_get_Download (row : gmap string jsval) :
  get (mapRowToUpdateProfile row) "Download" = JStr "true".
Proof. apply get_lookup, mapRowToUpdateProfile_Download. Qed.

Lemma applyUpdateOverride_Download (o profile : gmap string jsval) :
  get (applyUpdateOverride o profile) "Download"
  = match get o "downloadCard" with
    | JBool b => JStr (if b then "true" else "false")
    | _ => get profile "Download"
    end.
Proof.
  unfold applyUpdateOverride.
  destruct (get o "downloadCard") as [| |[]| |];
    rewrite ?get_insert_eq; try reflexivity;
    destruct (truthy (get o "cardNo")); rewrite ?get_insert_ne by discriminate; reflexivity.
Qed.

Lemma applyUpdateOverride_CardNo (o profile : gmap string jsval) :
  get (applyUpdateOverride o profile) "CardNo"
  = if truthy (get o "cardNo") then JStr (substring0 10 (s (get o "cardNo")))
    else get profile "CardNo".
Proof.
  unfold applyUpdateOverride.
  destruct (get o "downloadCard") as [| |b| |];
    rewrite ?get_insert_ne by discriminate;
    destruct (truthy (get o "cardNo")); rewrite ?get_insert_eq; reflexivity.
Qed.

(** The elements read back from a built envelope. *)
Lemma addCard_element (profile : gmap string jsval) (namespace soapVersion tag : string) :
  lacks ">" namespace = true -> In tag tagOrder ->
  In (tag, escapeXml (addValue profile tag))
     (elements (scan false (buildAddCardEnvelope profile namespace soapVersion))).
Proof.
  intros Hns Htag. rewrite scan_addCard by exact Hns. rewrite elements_addCardTokens.
  apply (in_map (fun tag => (tag, escapeXml (addValue profile tag)))). exact Htag.
Qed.

Lemma updateCard_element (profile : gmap string jsval) (namespace soapVersion tag : string) :
  lacks ">" namespace = true -> In tag tagOrder ->
  In (tag, escapeXml (updateValue profile tag))
     (elements (scan false (buildUpdateCardEnvelope profile namespace soapVersion))).
Proof.
  intros Hns Htag. rewrite scan_updateCard by exact Hns. rewrite elements_updateCardTokens.
  right. apply (in_map (fun tag => (tag, escapeXml (updateValue profile tag)))). exact Htag.
Qed.

Section OverrideFacts.

Variables SOAP_ACTION SOAP_NAMESPACE SOAP_VERSION UPDATE_SOAP_ACTION : string.
Variable dir : gmap string string.

Local Abbreviation addRequest' :=
  (addRequest SOAP_ACTION SOAP_NAMESPACE SOAP_VERSION dir).
Local Abbreviation updateRequest' :=
  (updateRequest SOAP_NAMESPACE SOAP_VERSION UPDATE_SOAP_ACTION dir).

(** X10: the [downloadCard] flag of an override.  The create batch stores it
    under a key that the envelope never reads, so every create envelope says
    Download true; the update batch writes it to the Download element. *)
Theorem X10_downloadCard_override (endpointBaseUrl : string)
    (overrides : list (gmap string jsval)) (i : nat) (row : gmap string jsval)
    (Hns : lacks ">" SOAP_NAMESPACE = true) :
  In ("Download", "true")
     (elements (scan false (body (addRequest' endpointBaseUrl
                                    (createProfile overrides i row)))))
  /\ forall (o : gmap string jsval) (b : bool),
       List.find (hasIndex (Z.of_nat i)) overrides = Some o ->
       get o "downloadCard" = JBool b ->
       In ("Download", if b then "true" else "false")
          (elements (scan false (body (updateRequest' endpointBaseUrl
                                         (updateProfile overrides i row))))).
Proof.
  split.
  - unfold addRequest. cbn [body].
    pose proof (addCard_element (fst (tryAttachPhoto dir (createProfile overrides i row)))
                  SOAP_NAMESPACE SOAP_VERSION "Download" Hns) as H.
    replace (escapeXml (addValue _ "Download")) with "true" in H; [apply H; cbn; tauto|].
    change (addValue ?p "Download") with (get p "Download").
    rewrite tryAttachPhoto_get by discriminate.
    unfold createProfile. rewrite applyCreateOverride_get by discriminate.
    now rewrite mapRowToProfile_Download.
  - intros o b Ho Hb. unfold updateRequest. cbn [body].
    pose proof (updateCard_element (fst (tryAttachPhoto dir (updateProfile overrides i row)))
                  SOAP_NAMESPACE SOAP_VERSION "Download" Hns) as H.
    replace (escapeXml (updateValue _ "Download")) with (if b then "true" else "false") in H;
      [apply H; cbn; tauto|].
    change (updateValue ?p "Download") with (get p "Download" ||| JStr "true").
    rewrite tryAttachPhoto_get by discriminate.
    unfold updateProfile. rewrite findOverride_find, Ho, applyUpdateOverride_Download, Hb.
    now destruct b.
Qed.

End OverrideFacts.


(** X10 on a create override that asks for no download. *)
Lemma X10_witness :
  In ("Download", "true")
     (elements (scan false (body (addRequest "" namespace "1.1" ∅ endpoint
                                    (createProfile
                                       [obj [("index", JNum 0); ("downloadCard", JBool false)]]
                                       0 rowWithCard))))).
Proof.
  exact (proj1 (X10_downloadCard_override "" namespace "1.1" "WebAPI/UpdateCard" ∅ endpoint
                  [obj [("index", JNum 0); ("downloadCard", JBool false)]] 0 rowWithCard
                  eq_refl)).
Defined.

(** X11: the [cardNo] of an override.  In the create batch a text, even a
    blank one, replaces the card number of the row (trimmed and cut at ten
    characters), and a blank one makes the row fail the card-number check.
    In the update batch only a truthy value replaces it, and a text of white
    space replaces it by the empty text. *)
Theorem X11_cardNo_override (overrides : list (gmap string jsval)) (i : nat)
    (row o : gmap string jsval) :
  (List.find (hasIndex (Z.of_nat i)) (rev overrides) = Some o ->
   forall c, get o "cardNo" = JStr c ->
   get (createProfile overrides i row) "CardNo" = JStr (substring0 10 (trim c))
   /\ (trim c = "" -> truthy (get (createProfile overrides i row) "CardNo") = false))
  /\ (List.find (hasIndex (Z.of_nat i)) overrides = Some o ->
      get (updateProfile overrides i row) "CardNo"
      = if truthy (get o "cardNo") then JStr (substring0 10 (s (get o "cardNo")))
        else get (mapRowToUpdateProfile row) "CardNo").
Proof.
  split.
  - intros Ho c Hc.
    rewrite createProfile_find, Ho.
    unfold createEntry. rewrite Hc, applyCreateOverride_CardNo.
    split; [reflexivity|]. intros ->. reflexivity.
  - intros Ho. rewrite updateProfile_find, Ho.
    apply applyUpdateOverride_CardNo.
Qed.

(* ===================================================================== *)
(** * Further properties: photos, refusals, previews, single-row update   *)
(* ===================================================================== *)

Lemma firstExisting_Some (dir : gmap string string) (candidates : list string) :
  is_Some (firstExisting dir candidates)
  <-> exists fname, In fname candidates /\ is_Some (dir !! fname).
Proof.
  induction candidates as [|fname rest IH]; cbn [firstExisting In].
  - split; [intros [x Hx]; discriminate | intros (f & [] & _)].
  - destruct (dir !! fname) as [content|] eqn:E.
    + split; [|eauto]. intros _. exists fname. rewrite E. eauto.
    + rewrite IH. split.
      * intros (f & Hf & Hs). eauto.
      * intros (f & [<-|Hf] & Hs); [rewrite E in Hs; destruct Hs; discriminate | eauto].
Qed.

(** X5: the photo of a profile.  The check without loading and the
    attachment agree; a photo is found exactly when one of the candidate
    files exists; the file named after the card number with extension jpg
    wins over every other; nothing but the Photo field is touched, and the
    profile is left as it is when no file is found. *)
Theorem X5_photo_lookup (dir : gmap string string) (profile : gmap string jsval) :
  let cardNo := get profile "CardNo" in
  let staffNo := get profile "StaffNo" in
  let '(sent, hasPhoto) := tryAttachPhoto dir profile in
  photoExists dir cardNo staffNo = hasPhoto
  /\ (hasPhoto = true
      <-> exists fname, In fname (photoCandidates cardNo staffNo) /\ is_Some (dir !! fname))
  /\ (forall content, truthy cardNo = true ->
        dir !! (ToString cardNo +:+ ".jpg") = Some content ->
        sent = <["Photo" := JStr content]> profile)
  /\ (forall k, k <> "Photo" -> get sent k = get profile k)
  /\ (hasPhoto = false -> sent = profile)
  /\ photoCandidates cardNo staffNo
     = (if truthy cardNo
        then [ToString cardNo +:+ ".jpg"; ToString cardNo +:+ ".jpeg"; ToString cardNo +:+ ".png"]
        else [])
       ++ (if truthy staffNo
           then [ToString staffNo +:+ ".jpg"; ToString staffNo +:+ ".jpeg";
                 ToString staffNo +:+ ".png"]
           else []).
Proof.
  cbv zeta. unfold tryAttachPhoto, photoExists.
  pose proof (firstExisting_Some dir
                (photoCandidates (get profile "CardNo") (get profile "StaffNo"))) as Hs.
  destruct (firstExisting dir _) as [content|] eqn:E.
  - split; [reflexivity|].
    split; [split; [intros _; apply Hs; eauto | reflexivity]|].
    split.
    { intros content' Hc Hd. unfold photoCandidates in E. rewrite Hc in E.
      cbn [app firstExisting] in E. rewrite Hd in E. congruence. }
    split; [intros k Hk; apply get_insert_ne; congruence|].
    split; [discriminate | reflexivity].
  - split; [reflexivity|].
    split.
    { split; [discriminate|]. intros H. apply Hs in H. destruct H; discriminate. }
    split.
    { intros content' Hc Hd. unfold photoCandidates in E. rewrite Hc in E.
      cbn [app firstExisting] in E. rewrite Hd in E. discriminate. }
    split; [reflexivity|]. split; reflexivity.
Qed.

Section PathFacts.

Context {W : Type}.
Variable fetch : W -> request -> W * fetchResult.
Variables SOAP_ACTION SOAP_NAMESPACE SOAP_VERSION UPDATE_SOAP_ACTION : string.
Variable dir : gmap string string.

Local Abbreviation registerJobToVault' :=
  (registerJobToVault fetch SOAP_ACTION SOAP_NAMESPACE SOAP_VERSION dir).
Local Abbreviation registerCsvPathToVault' :=
  (registerCsvPathToVault fetch SOAP_ACTION SOAP_NAMESPACE SOAP_VERSION dir).
Local Abbreviation createCalls' :=
  (createCalls SOAP_ACTION SOAP_NAMESPACE SOAP_VERSION dir).
Local Abbreviation updateCsvPathToVault' :=
  (updateCsvPathToVault fetch SOAP_NAMESPACE SOAP_VERSION UPDATE_SOAP_ACTION dir).
Local Abbreviation updateCsvRowToVault' :=
  (updateCsvRowToVault fetch SOAP_NAMESPACE SOAP_VERSION UPDATE_SOAP_ACTION dir).
Local Abbreviation updateLoop' :=
  (updateLoop fetch SOAP_NAMESPACE SOAP_VERSION UPDATE_SOAP_ACTION dir).
Local Abbreviation updateRow' :=
  (updateRow fetch SOAP_NAMESPACE SOAP_VERSION UPDATE_SOAP_ACTION dir).
Local Abbreviation submitUpdate' :=
  (submitUpdate fetch SOAP_NAMESPACE SOAP_VERSION UPDATE_SOAP_ACTION dir).
Local Abbreviation updateCalls' :=
  (updateCalls SOAP_NAMESPACE SOAP_VERSION UPDATE_SOAP_ACTION dir).
Local Abbreviation updateRequest' :=
  (updateRequest SOAP_NAMESPACE SOAP_VERSION UPDATE_SOAP_ACTION dir).
Local Abbreviation main' :=
  (main fetch SOAP_NAMESPACE SOAP_VERSION UPDATE_SOAP_ACTION dir).

(** X7: what the create paths refuse.  A missing directory, then a missing
    file, then a file without rows end the run with that one error, nothing
    attempted and no network call; the preview of the same input reports the
    same error.  When none of the three holds, no such error is recorded. *)
Theorem X7_create_refusals (outputDir csvPath endpointBaseUrl : string)
    (outputDirExists csvExists : bool)
    (rows overrides : list (gmap string jsval)) (st : state) :
  let refusal :=
    if negb outputDirExists then Some "OUTPUT_NOT_FOUND"
    else if negb csvExists then Some "CSV_NOT_FOUND"
    else match rows with [] => Some "NO_ROWS" | _ => None end in
  let '(res, st') :=
    registerCsvPathToVault' outputDir csvPath outputDirExists csvExists rows endpointBaseUrl
      overrides st in
  let pv := previewCsvPathToVault dir outputDir csvPath outputDirExists csvExists rows in
  match refusal with
  | Some c =>
      st' = st
      /\ map code (errors res) = [c]
      /\ attempted res = 0%nat /\ registered res = 0%nat /\ details res = []
      /\ p_errors pv = errors res
      /\ p_attempted pv = 0%nat /\ p_details pv = []
  | None =>
      forall e, In e (errors res) ->
        ~ In (code e) ["OUTPUT_NOT_FOUND"; "CSV_NOT_FOUND"; "NO_ROWS"]
  end.
Proof.
  cbv zeta. unfold registerCsvPathToVault, previewCsvPathToVault.
  destruct outputDirExists; cbn [negb]; [|repeat split; reflexivity].
  destruct csvExists; cbn [negb]; [|repeat split; reflexivity].
  destruct rows as [|row0 rows0] eqn:Erows; [repeat split; reflexivity|].
  rewrite <- Erows.
  pose proof (registerLoop_counts fetch SOAP_ACTION SOAP_NAMESPACE SOAP_VERSION dir
                endpointBaseUrl (overrideMapOf overrides ∅) rows 0 emptyResult st) as H.
  destruct (registerLoop _ _ _ _ _ _ _ _ _ _ _) as [res st'].
  destruct H as (_ & _ & errs & dets & He & _ & _ & _ & _ & Hk).
  cbn [emptyResult errors app] in He. subst errs.
  intros e He Hc. rewrite List.Forall_forall in Hk. specialize (Hk e He).
  unfold rowCodes in Hk. cbn [In] in Hk, Hc.
  destruct Hc as [Hc|[Hc|[Hc|[]]]]; rewrite <- Hc in Hk;
    repeat (destruct Hk as [Hk|Hk]; [discriminate Hk|]); exact Hk.
Qed.

(** X8: the update batch refuses nothing.  A file that cannot be read, or
    that has no rows, gives an empty summary without any error and without a
    network call, and the script then ends as after a full success. *)
Theorem X8_update_of_nothing (endpointBaseUrl : string)
    (overrides : list (gmap string jsval)) (st : state) :
  updateCsvPathToVault' [] endpointBaseUrl overrides st
  = ({| attempted := 0; registered := 0; withPhoto := 0; withoutPhoto := 0;
        errors := []; details := [] |}, st)
  /\ snd (main' [] endpointBaseUrl st) = st
  /\ ending_ (fst (main' [] endpointBaseUrl st)) = Returns
  /\ previewUpdateCounts dir [] = (0, 0, 0)%nat.
Proof. repeat split; reflexivity. Qed.

End PathFacts.

Section PreviewFacts.

Context {W : Type}.
Variable fetch : W -> request -> W * fetchResult.
Variables SOAP_ACTION SOAP_NAMESPACE SOAP_VERSION UPDATE_SOAP_ACTION : string.
Variable dir : gmap string string.

Local Abbreviation registerJobToVault' :=
  (registerJobToVault fetch SOAP_ACTION SOAP_NAMESPACE SOAP_VERSION dir).
Local Abbreviation createCalls' :=
  (createCalls SOAP_ACTION SOAP_NAMESPACE SOAP_VERSION dir).
Local Abbreviation updateCsvPathToVault' :=
  (updateCsvPathToVault fetch SOAP_NAMESPACE SOAP_VERSION UPDATE_SOAP_ACTION dir).
Local Abbreviation updateLoop' :=
  (updateLoop fetch SOAP_NAMESPACE SOAP_VERSION UPDATE_SOAP_ACTION dir).
Local Abbreviation updateRow' :=
  (updateRow fetch SOAP_NAMESPACE SOAP_VERSION UPDATE_SOAP_ACTION dir).
Local Abbreviation updateCalls' :=
  (updateCalls SOAP_NAMESPACE SOAP_VERSION UPDATE_SOAP_ACTION dir).

(** The preview loop, from any summary. *)
Lemma previewRows_spec (rows : list (gmap string jsval)) :
  forall res : previewResult,
  let res' := fold_left (previewRow dir) rows res in
  p_attempted res' = (p_attempted res + length rows)%nat
  /\ p_registered res' = p_registered res
  /\ (p_withPhoto res' + p_withoutPhoto res'
      = p_withPhoto res + p_withoutPhoto res + length rows)%nat
  /\ p_errors res' = p_errors res
  /\ exists dets,
       p_details res' = p_details res ++ dets
       /\ length dets = length rows
       /\ forall i row, rows !! i = Some row ->
            exists d, dets !! i = Some d
              /\ p_profile d = fst (tryAttachPhoto dir (mapRowToProfile row))
              /\ p_hasPhoto d = snd (tryAttachPhoto dir (mapRowToProfile row))
              /\ p_cardNo d = get (mapRowToProfile row) "CardNo".
Proof.
  induction rows as [|row rows IH]; intros res; cbv zeta.
  - cbn [fold_left length]. rewrite !Nat.add_0_r.
    repeat split. exists []. rewrite List.app_nil_r. repeat split.
    intros i row Hi. discriminate Hi.
  - cbn [fold_left length]. specialize (IH (previewRow dir res row)). cbv zeta in IH.
    destruct IH as (Ha & Hr & Hp & He & dets & Hd & Hl & Hall).
    rewrite Ha, Hr, Hp, He, Hd. unfold previewRow.
    destruct (tryAttachPhoto dir (mapRowToProfile row)) as [profile hasPhoto] eqn:Ephoto.
    cbn [p_attempted p_registered p_withPhoto p_withoutPhoto p_errors p_details].
    split; [lia|]. split; [reflexivity|].
    split; [destruct hasPhoto; lia|]. split; [reflexivity|].
    eexists (_ :: dets). rewrite <- List.app_assoc. split; [reflexivity|].
    split; [cbn [length]; lia|].
    intros [|i] r Hi.
    + injection Hi as <-. eexists. split; [reflexivity|].
      rewrite Ephoto. cbn [p_profile p_hasPhoto p_cardNo fst snd].
      split; [reflexivity|]. split; [reflexivity|].
      rewrite <- (tryAttachPhoto_get dir (mapRowToProfile row) "CardNo") by discriminate.
      rewrite Ephoto. reflexivity.
    + change (rows !! i = Some r) in Hi. apply (Hall i r Hi).
Qed.

Lemma createCalls_In (endpointBaseUrl : string)
    (overrideMap : gmap Z (option string * option bool))
    (rows : list (gmap string jsval)) :
  forall (i : nat) (c : call),
  In c (createCalls' endpointBaseUrl overrideMap i rows)
  <-> exists j row,
        rows !! j = Some row
        /\ truthy (get (applyCreateOverride (overrideMap !! Z.of_nat (i + j))
                          (mapRowToProfile row)) "CardNo") = true
        /\ c = {| c_index := i + j;
                  c_envelope :=
                    body (addRequest SOAP_ACTION SOAP_NAMESPACE SOAP_VERSION dir endpointBaseUrl
                            (applyCreateOverride (overrideMap !! Z.of_nat (i + j))
                               (mapRowToProfile row))) |}.
Proof.
  induction rows as [|row rows IH]; intros i c.
  - cbn. split; [tauto | intros (j & r & Hj & _); discriminate Hj].
  - cbn [createCalls]. rewrite in_app_iff, IH. split.
    + intros [H|(j & r & Hj & Ht & ->)].
      * destruct (truthy _) eqn:Ht; [|destruct H].
        destruct H as [<-|[]]. exists 0%nat, row. rewrite Nat.add_0_r.
        split; [reflexivity|]. split; [exact Ht | reflexivity].
      * exists (S j), r. replace (i + S j)%nat with (S i + j)%nat by lia.
        split; [exact Hj|]. split; [exact Ht | reflexivity].
    + intros ([|j] & r & Hj & Ht & ->).
      * injection Hj as <-. rewrite Nat.add_0_r in *. rewrite Ht. left. now left.
      * right. exists j, r. replace (i + S j)%nat with (S i + j)%nat in * by lia.
        split; [exact Hj|]. split; [exact Ht | reflexivity].
Qed.

(** X12: the preview of a registration shows what the registration sends.
    The preview counts every row once; for each row it shows the card number
    that the batch without overrides checks, and when that card number is not
    blank the envelope of the batch for the row is the envelope of the
    previewed profile, while a row with a blank card number gets no call. *)
Theorem X12_preview_shows_registration (outputDir endpointBaseUrl : string)
    (rows : list (gmap string jsval)) (st : state) :
  rows <> [] ->
  let pv := previewJobToVault dir outputDir true rows in
  let sent := calls (snd (registerJobToVault' outputDir true rows endpointBaseUrl [] st)) in
  p_attempted pv = length rows
  /\ (p_withPhoto pv + p_withoutPhoto pv)%nat = length rows
  /\ p_registered pv = 0%nat /\ p_errors pv = []
  /\ length (p_details pv) = length rows
  /\ exists newCalls, sent = calls st ++ newCalls
     /\ forall i row, rows !! i = Some row ->
          exists d, p_details pv !! i = Some d
            /\ p_cardNo d = get (mapRowToProfile row) "CardNo"
            /\ if truthy (p_cardNo d)
               then In {| c_index := i;
                          c_envelope := buildAddCardEnvelope (p_profile d)
                                          SOAP_NAMESPACE SOAP_VERSION |} newCalls
               else forall c, In c newCalls -> c_index c <> i.
Proof.
  intros Hrows. cbv zeta. unfold previewJobToVault, registerJobToVault. cbn [negb].
  destruct rows as [|row0 rows0] eqn:Erows; [congruence|]. rewrite <- Erows. clear Hrows.
  pose proof (previewRows_spec rows emptyPreview) as Hp. cbv zeta in Hp.
  destruct Hp as (Ha & Hr & Hp & He & dets & Hd & Hl & Hall).
  cbn [emptyPreview p_attempted p_registered p_withPhoto p_withoutPhoto p_errors p_details
       app Nat.add] in *.
  rewrite Ha, Hr, Hp, He, Hd.
  split; [reflexivity|]. split; [reflexivity|]. split; [reflexivity|]. split; [reflexivity|].
  split; [exact Hl|].
  pose proof (registerLoop_counts fetch SOAP_ACTION SOAP_NAMESPACE SOAP_VERSION dir
                endpointBaseUrl (overrideMapOf [] ∅) rows 0 emptyResult st) as H.
  destruct (registerLoop _ _ _ _ _ _ _ _ _ _ _) as [res st'].
  destruct H as (_ & Hc & _). cbn [snd].
  eexists. split; [exact Hc|].
  intros i row Hi. destruct (Hall i row Hi) as (d & Hdi & Hprof & Hphoto & Hcard).
  exists d. split; [exact Hdi|]. split; [exact Hcard|].
  rewrite Hcard. destruct (truthy (get (mapRowToProfile row) "CardNo")) eqn:Ht.
  - apply createCalls_In. exists i, row. cbn [Nat.add overrideMapOf].
    rewrite lookup_empty. cbn [applyCreateOverride]. split; [exact Hi|]. split; [exact Ht|].
    unfold addRequest. cbn [body]. now rewrite Hprof.
  - intros c Hin Hci. apply createCalls_In in Hin as (j & r & Hj & Htr & ->).
    cbn [c_index Nat.add] in Hci. subst j. rewrite Hi in Hj. injection Hj as <-.
    cbn [overrideMapOf] in Htr. rewrite lookup_empty in Htr. cbn [applyCreateOverride] in Htr.
    congruence.
Qed.

(** The photo counters of the update loop. *)
Lemma updateLoop_photos (endpointBaseUrl : string) (rows : list (gmap string jsval)) :
  forall (i : nat) (res : result) (st : state),
  let hasPhoto row := snd (tryAttachPhoto dir (mapRowToUpdateProfile row)) in
  let res' := fst (updateLoop' endpointBaseUrl [] i rows res st) in
  withPhoto res' = (withPhoto res + length (List.filter hasPhoto rows))%nat
  /\ withoutPhoto res'
     = (withoutPhoto res + length (List.filter (fun row => negb (hasPhoto row)) rows))%nat.
Proof.
  induction rows as [|row rows IH]; intros i res st; cbv zeta.
  - cbn. lia.
  - cbn [updateLoop]. unfold bind.
    destruct (updateRow' endpointBaseUrl [] i row res st) as [res1 st1] eqn:E1.
    specialize (IH (S i) res1 st1). cbv zeta in IH. destruct IH as [-> ->].
    cbn [List.filter].
    assert (withPhoto res1 = (withPhoto res
              + if snd (tryAttachPhoto dir (mapRowToUpdateProfile row)) then 1 else 0)%nat
            /\ withoutPhoto res1 = (withoutPhoto res
              + if snd (tryAttachPhoto dir (mapRowToUpdateProfile row)) then 0 else 1)%nat)
      as [-> ->].
    { unfold updateRow, submitUpdate, postUpdateCard, bind, ret in E1. cbn [findOverride List.find] in E1.
      destruct (tryAttachPhoto dir (mapRowToUpdateProfile row)) as [sent hasPhoto].
      cbn [snd].
      destruct (fetch (world st) _) as [w' [msg|http text]];
        [|destruct (updateOk _)]; injection E1 as <- _;
        cbn [withPhoto withoutPhoto]; destruct hasPhoto; lia. }
    destruct (snd (tryAttachPhoto dir (mapRowToUpdateProfile row))); cbn [negb length]; lia.
Qed.

Lemma photoExists_attach (profile : gmap string jsval) :
  photoExists dir (get profile "CardNo") (get profile "StaffNo")
  = snd (tryAttachPhoto dir profile).
Proof.
  unfold photoExists, tryAttachPhoto. now destruct (firstExisting dir _).
Qed.

Lemma filter_map_length {A B : Type} (f : A -> B) (p : B -> bool) (l : list A) :
  length (List.filter p (map f l)) = length (List.filter (fun a => p (f a)) l).
Proof.
  induction l as [|a l IH]; [reflexivity|]. cbn. destruct (p (f a)); cbn; now rewrite IH.
Qed.

Lemma updateCalls_lookup (endpointBaseUrl : string) (overrides : list (gmap string jsval))
    (rows : list (gmap string jsval)) :
  forall (i j : nat) (row : gmap string jsval),
  rows !! j = Some row ->
  updateCalls' endpointBaseUrl overrides i rows !! j
  = Some {| c_index := i + j;
            c_envelope := body (updateRequest SOAP_NAMESPACE SOAP_VERSION UPDATE_SOAP_ACTION dir
                                  endpointBaseUrl (updateProfile overrides (i + j) row)) |}.
Proof.
  induction rows as [|r rows IH]; intros i j row Hj; [discriminate Hj|].
  destruct j as [|j]; cbn [updateCalls].
  - injection Hj as <-. now rewrite Nat.add_0_r.
  - change (rows !! j = Some row) in Hj.
    replace (i + S j)%nat with (S i + j)%nat by lia.
    exact (IH (S i) j row Hj).
Qed.

(** X13: the preview of an update shows what the first pass of the update
    sends.  Row by row, the call of the batch without overrides carries the
    envelope of the previewed profile once its photo is attached, the photo
    flag of the preview is the flag the batch counts, and so both give the
    same counters. *)
Theorem X13_preview_shows_update (endpointBaseUrl : string)
    (rows : list (gmap string jsval)) (st : state) :
  let pv := previewUpdateCsvPathToVault dir rows in
  let '(res, st') := updateCsvPathToVault' rows endpointBaseUrl [] st in
  previewUpdateCounts dir rows = (attempted res, withPhoto res, withoutPhoto res)
  /\ length pv = length rows
  /\ exists newCalls, calls st' = calls st ++ newCalls
     /\ length newCalls = length rows
     /\ forall i row, rows !! i = Some row ->
          exists d, pv !! i = Some d
            /\ d_profile d = mapRowToUpdateProfile row
            /\ d_hasPhoto d = snd (tryAttachPhoto dir (d_profile d))
            /\ newCalls !! i
               = Some {| c_index := i;
                         c_envelope :=
                           buildUpdateCardEnvelope (fst (tryAttachPhoto dir (d_profile d)))
                             SOAP_NAMESPACE SOAP_VERSION |}.
Proof.
  cbv zeta. unfold updateCsvPathToVault.
  pose proof (updateLoop_spec fetch SOAP_NAMESPACE SOAP_VERSION UPDATE_SOAP_ACTION dir
                endpointBaseUrl [] rows 0
                {| attempted := length rows; registered := 0; withPhoto := 0;
                   withoutPhoto := 0; errors := []; details := [] |} st) as H.
  pose proof (updateLoop_photos endpointBaseUrl rows 0
                {| attempted := length rows; registered := 0; withPhoto := 0;
                   withoutPhoto := 0; errors := []; details := [] |} st) as Hp.
  cbv zeta in Hp.
  destruct (updateLoop' endpointBaseUrl [] 0 rows _ st) as [res st'].
  destruct H as (Hc & Ha & _). destruct Hp as [Hw Hwo].
  cbn [fst attempted withPhoto withoutPhoto Nat.add] in *.
  split.
  { unfold previewUpdateCounts, previewUpdateCsvPathToVault.
    rewrite !filter_map_length. cbn [d_hasPhoto]. rewrite Ha, Hw, Hwo.
    f_equal; [f_equal|]; f_equal; apply List.filter_ext; intros row;
      now rewrite photoExists_attach. }
  split; [unfold previewUpdateCsvPathToVault; now rewrite length_map|].
  eexists. split; [exact Hc|].
  split.
  { clear. generalize 0%nat. induction rows as [|r rows IH]; intros i; [reflexivity|].
    cbn. now rewrite IH. }
  intros i row Hi.
  eexists. split.
  { unfold previewUpdateCsvPathToVault. rewrite list_lookup_fmap, Hi. reflexivity. }
  cbn [d_profile d_hasPhoto].
  split; [reflexivity|]. split; [apply photoExists_attach|].
  rewrite (updateCalls_lookup endpointBaseUrl [] rows 0 i row Hi). reflexivity.
Qed.

End PreviewFacts.

(** X12 on a file of two rows. *)
Lemma X12_witness :
  p_attempted (previewJobToVault ∅ "out" true [rowWithoutCard; rowWithCard]) = 2%nat.
Proof.
  pose proof (X12_preview_shows_registration (always accepted) "" namespace "1.1" ∅ "out"
                endpoint [rowWithoutCard; rowWithCard] (start tt)) as H.
  assert (Hrows : [rowWithoutCard; rowWithCard] <> []) by discriminate.
  specialize (H Hrows). cbv zeta in H. exact (proj1 H).
Defined.

Lemma applyFieldOverrides_other (override profile : gmap string jsval) (k : string) :
  ~ In k overrideKeys -> get (applyFieldOverrides override profile) k = get profile k.
Proof.
  unfold applyFieldOverrides. generalize overrideKeys as keys. intros keys. revert profile.
  induction keys as [|key keys IH]; intros p Hk; [reflexivity|].
  cbn [fold_left In] in *. rewrite IH by tauto.
  destruct (override !! key); [|reflexivity].
  apply get_insert_ne. tauto.
Qed.

Section SingleRowFacts.

Context {W : Type}.
Variable fetch : W -> request -> W * fetchResult.
Variables SOAP_NAMESPACE SOAP_VERSION UPDATE_SOAP_ACTION : string.
Variable dir : gmap string string.

Local Abbreviation updateCsvRowToVault' :=
  (updateCsvRowToVault fetch SOAP_NAMESPACE SOAP_VERSION UPDATE_SOAP_ACTION dir).
Local Abbreviation updateRequest' :=
  (updateRequest SOAP_NAMESPACE SOAP_VERSION UPDATE_SOAP_ACTION dir).

(** X14: the update of a single row.  An index below zero or past the last
    row is refused with INDEX_OUT_OF_RANGE: nothing is attempted, no call is
    made and there is no row status.  Any other index gives exactly one call,
    for that row, and a summary of one row attempted that is either updated
    or failed with one error; the row status says ok exactly in the first
    case. *)
Theorem X14_single_row_update (rows : list (gmap string jsval)) (index : Z)
    (endpointBaseUrl : string) (override : option (gmap string jsval)) (st : state) :
  let '(single, st') := updateCsvRowToVault' rows index endpointBaseUrl override st in
  let res := s_result single in
  if (index <? 0) || (Z.of_nat (length rows) <=? index) then
    st' = st
    /\ attempted res = 0%nat /\ registered res = 0%nat
    /\ (withPhoto res + withoutPhoto res = 0)%nat
    /\ (exists e, errors res = [e] /\ code e = "INDEX_OUT_OF_RANGE"
                  /\ message e = "Index out of range. index=" +:+ string_of_Z index
                                 +:+ ", rows=" +:+ string_of_Z (Z.of_nat (length rows)))
    /\ details res = []
    /\ s_rowStatus single = None
  else
    (exists envelope,
        calls st' = calls st ++ [{| c_index := Z.to_nat index; c_envelope := envelope |}])
    /\ attempted res = 1%nat
    /\ (registered res + length (errors res) = 1)%nat
    /\ (withPhoto res + withoutPhoto res = 1)%nat
    /\ Forall (fun e => code e = "VAULT_ERROR" \/ code e = "REQUEST_FAILED") (errors res)
    /\ exists rs, s_rowStatus single = Some rs
                  /\ (rs_ok rs = true <-> registered res = 1%nat).
Proof.
  unfold updateCsvRowToVault.
  destruct ((index <? 0) || (Z.of_nat (length rows) <=? index)).
  - unfold ret. cbn [s_result s_rowStatus attempted registered withPhoto withoutPhoto
                      errors details].
    split; [reflexivity|]. split; [reflexivity|]. split; [reflexivity|].
    split; [reflexivity|].
    split; [eexists; split; [reflexivity|]; split; reflexivity|].
    split; reflexivity.
  - unfold bind, ret.
    set (profile := match override with Some o => _ | None => _ end).
    pose proof (submitUpdate_spec fetch SOAP_NAMESPACE SOAP_VERSION UPDATE_SOAP_ACTION dir
                  endpointBaseUrl (Z.to_nat index) None profile
                  {| attempted := 1; registered := 0; withPhoto := 0; withoutPhoto := 0;
                     errors := []; details := [] |} st) as H.
    cbv zeta in H.
    destruct (submitUpdate _ _ _ _ _ _ _ _ _ _ _) as [res st'].
    destruct H as (_ & Hc & Ha & Hp & H).
    cbn [s_result s_rowStatus attempted registered withPhoto withoutPhoto errors details
         app Nat.add] in *.
    split; [eexists; exact Hc|]. split; [exact Ha|].
    destruct (snd (fetch (world st) _)) as [msg|http text].
    + destruct H as (Hr & He & Hd). rewrite Hr, He, Hd.
      split; [reflexivity|]. split; [lia|].
      split; [constructor; [right; reflexivity | constructor]|].
      eexists. split; [reflexivity|]. cbn [rs_ok]. split; [discriminate | discriminate].
    + destruct H as (d & Hd & _ & _ & _ & H).
      destruct (updateOk _); destruct H as [Hr He]; rewrite Hr, He.
      * split; [reflexivity|]. split; [lia|]. split; [constructor|].
        eexists. split; [reflexivity|]. cbn [rs_ok]. split; reflexivity.
      * split; [reflexivity|]. split; [lia|].
        split; [constructor; [left; reflexivity | constructor]|].
        eexists. split; [reflexivity|]. cbn [rs_ok]. split; discriminate.
Qed.

(** X15: what an override of the single-row update can change.  The profile
    that is sent is the mapped row with, for each of the keys the function
    lists, the value of the override turned into text when the override has
    that key; [CardNo] changes only through [cardNo]; no key of the override
    reaches any other field, so the photo, the card type and the PIN cannot
    be set this way. *)
Theorem X15_single_row_override (rows : list (gmap string jsval)) (index : nat)
    (endpointBaseUrl : string) (o : gmap string jsval) (st : state) :
  (index < length rows)%nat ->
  let mapped := mapRowToUpdateProfile (nth index rows ∅) in
  exists sent,
    calls (snd (updateCsvRowToVault' rows (Z.of_nat index) endpointBaseUrl (Some o) st))
    = calls st ++ [{| c_index := index;
                      c_envelope := buildUpdateCardEnvelope (fst (tryAttachPhoto dir sent))
                                      SOAP_NAMESPACE SOAP_VERSION |}]
    /\ (forall k v, In k overrideKeys -> o !! k = Some v -> get sent k = JStr (ToString v))
    /\ (forall k, In k overrideKeys -> o !! k = None -> k <> "Download" ->
          get sent k = get mapped k)
    /\ (o !! "Download" = None ->
          get sent "Download" = match get o "downloadCard" with
                                | JBool b => JStr (if b then "true" else "false")
                                | _ => get mapped "Download"
                                end)
    /\ get sent "CardNo" = (if truthy (get o "cardNo")
                            then JStr (substring0 10 (s (get o "cardNo")))
                            else get mapped "CardNo")
    /\ (forall k, ~ In k overrideKeys -> k <> "CardNo" -> get sent k = get mapped k).
Proof.
  intros Hlt. cbv zeta.
  exists (applyFieldOverrides o (applyUpdateOverride o (mapRowToUpdateProfile (nth index rows ∅)))).
  split.
  { unfold updateCsvRowToVault.
    replace ((Z.of_nat index <? 0) || (Z.of_nat (length rows) <=? Z.of_nat index)) with false
      by (symmetry; apply orb_false_intro; [apply Z.ltb_ge | apply Z.leb_gt]; lia).
    rewrite Nat2Z.id. unfold bind, ret.
    pose proof (submitUpdate_spec fetch SOAP_NAMESPACE SOAP_VERSION UPDATE_SOAP_ACTION dir
                  endpointBaseUrl index None
                  (applyFieldOverrides o (applyUpdateOverride o
                     (mapRowToUpdateProfile (nth index rows ∅))))
                  {| attempted := 1; registered := 0; withPhoto := 0; withoutPhoto := 0;
                     errors := []; details := [] |} st) as H.
    cbv zeta in H.
    destruct (submitUpdate _ _ _ _ _ _ _ _ _ _ _) as [res st'].
    destruct H as (_ & Hc & _). cbn [snd]. exact Hc. }
  assert (Hother : forall k, k <> "CardNo" -> k <> "Download" ->
            get (applyUpdateOverride o (mapRowToUpdateProfile (nth index rows ∅))) k
            = get (mapRowToUpdateProfile (nth index rows ∅)) k).
  { intros k H1 H2. unfold applyUpdateOverride.
    destruct (get o "downloadCard"); rewrite ?get_insert_ne by congruence;
      destruct (truthy (get o "cardNo")); rewrite ?get_insert_ne by congruence; reflexivity. }
  split; [intros k v Hk Hv; now rewrite applyFieldOverrides_get, Hv|].
  split.
  { intros k Hk Hv Hd. rewrite applyFieldOverrides_get, Hv by exact Hk.
    apply Hother; [|exact Hd]. intros ->. revert Hk. unfold overrideKeys. cbn [In].
    intuition discriminate. }
  split.
  { intros Hv. rewrite applyFieldOverrides_get, Hv by (unfold overrideKeys; cbn; tauto).
    apply applyUpdateOverride_Download. }
  split.
  { rewrite applyFieldOverrides_other by (unfold overrideKeys; cbn [In]; intuition discriminate).
    apply applyUpdateOverride_CardNo. }
  intros k Hk Hc. rewrite applyFieldOverrides_other by exact Hk.
  apply Hother; [exact Hc|]. intros ->. apply Hk. unfold overrideKeys. cbn. tauto.
Qed.

End SingleRowFacts.

(** X15 on an override that sets the title of the only row. *)
Lemma X15_witness :
  exists sent,
    calls (snd (updateCsvRowToVault (always accepted) namespace "1.1" "WebAPI/UpdateCard" ∅
                  [rowWithCard] 0 endpoint (Some (obj [("Title", JStr "Engineer")]))
                  (start tt)))
    = [{| c_index := 0;
          c_envelope := buildUpdateCardEnvelope (fst (tryAttachPhoto ∅ sent)) namespace "1.1" |}]
    /\ get sent "Title" = JStr "Engineer".
Proof.
  destruct (X15_single_row_override (always accepted) namespace "1.1" "WebAPI/UpdateCard" ∅
              [rowWithCard] 0 endpoint (obj [("Title", JStr "Engineer")]) (start tt))
    as (sent & Hc & Hset & _).
  { cbn. lia. }
  exists sent. split; [exact Hc|].
  apply (Hset "Title" (JStr "Engineer")); [unfold overrideKeys; cbn; tauto | reflexivity].
Defined.

(* ===================================================================== *)
(** * Further properties: what the automatic retry sends                  *)
(* ===================================================================== *)

Lemma applyFieldOverrides_id (override profile : gmap string jsval) :
  (forall k v, In k overrideKeys -> override !! k = Some v ->
     profile !! k = Some (JStr (ToString v))) ->
  applyFieldOverrides override profile = profile.
Proof.
  unfold applyFieldOverrides. generalize overrideKeys as keys. intros keys.
  induction keys as [|key keys IH]; intros H; [reflexivity|].
  cbn [fold_left]. destruct (override !! key) as [v|] eqn:E.
  - rewrite insert_id by (apply H; [now left | exact E]).
    apply IH. intros k v' Hk. apply H. now right.
  - apply IH. intros k v' Hk. apply H. now right.
Qed.

Lemma mapRowToUpdateProfile_field (row : gmap string jsval) (k : string) (m : nat) :
  In (k, m) MAX ->
  exists x, mapRowToUpdateProfile row !! k = Some (JStr x) /\ (String.length x <= m)%nat.
Proof.
  intros H. destruct (update_field_bound row k m H) as (x & Hx & Hl).
  exists x. split; [|exact Hl].
  unfold get in Hx. destruct (mapRowToUpdateProfile row !! k) as [v|] eqn:E; cbn in Hx;
    [now subst | discriminate].
Qed.

Lemma mapRowToUpdateProfile_Address2 (row : gmap string jsval) :
  get (mapRowToUpdateProfile row) "Address2" = JUndefined.
Proof.
  unfold mapRowToUpdateProfile. cbv zeta. destruct (negb (nonempty _)); get_obj; reflexivity.
Qed.

(** The retry changes nothing: every field that its table cuts is already
    within the smaller maximum of the mapper. *)
Lemma retryProfile_same (row : gmap string jsval) :
  retryProfile row = mapRowToUpdateProfile row.
Proof.
  rewrite retryProfile_unfold. apply applyFieldOverrides_id.
  intros k v Hk Hv.
  destruct (in_dec string_dec k (map fst RETRY_MAX)) as [Hin|Hout].
  - apply in_map_iff in Hin as ([k' m'] & <- & Hin). cbn [fst] in *.
    rewrite (retryOverride_key _ _ _ Hin) in Hv.
    destruct (truthy (get (mapRowToUpdateProfile row) k')) eqn:Ht; [|discriminate Hv].
    injection Hv as <-. cbn [ToString].
    unfold RETRY_MAX in Hin. cbn [In] in Hin.
    assert (Hcut : forall m, In (k', m) MAX -> (m <= m')%nat ->
              mapRowToUpdateProfile row !! k'
              = Some (JStr (substring0 m' (ToString (get (mapRowToUpdateProfile row) k'))))).
    { intros m Hm Hle. destruct (mapRowToUpdateProfile_field row k' m Hm) as (x & Hx & Hl).
      unfold get. rewrite Hx. change (default JUndefined (Some (JStr x))) with (JStr x).
      cbn [ToString]. rewrite substring0_id by lia. reflexivity. }
    repeat (destruct Hin as [[= <- <-]|Hin];
            [first [ eapply Hcut; [unfold MAX; cbn [In]; eauto 12 | lia]
                   | rewrite mapRowToUpdateProfile_Address2 in Ht; discriminate Ht ]|]).
    destruct Hin.
  - destruct (string_dec k "Download") as [->|Hd].
    + rewrite (retryOverride_Download _ (JStr "true")) in Hv
        by (apply mapRowToUpdateProfile_Download || discriminate).
      injection Hv as <-. apply mapRowToUpdateProfile_Download.
    + rewrite retryOverride_other in Hv by assumption. discriminate Hv.
Qed.

Section RetryFacts.

Context {W : Type}.
Variable fetch : W -> request -> W * fetchResult.
Variables SOAP_NAMESPACE SOAP_VERSION UPDATE_SOAP_ACTION : string.
Variable dir : gmap string string.

Local Abbreviation updateCsvPathToVault' :=
  (updateCsvPathToVault fetch SOAP_NAMESPACE SOAP_VERSION UPDATE_SOAP_ACTION dir).
Local Abbreviation updateCalls' :=
  (updateCalls SOAP_NAMESPACE SOAP_VERSION UPDATE_SOAP_ACTION dir).
Local Abbreviation retryCall' :=
  (retryCall SOAP_NAMESPACE SOAP_VERSION UPDATE_SOAP_ACTION dir).
Local Abbreviation retryOne' :=
  (retryOne fetch SOAP_NAMESPACE SOAP_VERSION UPDATE_SOAP_ACTION dir).

(** X16: the automatic retry sends again what the first pass sent.  The
    profile rebuilt for the retry of a row is the profile the mapper gave for
    it, field for field, so the envelope of the retry is the envelope of the
    first pass for that row: the fields that the retry cuts are already within
    the smaller maximums of the mapper. *)
Theorem X16_retry_resends_first_pass (rows : list (gmap string jsval)) (endpoint : string)
    (idx : nat) (row : gmap string jsval) (st : state) :
  rows !! idx = Some row ->
  retryProfile row = mapRowToUpdateProfile row
  /\ updateCalls' endpoint [] 0 rows !! idx = Some (retryCall' rows endpoint idx)
  /\ calls (snd (retryOne' rows endpoint idx st)) = calls st ++ [retryCall' rows endpoint idx]
  /\ (forall k m, In (k, m) MAX -> exists m', In (k, m') RETRY_MAX /\ (m <= m')%nat).
Proof.
  intros Hidx.
  assert (Hlt : (idx < length rows)%nat) by (apply lookup_lt_is_Some; eauto).
  assert (Hnth : nth idx rows ∅ = row).
  { apply nth_lookup_Some with (d := ∅) in Hidx. exact Hidx. }
  split; [apply retryProfile_same|].
  split.
  { rewrite (updateCalls_lookup SOAP_NAMESPACE SOAP_VERSION UPDATE_SOAP_ACTION dir
               endpoint [] rows 0 idx row Hidx).
    unfold retryCall. rewrite Hnth, retryProfile_same. reflexivity. }
  split.
  { pose proof (retryOne_spec fetch SOAP_NAMESPACE SOAP_VERSION UPDATE_SOAP_ACTION dir
                  rows endpoint idx st Hlt) as H.
    cbv zeta in H. destruct (retryOne' rows endpoint idx st) as [single st'].
    now destruct H as (_ & H & _). }
  intros k m Hm. unfold MAX in Hm. cbn [In] in Hm.
  repeat (destruct Hm as [[= <- <-]|Hm];
          [eexists; split; [unfold RETRY_MAX; cbn [In]; eauto 15 | lia]|]).
  destruct Hm.
Qed.

End RetryFacts.

(** X16 on a file of one row. *)
Lemma X16_witness :
  updateCalls namespace "1.1" "WebAPI/UpdateCard" ∅ endpoint [] 0 [rowWithCard] !! 0%nat
  = Some (retryCall namespace "1.1" "WebAPI/UpdateCard" ∅ [rowWithCard] endpoint 0).
Proof.
  exact (proj1 (proj2 (X16_retry_resends_first_pass (always accepted) namespace "1.1"
                         "WebAPI/UpdateCard" ∅ [rowWithCard] endpoint 0 rowWithCard
                         (start tt) eq_refl))).
Defined.

(* ===================================================================== *)
(** * Further properties: the redaction of logged envelopes               *)
(* ===================================================================== *)

Lemma fold_ascii_lt (c : ascii) :
  Ascii.eqb (fold_ascii "<") (fold_ascii c) = Ascii.eqb "<" c.
Proof. destruct c as [[] [] [] [] [] [] [] []]; reflexivity. Qed.

Lemma fold_ascii_gt (c : ascii) :
  Ascii.eqb (fold_ascii c) (fold_ascii ">") = Ascii.eqb c ">".
Proof. destruct c as [[] [] [] [] [] [] [] []]; reflexivity. Qed.

Lemma eqb_sym_ascii (a b : ascii) : Ascii.eqb a b = Ascii.eqb b a.
Proof.
  destruct (Ascii.eqb_spec a b) as [->|H]; [now rewrite Ascii.eqb_refl|].
  symmetry. apply Ascii.eqb_neq. congruence.
Qed.

Lemma replacePhoto_eq (t : string) :
  replacePhoto t
  = match match literalAt true "<Photo>" t with
          | Some rest =>
              match captureSplit true true "</Photo>" rest with
              | Some (inner, post) => Some (redactPhoto inner +:+ post)
              | None => None
              end
          | None => None
          end with
    | Some r => Some r
    | None =>
        match t with
        | EmptyString => None
        | String c t' => option_map (String c) (replacePhoto t')
        end
    end.
Proof. destruct t; reflexivity. Qed.

Lemma replacePhoto_char (c : ascii) (t : string) :
  Ascii.eqb c "<" = false ->
  replacePhoto (String c t) = option_map (String c) (replacePhoto t).
Proof.
  intros Hc. cbn [replacePhoto literalAt]. rewrite fold_ascii_lt, eqb_sym_ascii, Hc. reflexivity.
Qed.

Lemma option_map_sapp (d : string) (r : option string) :
  option_map (String.append d) r = match r with Some x => Some (d +:+ x) | None => None end.
Proof. now destruct r. Qed.

Lemma replacePhoto_text (d t : string) :
  lacks "<" d = true ->
  replacePhoto (d +:+ t) = option_map (String.append d) (replacePhoto t).
Proof.
  induction d as [|c d IH]; intros Hd.
  - rewrite sapp_nil_l. destruct (replacePhoto t); reflexivity.
  - cbn [lacks] in Hd. apply andb_prop in Hd as [Hc Hd]. apply negb_true_iff in Hc.
    rewrite sapp_cons, replacePhoto_char by exact Hc. rewrite (IH Hd).
    destruct (replacePhoto t); reflexivity.
Qed.

Lemma differs_literal (p n rest : string) :
  lacks ">" p = true -> differs p n = true ->
  literalAt true (p +:+ ">") (n +:+ ">" +:+ rest) = None.
Proof.
  revert n. induction p as [|a p IH]; intros n Hp Hd; [discriminate Hd|].
  cbn [lacks] in Hp. apply andb_prop in Hp as [Ha Hp]. apply negb_true_iff in Ha.
  rewrite sapp_cons. destruct n as [|c n].
  - rewrite sapp_nil_l. change (">" +:+ rest) with (String ">" rest).
    cbn [literalAt]. now rewrite fold_ascii_gt, Ha.
  - rewrite sapp_cons. cbn [literalAt differs] in *.
    destruct (Ascii.eqb (fold_ascii a) (fold_ascii c)); [|reflexivity].
    apply IH; assumption.
Qed.

Lemma replacePhoto_tag (n t : string) :
  lacks "<" n = true -> differs "Photo" n = true ->
  replacePhoto ("<" +:+ n +:+ ">" +:+ t)
  = option_map (String.append ("<" +:+ n +:+ ">")) (replacePhoto t).
Proof.
  intros Hn Hd. change ("<" +:+ n +:+ ">" +:+ t) with (String "<" (n +:+ ">" +:+ t)).
  cbn [replacePhoto]. change (literalAt true "<Photo>" (String "<" (n +:+ ">" +:+ t)))
    with (literalAt true ("Photo" +:+ ">") (n +:+ ">" +:+ t)).
  rewrite differs_literal by (exact Hd || reflexivity).
  rewrite <- sapp_assoc, replacePhoto_text by (rewrite lacks_app, Hn; reflexivity).
  destruct (replacePhoto t) as [r|]; [|reflexivity].
  cbn [option_map]. now rewrite !sapp_assoc.
Qed.

Lemma replacePhoto_quiet (toks : list token) (t : string) :
  forallb (quietToken "Photo") toks = true ->
  replacePhoto (render toks +:+ t) = option_map (String.append (render toks)) (replacePhoto t).
Proof.
  induction toks as [|tok toks IH]; intros H.
  - cbn [render]. rewrite sapp_nil_l. now destruct (replacePhoto t).
  - cbn [forallb] in H. apply andb_prop in H as [Htok H].
    cbn [render]. rewrite sapp_assoc. destruct tok as [n|d]; cbn [tokenText quietToken] in *.
    + apply andb_prop in Htok as [Hn Hd]. rewrite !sapp_assoc.
      rewrite replacePhoto_tag, (IH H) by assumption.
      destruct (replacePhoto t); [|reflexivity]. cbn [option_map]. now rewrite !sapp_assoc.
    + rewrite replacePhoto_text, (IH H) by exact Htok.
      destruct (replacePhoto t); [|reflexivity]. cbn [option_map]. now rewrite !sapp_assoc.
Qed.

Lemma captureSplit_text (c post : string) :
  lacks "<" c = true ->
  captureSplit true true "</Photo>" (c +:+ "</Photo>" +:+ post) = Some (c, post).
Proof.
  induction c as [|x c IH]; intros Hc.
  - rewrite sapp_nil_l. reflexivity.
  - cbn [lacks] in Hc. apply andb_prop in Hc as [Hx Hc]. apply negb_true_iff in Hx.
    rewrite sapp_cons. cbn [captureSplit literalAt orb].
    rewrite fold_ascii_lt, eqb_sym_ascii, Hx. now rewrite (IH Hc).
Qed.

Lemma replacePhoto_here (c post : string) :
  lacks "<" c = true ->
  replacePhoto ("<Photo>" +:+ c +:+ "</Photo>" +:+ post) = Some (redactPhoto c +:+ post).
Proof.
  intros Hc. rewrite replacePhoto_eq.
  replace (literalAt true "<Photo>" ("<Photo>" +:+ c +:+ "</Photo>" +:+ post))
    with (Some (c +:+ "</Photo>" +:+ post)) by reflexivity.
  now rewrite captureSplit_text.
Qed.

Lemma lacks_escapeXml (v : jsval) : lacks "<" (escapeXml v) = true.
Proof. apply wellEscaped_lacks; [reflexivity | apply wellEscaped_escapeXml]. Qed.

Lemma quiet_fields (value : string -> jsval) (tags : list string) :
  forallb (fun tag => lacks "<" tag && differs "Photo" tag) tags = true ->
  forallb (quietToken "Photo") (flat_map (fieldTokens value) tags) = true.
Proof.
  induction tags as [|tag tags IH]; intros H; [reflexivity|].
  cbn [forallb] in H. apply andb_prop in H as [Htag H]. apply andb_prop in Htag as [Hl Hd].
  cbn [flat_map]. rewrite forallb_app, (IH H), andb_true_r.
  unfold fieldTokens. cbn [forallb quietToken].
  rewrite Hl, Hd, lacks_escapeXml. cbn [andb].
  rewrite (lacks_app _ "/" tag), Hl. reflexivity.
Qed.

Lemma fields_ext (value value' : string -> jsval) (tags : list string) :
  (forall tag, In tag tags -> value' tag = value tag) ->
  flat_map (fieldTokens value') tags = flat_map (fieldTokens value) tags.
Proof.
  induction tags as [|tag tags IH]; intros H; [reflexivity|].
  cbn [flat_map]. rewrite IH by (intros t Ht; apply H; now right).
  unfold fieldTokens. rewrite H by now left. reflexivity.
Qed.

(** The redaction of a rendered block whose photo line is the first place
    where the pattern can match. *)
Lemma redact_block (pre tail : list token) (value value' : string -> jsval) :
  forallb (quietToken "Photo") pre = true ->
  (forall tag, tag <> "Photo" -> value' tag = value tag) ->
  redactPhoto (escapeXml (value "Photo"))
  = "<Photo>" +:+ escapeXml (value' "Photo") +:+ "</Photo>" ->
  replacePhoto (render (pre ++ flat_map (fieldTokens value) tagOrder ++ tail))
  = Some (render (pre ++ flat_map (fieldTokens value') tagOrder ++ tail)).
Proof.
  intros Hpre Hext Hphoto.
  change tagOrder with (beforePhoto ++ ["Photo"; "Download"]).
  rewrite !flat_map_app.
  rewrite (fields_ext value value' beforePhoto)
    by (intros tag Ht; apply Hext; intros ->; revert Ht; vm_compute; intuition discriminate).
  set (fields := flat_map (fieldTokens value) beforePhoto).
  assert (Hq : forallb (quietToken "Photo") (pre ++ fields) = true).
  { rewrite forallb_app, Hpre. unfold fields. now rewrite quiet_fields. }
  cbn [flat_map]. unfold fieldTokens. rewrite (Hext "Download") by discriminate.
  rewrite !List.app_assoc, !render_app, !sapp_assoc.
  rewrite <- (sapp_assoc (render pre)), <- render_app.
  rewrite replacePhoto_quiet by exact Hq.
  cbn [render tokenText].
  change ("<" +:+ "Photo" +:+ ">") with "<Photo>".
  change ("<" +:+ ("/" +:+ "Photo") +:+ ">") with "</Photo>".
  rewrite !sapp_assoc.
  do 2 (rewrite replacePhoto_text by reflexivity).
  rewrite replacePhoto_here by apply lacks_escapeXml.
  cbn [option_map]. rewrite Hphoto, render_app, !sapp_assoc. reflexivity.
Qed.

Lemma redactPhoto_value (profile : gmap string jsval) :
  redactPhoto (escapeXml (photoValue profile))
  = "<Photo>" +:+ escapeXml (photoValue (<["Photo" := redactedPhoto profile]> profile))
    +:+ "</Photo>".
Proof.
  unfold photoValue, redactedPhoto, redactPhoto. rewrite get_insert_eq. cbv zeta.
  destruct (truthy (get profile "Photo")); cbn [andb]; [|reflexivity].
  destruct (nonempty (trim (escapeXml (get profile "Photo")))); reflexivity.
Qed.

Lemma quiet_envelopeHead (soapVersion : string) :
  forallb (quietToken "Photo") (envelopeHead soapVersion) = true.
Proof.
  unfold envelopeHead, soapEnvNs. destruct (String.eqb soapVersion "1.2"); vm_compute; reflexivity.
Qed.

Lemma nonempty_envelopeOpen (soapVersion rest : string) :
  nonempty (envelopeOpen soapVersion +:+ rest) = true.
Proof. reflexivity. Qed.

(** X17: what the logs keep of an envelope.  The redaction of a built
    envelope is the envelope built for the same profile with its photo
    replaced: by the text [[redacted]] when the photo has content, by nothing
    when it is missing or blank.  No character of the photo is kept. *)
Theorem X17_redaction_hides_photo (profile : gmap string jsval) (namespace soapVersion : string) :
  lacks "<" namespace = true ->
  redactEnvelope (buildAddCardEnvelope profile namespace soapVersion)
  = buildAddCardEnvelope (<["Photo" := redactedPhoto profile]> profile) namespace soapVersion
  /\ redactEnvelope (buildUpdateCardEnvelope profile namespace soapVersion)
     = buildUpdateCardEnvelope (<["Photo" := redactedPhoto profile]> profile)
         namespace soapVersion.
Proof.
  intros Hns.
  assert (Hop : forall operation,
             lacks "<" (operation +:+ " xmlns=" +:+ dq +:+ namespace +:+ dq) = lacks "<" operation).
  { intros operation. rewrite !lacks_app, Hns. cbn. now rewrite !andb_true_r. }
  split.
  - unfold redactEnvelope.
    replace (nonempty (buildAddCardEnvelope profile namespace soapVersion)) with true
      by (symmetry; unfold buildAddCardEnvelope; cbv zeta; apply nonempty_envelopeOpen).
    cbn [negb]. rewrite !addCard_render. unfold addCardTokens.
    rewrite !List.app_assoc, <- !(List.app_assoc _ _ (envelopeTail "AddCard")).
    rewrite (redact_block _ _ (addValue profile)
               (addValue (<["Photo" := redactedPhoto profile]> profile))); [reflexivity| | |].
    + rewrite forallb_app, quiet_envelopeHead. unfold operationTag. cbn [forallb quietToken andb].
      rewrite Hop. reflexivity.
    + intros tag Htag. unfold addValue.
      replace (String.eqb tag "Photo") with false by (symmetry; now apply String.eqb_neq).
      rewrite !get_insert_ne by congruence. reflexivity.
    + change (addValue ?p "Photo") with (photoValue p). apply redactPhoto_value.
  - unfold redactEnvelope.
    replace (nonempty (buildUpdateCardEnvelope profile namespace soapVersion)) with true
      by (symmetry; unfold buildUpdateCardEnvelope; cbv zeta; apply nonempty_envelopeOpen).
    cbn [negb]. rewrite !updateCard_render. unfold updateCardTokens.
    rewrite get_insert_ne by discriminate.
    rewrite !List.app_assoc, <- !(List.app_assoc _ _ (envelopeTail "UpdateCard")).
    rewrite (redact_block _ _ (updateValue profile)
               (updateValue (<["Photo" := redactedPhoto profile]> profile))); [reflexivity| | |].
    + rewrite forallb_app, quiet_envelopeHead. unfold operationTag. cbn [forallb quietToken andb].
      rewrite Hop, lacks_escapeXml. reflexivity.
    + intros tag Htag. unfold updateValue.
      replace (String.eqb tag "Photo") with false by (symmetry; now apply String.eqb_neq).
      rewrite !get_insert_ne by congruence. reflexivity.
    + change (updateValue ?p "Photo") with (photoValue p). apply redactPhoto_value.
Qed.

Lemma X17_witness :
  redactEnvelope (buildAddCardEnvelope (obj [("Photo", JStr "/9j/4AAQSkZJRg==")])
                    "http://tempuri.org/" "1.1")
  = buildAddCardEnvelope (<["Photo" := JStr "[redacted]"]> (obj [("Photo", JStr "/9j/4AAQSkZJRg==")]))
      "http://tempuri.org/" "1.1".
Proof.
  exact (proj1 (X17_redaction_hides_photo (obj [("Photo", JStr "/9j/4AAQSkZJRg==")])
                  "http://tempuri.org/" "1.1" eq_refl)).
Defined.

(* ===================================================================== *)
(** * Further properties: reading a reply                                 *)
(* ===================================================================== *)

Lemma matchTag_eq (ci dotall : bool) (tag t : string) :
  matchTag ci dotall tag t
  = match match literalAt ci ("<" +:+ tag +:+ ">") t with
          | Some rest => captureUntil ci dotall ("</" +:+ tag +:+ ">") rest
          | None => None
          end with
    | Some g => Some g
    | None =>
        match t with
        | EmptyString => None
        | String _ t' => matchTag ci dotall tag t'
        end
    end.
Proof. destruct t; reflexivity. Qed.

Lemma literalAt_other (ci : bool) (p t : string) (c : ascii) :
  Ascii.eqb c "<" = false -> literalAt ci (String "<" p) (String c t) = None.
Proof.
  intros Hc. cbn [literalAt]. destruct ci.
  - now rewrite fold_ascii_lt, eqb_sym_ascii, Hc.
  - now rewrite eqb_sym_ascii, Hc.
Qed.

Lemma matchTag_char (ci dotall : bool) (tag t : string) (c : ascii) :
  Ascii.eqb c "<" = false ->
  matchTag ci dotall tag (String c t) = matchTag ci dotall tag t.
Proof.
  intros Hc. rewrite matchTag_eq.
  change ("<" +:+ tag +:+ ">") with (String "<" (tag +:+ ">")).
  now rewrite literalAt_other.
Qed.

Lemma matchTag_text (ci dotall : bool) (tag d t : string) :
  lacks "<" d = true -> matchTag ci dotall tag (d +:+ t) = matchTag ci dotall tag t.
Proof.
  induction d as [|c d IH]; intros Hd; [now rewrite sapp_nil_l|].
  cbn [lacks] in Hd. apply andb_prop in Hd as [Hc Hd]. apply negb_true_iff in Hc.
  rewrite sapp_cons, matchTag_char by exact Hc. exact (IH Hd).
Qed.

Lemma differs_literal_any (ci : bool) (p n rest : string) :
  lacks ">" p = true -> differs p n = true ->
  literalAt ci (p +:+ ">") (n +:+ ">" +:+ rest) = None.
Proof.
  destruct ci; [apply differs_literal|].
  revert n. induction p as [|a p IH]; intros n Hp Hd; [discriminate Hd|].
  cbn [lacks] in Hp. apply andb_prop in Hp as [Ha Hp]. apply negb_true_iff in Ha.
  rewrite sapp_cons. destruct n as [|c n].
  - rewrite sapp_nil_l. change (">" +:+ rest) with (String ">" rest).
    cbn [literalAt]. now rewrite Ha.
  - rewrite sapp_cons. cbn [literalAt differs] in *.
    destruct (Ascii.eqb_spec a c) as [->|Hne]; [|reflexivity].
    rewrite Ascii.eqb_refl in Hd. apply IH; assumption.
Qed.

Lemma literalAt_lt (ci : bool) (p t : string) :
  literalAt ci (String "<" p) (String "<" t) = literalAt ci p t.
Proof. destruct ci; reflexivity. Qed.

Lemma matchTag_tag (ci dotall : bool) (tag n t : string) :
  lacks ">" tag = true -> lacks "<" n = true -> differs tag n = true ->
  matchTag ci dotall tag ("<" +:+ n +:+ ">" +:+ t) = matchTag ci dotall tag t.
Proof.
  intros Htag Hn Hd. rewrite matchTag_eq.
  change ("<" +:+ n +:+ ">" +:+ t) with (String "<" (n +:+ ">" +:+ t)).
  change ("<" +:+ tag +:+ ">") with (String "<" (tag +:+ ">")).
  rewrite literalAt_lt, differs_literal_any by assumption.
  rewrite <- sapp_assoc. apply matchTag_text. now rewrite lacks_app, Hn.
Qed.

Lemma matchTag_quiet (ci dotall : bool) (tag : string) (toks : list token) (t : string) :
  lacks ">" tag = true -> forallb (quietToken tag) toks = true ->
  matchTag ci dotall tag (render toks +:+ t) = matchTag ci dotall tag t.
Proof.
  intros Htag. induction toks as [|tok toks IH]; intros H.
  - cbn [render]. now rewrite sapp_nil_l.
  - cbn [forallb] in H. apply andb_prop in H as [Htok H].
    cbn [render]. rewrite sapp_assoc. destruct tok as [n|d]; cbn [tokenText quietToken] in *.
    + apply andb_prop in Htok as [Hn Hd]. rewrite !sapp_assoc.
      rewrite matchTag_tag by assumption. exact (IH H).
    + rewrite matchTag_text by exact Htok. exact (IH H).
Qed.

Lemma literalAt_refl (ci : bool) (p rest : string) : literalAt ci p (p +:+ rest) = Some rest.
Proof.
  induction p as [|a p IH]; [now rewrite sapp_nil_l|].
  rewrite sapp_cons. cbn [literalAt]. rewrite !Ascii.eqb_refl. destruct ci; exact IH.
Qed.

Lemma oneLine_cons (x : ascii) (c : string) :
  oneLine (String x c) = negb (is_line_terminator x) && oneLine c.
Proof.
  unfold oneLine. cbn [lacks].
  destruct (Ascii.eqb_spec x "010") as [->|H1]; [reflexivity|].
  destruct (Ascii.eqb_spec x "013") as [->|H2]; [cbn; now rewrite andb_false_r|].
  replace (is_line_terminator x) with false; [reflexivity|].
  destruct x as [[] [] [] [] [] [] [] []]; try reflexivity; congruence.
Qed.

Lemma captureUntil_text (ci dotall : bool) (close c post : string) :
  lacks "<" c = true -> dotall || oneLine c = true ->
  captureUntil ci dotall (String "<" close) (c +:+ String "<" close +:+ post) = Some c.
Proof.
  induction c as [|x c IH]; intros Hc Hl.
  - rewrite sapp_nil_l.
    destruct (String "<" close +:+ post) eqn:E; cbn [captureUntil];
      rewrite <- E, literalAt_refl; reflexivity.
  - cbn [lacks] in Hc. apply andb_prop in Hc as [Hx Hc]. apply negb_true_iff in Hx.
    rewrite sapp_cons. cbn [captureUntil]. rewrite literalAt_other by exact Hx.
    rewrite oneLine_cons in Hl.
    assert (dotall || negb (is_line_terminator x) = true /\ dotall || oneLine c = true)
      as [-> Hl'].
    { destruct dotall; [split; reflexivity|]. cbn [orb] in *. now apply andb_prop in Hl. }
    now rewrite (IH Hc Hl').
Qed.

Lemma matchTag_here (ci dotall : bool) (tag c post : string) :
  lacks "<" c = true -> dotall || oneLine c = true ->
  matchTag ci dotall tag (("<" +:+ tag +:+ ">") +:+ c +:+ ("</" +:+ tag +:+ ">") +:+ post) = Some c.
Proof.
  intros Hc Hl. rewrite matchTag_eq, literalAt_refl.
  change ("</" +:+ tag +:+ ">") with (String "<" ("/" +:+ tag +:+ ">")).
  now rewrite captureUntil_text.
Qed.

Lemma reply_code (ci dotall : bool) (opening between : list token) (c m post : string) :
  forallb (quietToken "ErrCode") opening = true ->
  lacks "<" c = true -> dotall || oneLine c = true ->
  matchTag ci dotall "ErrCode" (reply opening c between m post) = Some c.
Proof.
  intros Ho Hc Hl. unfold reply. rewrite render_app, !sapp_assoc.
  rewrite matchTag_quiet by (exact Ho || reflexivity).
  rewrite render_app. cbn [render tokenText app]. rewrite !sapp_assoc.
  apply (matchTag_here ci dotall "ErrCode"); assumption.
Qed.

Lemma reply_message (ci dotall : bool) (opening between : list token) (c m post : string) :
  forallb (quietToken "ErrMessage") opening = true ->
  forallb (quietToken "ErrMessage") between = true ->
  lacks "<" c = true -> lacks "<" m = true -> dotall || oneLine m = true ->
  matchTag ci dotall "ErrMessage" (reply opening c between m post) = Some m.
Proof.
  intros Ho Hb Hc Hm Hl. unfold reply.
  rewrite !List.app_assoc, render_app, !sapp_assoc.
  rewrite matchTag_quiet.
  - cbn [render tokenText]. rewrite !sapp_assoc.
    rewrite <- (sapp_assoc "<"), <- (sapp_assoc ("<" +:+ "ErrMessage")).
    apply (matchTag_here ci dotall "ErrMessage"); assumption.
  - reflexivity.
  - rewrite !forallb_app, Ho, Hb. cbn [forallb quietToken andb]. rewrite Hc. reflexivity.
Qed.

(** X18: the parsers read back what a reply carries.  For a reply whose
    first ErrCode and ErrMessage tags open the two elements, the update
    parser returns the code and the message trimmed, and the create parser
    returns them as they are when they hold no line break. *)
Theorem X18_reply_reads_back (st : Z) (opening between : list token) (c m post : string) :
  forallb (quietToken "ErrCode") opening = true ->
  forallb (quietToken "ErrMessage") opening = true ->
  forallb (quietToken "ErrMessage") between = true ->
  lacks "<" c = true -> lacks "<" m = true ->
  let text := reply opening c between m post in
  errCode (parseUpdateCardResponse st text) = Some (trim c)
  /\ errMessage (parseUpdateCardResponse st text) = Some (trim m)
  /\ (oneLine c = true -> errCode (parseAddCardResponse st text) = Some c)
  /\ (oneLine m = true -> errMessage (parseAddCardResponse st text) = Some m)
  /\ httpStatus (parseUpdateCardResponse st text) = st
  /\ raw (parseAddCardResponse st text) = text.
Proof.
  intros Hoc Hom Hbm Hc Hm. cbv zeta.
  unfold parseUpdateCardResponse, parseAddCardResponse. cbn [errCode errMessage httpStatus raw].
  rewrite (reply_code true true) by assumption || reflexivity.
  rewrite (reply_message true true) by assumption || reflexivity.
  split; [reflexivity|]. split; [reflexivity|].
  split; [intros Hl; now rewrite (reply_code false false)|].
  split; [intros Hl; now rewrite (reply_message false false)|].
  split; reflexivity.
Qed.

Lemma X18_witness :
  errCode (parseUpdateCardResponse 200
             (reply [Tag "soap:Body"; Tag "UpdateCardResponse"; Tag "UpdateCardResult"]
                " -1 " [] "String or binary data would be truncated." "</UpdateCardResult>"))
  = Some "-1".
Proof.
  exact (proj1 (X18_reply_reads_back 200
                  [Tag "soap:Body"; Tag "UpdateCardResponse"; Tag "UpdateCardResult"]
                  [] " -1 " "String or binary data would be truncated."
                  "</UpdateCardResult>" eq_refl eq_refl eq_refl eq_refl eq_refl)).
Defined.

(* ===================================================================== *)
(** * Further properties: dates                                           *)
(* ===================================================================== *)

Lemma uint_digits (d : Decimal.uint) :
  forallb is_digit (list_ascii_of_string (NilEmpty.string_of_uint d)) = true.
Proof. induction d; cbn; try reflexivity; exact IHd. Qed.

Lemma nilzero_digits (d : Decimal.uint) :
  forallb is_digit (list_ascii_of_string (NilZero.string_of_uint d)) = true
  /\ NilZero.string_of_uint d <> "".
Proof.
  destruct d; cbn; try (split; [reflexivity | discriminate]);
    (split; [apply uint_digits | discriminate]).
Qed.

(** The decimal text of an integer: an optional sign, then digits. *)
Lemma string_of_Z_shape (z : Z) :
  exists (sign ds : string),
    string_of_Z z = sign +:+ ds
    /\ (sign = "" \/ sign = "-")
    /\ forallb is_digit (list_ascii_of_string ds) = true
    /\ ds <> "".
Proof.
  unfold string_of_Z, NilZero.string_of_int.
  destruct (Z.to_int z) as [d|d]; destruct (nilzero_digits d) as [Hd Hn].
  - exists "", (NilZero.string_of_uint d). rewrite sapp_nil_l. auto.
  - exists "-", (NilZero.string_of_uint d). auto.
Qed.

Lemma read_digits_stop (ds rest : string) (c : ascii) :
  forallb is_digit (list_ascii_of_string ds) = true -> is_digit c = false ->
  forall acc, exists v,
    read_digits acc (ds +:+ String c rest) = (v, String.length ds, String c rest).
Proof.
  intros Hds Hc. induction ds as [|d ds IH]; intros acc.
  - rewrite sapp_nil_l. cbn [read_digits]. rewrite Hc. eauto.
  - cbn [list_ascii_of_string forallb] in Hds. apply andb_prop in Hds as [Hd Hds].
    rewrite sapp_cons. cbn [read_digits]. rewrite Hd.
    destruct (IH Hds (10 * acc + digit_val d)) as [v ->]. eauto.
Qed.

Lemma is_serial_spaced (z : Z) (rest : string) :
  is_serial (string_of_Z z +:+ String " " rest) = false.
Proof.
  destruct (string_of_Z_shape z) as (sign & ds & -> & [->| ->] & Hds & Hne).
  - rewrite sapp_nil_l. unfold is_serial.
    destruct (read_digits_stop ds rest " " Hds eq_refl 0) as [v ->].
    destruct (String.length ds); reflexivity.
  - reflexivity.
Qed.

Lemma digit_not_white (c : ascii) : is_digit c = true -> is_white c = false.
Proof.
  destruct c as [[] [] [] [] [] [] [] []]; vm_compute; intros H;
    first [reflexivity | discriminate H].
Qed.

Lemma headWhite_app (a b : string) : a <> "" -> headWhite (a +:+ b) = headWhite a.
Proof. destruct a; [congruence|]. intros _. now rewrite sapp_cons. Qed.

Lemma lastWhite_app (a b : string) : b <> "" -> lastWhite (a +:+ b) = lastWhite b.
Proof.
  intros Hb. induction a as [|c a IH]; [now rewrite sapp_nil_l|].
  rewrite sapp_cons. cbn [lastWhite]. destruct (a +:+ b) eqn:E; [|exact IH].
  destruct a; [rewrite sapp_nil_l in E; congruence | rewrite sapp_cons in E; discriminate].
Qed.

Lemma digits_lastWhite (ds : string) :
  forallb is_digit (list_ascii_of_string ds) = true -> lastWhite ds = false.
Proof.
  induction ds as [|c ds IH]; [reflexivity|]. cbn [list_ascii_of_string forallb lastWhite].
  intros H. apply andb_prop in H as [Hc Hds]. destruct ds; [now apply digit_not_white|].
  exact (IH Hds).
Qed.

Lemma string_of_Z_ends (z : Z) :
  headWhite (string_of_Z z) = false /\ lastWhite (string_of_Z z) = false
  /\ string_of_Z z <> "".
Proof.
  destruct (string_of_Z_shape z) as (sign & ds & -> & Hs & Hds & Hne).
  split; [|split].
  - destruct Hs as [->| ->]; [|reflexivity]. rewrite sapp_nil_l.
    destruct ds as [|c ds]; [congruence|]. cbn in Hds. apply andb_prop in Hds as [Hc _].
    now apply digit_not_white.
  - rewrite lastWhite_app by exact Hne. now apply digits_lastWhite.
  - destruct Hs as [->| ->]; [now rewrite sapp_nil_l | discriminate].
Qed.

(** The text rendered for a date is returned unchanged by the
    normalisation. *)
Lemma normalizeExcelDate_rendered (d y : Z) (mon : string) :
  normalizeExcelDate (JStr (string_of_Z d +:+ " " +:+ mon +:+ " " +:+ string_of_Z y))
  = string_of_Z d +:+ " " +:+ mon +:+ " " +:+ string_of_Z y.
Proof.
  destruct (string_of_Z_ends d) as (Hh & _ & Hn), (string_of_Z_ends y) as (_ & Hl & Hn').
  assert (Htrim : trim (string_of_Z d +:+ " " +:+ mon +:+ " " +:+ string_of_Z y)
                  = string_of_Z d +:+ " " +:+ mon +:+ " " +:+ string_of_Z y).
  { apply trim_trimmed.
    - now rewrite headWhite_app.
    - rewrite <- !sapp_assoc. now rewrite lastWhite_app. }
  rewrite normalizeExcelDate_not_serial; [exact Htrim|].
  rewrite Htrim. apply (is_serial_spaced d).
Qed.

Lemma normalizeExcelDate_again (x : string) :
  normalizeExcelDate (JStr (normalizeExcelDate (JStr x))) = normalizeExcelDate (JStr x).
Proof.
  unfold normalizeExcelDate at 2 3. cbn [ToString].
  destruct (nonempty (trim x)) eqn:Hne; cbn [negb]; [|reflexivity].
  destruct (is_serial (trim x)) eqn:Hs.
  - destruct (TimeClip _) as [t|] eqn:Ht.
    + apply normalizeExcelDate_rendered.
    + unfold normalizeExcelDate. cbn [ToString]. rewrite trim_idem, Hne, Hs, Ht. reflexivity.
  - unfold normalizeExcelDate. cbn [ToString]. rewrite trim_idem, Hne, Hs. reflexivity.
Qed.

(** X19: normalising a date twice changes nothing more, whatever the value.
    The single-card mode of the script normalises again the dates that the
    mapper has already normalised. *)
Theorem X19_normalizeExcelDate_idempotent (val : jsval) :
  normalizeExcelDate (JStr (normalizeExcelDate val)) = normalizeExcelDate val.
Proof.
  destruct val as [| |b|z|x]; try reflexivity.
  - change (normalizeExcelDate (JBool b)) with (normalizeExcelDate (JStr (ToString (JBool b)))).
    apply normalizeExcelDate_again.
  - change (normalizeExcelDate (JNum z)) with (normalizeExcelDate (JStr (ToString (JNum z)))).
    apply normalizeExcelDate_again.
  - apply normalizeExcelDate_again.
Qed.

(* ===================================================================== *)
(** * Further properties: the command line of the script                  *)
(* ===================================================================== *)

Lemma afterEq_app (a v : string) :
  lacks "=" a = true -> afterEq (a +:+ "=" +:+ v) = Some v.
Proof.
  induction a as [|c a IH]; intros Ha; [reflexivity|].
  cbn [lacks] in Ha. apply andb_prop in Ha as [Hc Ha]. apply negb_true_iff in Hc.
  rewrite sapp_cons. cbn [afterEq]. rewrite Hc. exact (IH Ha).
Qed.

Lemma includes_eq_app (a v : string) : includes "=" (a +:+ "=" +:+ v) = true.
Proof. apply includes_spec. exists a, v. reflexivity. Qed.

Lemma includes_lacks (a : string) : lacks "=" a = true -> includes "=" a = false.
Proof.
  induction a as [|c a IH]; intros Ha; [reflexivity|].
  cbn [lacks] in Ha. apply andb_prop in Ha as [Hc Ha]. apply negb_true_iff in Hc.
  cbn [includes String.prefix]. rewrite (IH Ha).
  destruct (ascii_dec "=" c) as [<-|Hne]; [discriminate Hc | reflexivity].
Qed.

Lemma find_skip {A : Type} (f : A -> bool) (pre : list A) (rest : list A) :
  Forall (fun a => f a = false) pre -> List.find f (pre ++ rest) = List.find f rest.
Proof.
  induction 1 as [|a pre Ha _ IH]; [reflexivity|]. cbn [app List.find]. now rewrite Ha.
Qed.

Lemma indexOf_skip (x : string) (pre rest : list string) :
  Forall (fun a => String.eqb a x = false) pre ->
  indexOf x (pre ++ x :: rest) = Z.of_nat (length pre).
Proof.
  induction 1 as [|a pre Ha _ IH].
  - cbn [app indexOf length]. now rewrite String.eqb_refl.
  - cbn [app indexOf length]. rewrite Ha, IH.
    replace (Z.of_nat (length pre) <? 0) with false by (symmetry; apply Z.ltb_ge; lia).
    lia.
Qed.

Lemma item_next (pre rest : list string) (x : string) :
  item (pre ++ x :: rest) (Z.of_nat (length pre) + 1) = head rest.
Proof.
  unfold item. replace (Z.of_nat (length pre) + 1 <? 0) with false
    by (symmetry; apply Z.ltb_ge; lia).
  replace (Z.to_nat (Z.of_nat (length pre) + 1)) with (length pre + 1)%nat by lia.
  induction pre as [|a pre IH]; [now destruct rest|exact IH].
Qed.

Lemma nonempty_app_eq (a v : string) : nonempty (a +:+ "=" +:+ v) = true.
Proof. destruct a; reflexivity. Qed.

(** X20: how the script reads the value of a flag.  The first argument that
    is the flag or begins with the flag and [=] decides: written with [=], the
    value is what follows up to the next [=]; written alone, it is the next
    argument, whatever that is, and nothing when there is none; a flag that
    is not given has no value. *)
Theorem X20_flag_value (name v : string) (pre post : list string) :
  name <> "" -> lacks "=" name = true ->
  Forall (fun a => String.eqb a name || String.prefix (name +:+ "=") a = false) pre ->
  getFlagVal (pre ++ (name +:+ "=" +:+ v) :: post) name = Some (untilEq v)
  /\ getFlagVal (pre ++ name :: post) name = head post
  /\ getFlagVal pre name = None
  /\ (lacks "=" v = true -> untilEq v = v).
Proof.
  intros Hname Hlacks Hpre. split; [|split; [|split]].
  - unfold getFlagVal. rewrite find_skip by exact Hpre. cbn [List.find].
    replace (String.prefix (name +:+ "=") (name +:+ "=" +:+ v)) with true
      by (symmetry; apply prefix_spec; exists v; now rewrite sapp_assoc).
    rewrite orb_true_r, nonempty_app_eq. unfold valueOf, secondPart.
    now rewrite includes_eq_app, afterEq_app.
  - unfold getFlagVal. rewrite find_skip by exact Hpre. cbn [List.find].
    rewrite String.eqb_refl. cbn [orb].
    replace (nonempty name) with true by (symmetry; now apply nonempty_true).
    unfold valueOf. rewrite includes_lacks by exact Hlacks.
    rewrite indexOf_skip; [apply item_next|].
    eapply List.Forall_impl; [|exact Hpre]. cbn. intros a Ha.
    now apply orb_false_elim in Ha.
  - unfold getFlagVal. rewrite <- (List.app_nil_r pre), find_skip by exact Hpre. reflexivity.
  - clear. induction v as [|c v IH]; intros Hv; [reflexivity|].
    cbn [lacks] in Hv. apply andb_prop in Hv as [Hc Hv]. apply negb_true_iff in Hc.
    cbn [untilEq]. rewrite Hc. now rewrite IH.
Qed.

Lemma X20_witness :
  getFlagVal ["file.xlsx"; "--title=a=b"; "--title"; "x"] "--title" = Some "a".
Proof.
  apply (proj1 (X20_flag_value "--title" "a=b" ["file.xlsx"] ["--title"; "x"]
                  ltac:(discriminate) eq_refl ltac:(repeat constructor))).
Defined.

(** X21: which argument names the card.  The script takes the first
    argument that begins with [--card], so the flag [--card-status] given
    before [--card], or without it, is read as the card number and puts the
    script in single-card mode for a card named after the status. *)
Theorem X21_card_status_read_as_card (v : string) (pre post : list string) :
  Forall (fun a => String.prefix "--card" a = false) pre ->
  cardArg (pre ++ ("--card-status" +:+ "=" +:+ v) :: post) = Some (untilEq v)
  /\ cardArg (pre ++ ("--card" +:+ "=" +:+ v) :: post) = Some (untilEq v)
  /\ cardArg (pre ++ "--card-status" :: post) = head post
  /\ cardArg pre = None
  /\ (nonempty (trim (untilEq v)) = true ->
      singleCard (pre ++ ("--card-status" +:+ "=" +:+ v) :: post) = Some (trim (untilEq v))).
Proof.
  intros Hpre.
  assert (Hflag : forall f, String.prefix "--card" f = true -> lacks "=" f = true ->
            cardArg (pre ++ (f +:+ "=" +:+ v) :: post) = Some (untilEq v)).
  { intros f Hf Hl. unfold cardArg. rewrite find_skip by exact Hpre. cbn [List.find].
    replace (String.prefix "--card" (f +:+ "=" +:+ v)) with true.
    - rewrite nonempty_app_eq. unfold valueOf, secondPart.
      now rewrite includes_eq_app, afterEq_app.
    - symmetry. apply prefix_spec in Hf as [b ->]. apply prefix_spec.
      exists (b +:+ "=" +:+ v). now rewrite !sapp_assoc. }
  split; [apply Hflag; reflexivity|]. split; [apply Hflag; reflexivity|].
  split; [|split].
  - unfold cardArg. rewrite find_skip by exact Hpre.
    change (List.find _ ("--card-status" :: post)) with (Some "--card-status").
    change (nonempty "--card-status") with true. cbv iota.
    unfold valueOf. change (includes "=" "--card-status") with false. cbv iota.
    rewrite indexOf_skip; [apply item_next|].
    eapply List.Forall_impl; [|exact Hpre]. cbn beta. intros a Ha.
    apply String.eqb_neq. intros ->. discriminate Ha.
  - unfold cardArg. rewrite <- (List.app_nil_r pre), find_skip by exact Hpre. reflexivity.
  - intros Hv. unfold singleCard. rewrite Hflag by reflexivity. rewrite Hv.
    replace (nonempty (untilEq v)) with true; [reflexivity|].
    symmetry. apply nonempty_true. intros E. rewrite E in Hv. discriminate Hv.
Qed.

Lemma X21_witness :
  singleCard ["file.xlsx"; "--card-status=inactive"; "--card=1234567890"] = Some "inactive".
Proof.
  apply (proj2 (proj2 (proj2 (proj2
           (X21_card_status_read_as_card "inactive" ["file.xlsx"] ["--card=1234567890"]
              ltac:(repeat constructor)))))).
  reflexivity.
Defined.

(** What one turn of the loop adds to [skipIdx]. *)
Lemma skipStep_elem (argv : list string) (skip : gset nat) (i j : nat) :
  j ∈ skipStep argv skip i
  <-> j ∈ skip
      \/ exists a, argv !! i = Some a /\ String.prefix "--" a = true
                   /\ (j = i \/ (j = (i + 1)%nat /\ includes "=" a = false
                                 /\ (i + 1 < length argv)%nat)).
Proof.
  unfold skipStep. destruct (argv !! i) as [a|] eqn:Ha.
  - destruct (String.prefix "--" a) eqn:Hf.
    + assert (Hhere : forall P : Prop,
                (exists a', Some a = Some a' /\ String.prefix "--" a' = true /\ P) <-> P).
      { intros P. split; [intros (a' & _ & _ & HP); exact HP | intros HP; exists a; auto]. }
      assert (Hopen : forall a', Some a = Some a' -> includes "=" a' = includes "=" a)
        by (intros a' [= <-]; reflexivity).
      destruct (includes "=" a) eqn:He; cbn [negb].
      * rewrite elem_of_union, elem_of_singleton. split.
        -- intros [->|H]; [right; exists a; auto | now left].
        -- intros [H|(a' & Ha' & _ & [->|(_ & Hc & _)])]; auto.
           rewrite (Hopen a' Ha') in Hc. discriminate Hc.
      * destruct (Nat.ltb_spec (i + 1) (length argv)) as [Hlt|Hge].
        -- rewrite !elem_of_union, !elem_of_singleton. split.
           ++ intros [->|[->|H]]; [| |now left].
              ** right. exists a. split; [reflexivity|]. split; [exact Hf|]. right. auto.
              ** right. exists a. split; [reflexivity|]. split; [exact Hf|]. now left.
           ++ intros [H|(a' & _ & _ & [->|(-> & _ & _)])]; auto.
        -- rewrite elem_of_union, elem_of_singleton. split.
           ++ intros [->|H]; [|now left].
              right. exists a. split; [reflexivity|]. split; [exact Hf|]. now left.
           ++ intros [H|(a' & _ & _ & [->|(_ & _ & Hlt)])]; auto. lia.
    + split; [now left|]. intros [H|(a' & [= <-] & Hf' & _)]; [exact H | congruence].
  - split; [now left|]. intros [H|(a' & Ha' & _)]; [exact H | discriminate Ha'].
Qed.

Lemma skipFold_elem (argv : list string) (l : list nat) :
  forall (skip : gset nat) (j : nat),
  j ∈ fold_left (skipStep argv) l skip
  <-> j ∈ skip
      \/ exists i a, In i l /\ argv !! i = Some a /\ String.prefix "--" a = true
                     /\ (j = i \/ (j = (i + 1)%nat /\ includes "=" a = false
                                   /\ (i + 1 < length argv)%nat)).
Proof.
  induction l as [|i l IH]; intros skip j; cbn [fold_left In].
  - split; [now left | intros [H|(i & a & [] & _)]; exact H].
  - rewrite IH, skipStep_elem. split.
    + intros [[H|(a & Ha & Hf & Hj)]|(i' & a & Hi' & H)]; [now left| |].
      * right. exists i, a. auto.
      * right. exists i', a. tauto.
    + intros [H|(i' & a & [<-|Hi'] & Ha & Hf & Hj)]; [now left; left| |].
      * left. right. exists a. auto.
      * right. exists i', a. auto.
Qed.

(** The last argument of a list is a flag written without [=]. *)
Lemma skipIdx_elem (argv : list string) (j : nat) (x : string) :
  argv !! j = Some x -> String.prefix "--" x = false ->
  (j ∈ skipIdx argv
   <-> exists i a, j = S i /\ argv !! i = Some a /\ String.prefix "--" a = true
                   /\ includes "=" a = false).
Proof.
  intros Hj Hx. unfold skipIdx. rewrite skipFold_elem. split.
  - intros [H|(i & a & _ & Ha & Hf & [->|(-> & He & _)])].
    + now apply elem_of_empty in H.
    + congruence.
    + exists i, a. repeat split; try assumption. lia.
  - intros (i & a & -> & Ha & Hf & He). right. exists i, a.
    assert (S i < length argv)%nat by (apply lookup_lt_is_Some; eauto).
    split; [apply in_seq; lia|]. split; [exact Ha|]. split; [exact Hf|].
    right. split; [lia|]. split; [exact He | lia].
Qed.

Lemma positional_suffix (argv : list string) :
  forall (pre suf : list string),
  argv = pre ++ suf ->
  map snd (List.filter (fun p => negb (String.prefix "--" (snd p))
                                 && negb (bool_decide (fst p ∈ skipIdx argv)))
             (imap (fun i a => ((length pre + i)%nat, a)) suf))
  = positional (match last pre with
                | Some a => String.prefix "--" a && negb (includes "=" a)
                | None => false
                end) suf.
Proof.
  intros pre suf. revert pre. induction suf as [|x suf IH]; intros pre Hargv; [reflexivity|].
  assert (Hx : argv !! length pre = Some x).
  { rewrite Hargv. now rewrite lookup_app_r, Nat.sub_diag by lia. }
  assert (Hnext : map snd (List.filter (fun p => negb (String.prefix "--" (snd p))
                                 && negb (bool_decide (fst p ∈ skipIdx argv)))
             (imap (fun i a => ((length pre + S i)%nat, a)) suf))
           = positional (String.prefix "--" x && negb (includes "=" x)) suf).
  { specialize (IH (pre ++ [x])). rewrite last_snoc, length_app in IH. cbn [length] in IH.
    rewrite <- IH by (now rewrite <- List.app_assoc).
    f_equal. f_equal. apply imap_ext. intros i a _. f_equal. lia. }
  cbn [imap List.filter]. unfold compose. rewrite Nat.add_0_r. cbn [fst snd positional].
  destruct (String.prefix "--" x) eqn:Hf; cbn [negb andb].
  - exact Hnext.
  - cbn [andb] in Hnext.
    destruct (last pre) as [a|] eqn:Hlast.
    + apply last_Some in Hlast as [pre' ->].
      assert (Ha : argv !! length pre' = Some a).
      { rewrite Hargv, <- List.app_assoc. now rewrite lookup_app_r, Nat.sub_diag by lia. }
      rewrite length_app in *. cbn [length] in *.
      destruct (String.prefix "--" a && negb (includes "=" a)) eqn:Hopen.
      * apply andb_prop in Hopen as [Hfa Hea]. apply negb_true_iff in Hea.
        rewrite bool_decide_eq_true_2; [exact Hnext|].
        apply (skipIdx_elem argv _ x Hx Hf). exists (length pre'), a.
        repeat split; try assumption. lia.
      * rewrite bool_decide_eq_false_2; [cbn [negb map snd]; now rewrite Hnext|].
        intros Hin. apply (skipIdx_elem argv _ x Hx Hf) in Hin as (i & a' & Hi & Ha' & Hfa & Hea).
        replace i with (length pre') in Ha' by lia. rewrite Ha in Ha'. injection Ha' as <-.
        rewrite Hfa, Hea in Hopen. discriminate Hopen.
    + apply last_None in Hlast. subst pre. cbn [length] in *.
      rewrite bool_decide_eq_false_2; [cbn [negb map snd]; now rewrite Hnext|].
      intros Hin. apply (skipIdx_elem argv _ x Hx Hf) in Hin as (i & a' & Hi & _). lia.
Qed.

(** X22: which arguments are positional.  The file and the endpoint are the
    first two arguments that are neither a flag nor the argument that follows
    a flag written without [=]: every flag, also one that takes no value such
    as [--db], takes the next argument with it. *)
Theorem X22_positional_arguments (argv : list string) :
  nonFlagArgs argv = positional false argv
  /\ (forall (f x : string) (rest : list string),
        String.prefix "--" f = true -> includes "=" f = false ->
        String.prefix "--" x = false ->
        nonFlagArgs (f :: x :: rest) = nonFlagArgs rest)
  /\ (forall (x : string) (rest : list string),
        String.prefix "--" x = false -> nonFlagArgs (x :: rest) = x :: nonFlagArgs rest).
Proof.
  assert (H : forall l, nonFlagArgs l = positional false l).
  { intros l. exact (positional_suffix l [] l eq_refl). }
  split; [apply H|]. split.
  - intros f x rest Hf He Hx. rewrite !H. cbn [positional]. now rewrite Hf, He, Hx.
  - intros x rest Hx. rewrite !H. cbn [positional]. now rewrite Hx.
Qed.

(* ===================================================================== *)
(** * Further properties: the single-card mode of the script              *)
(* ===================================================================== *)

Lemma toLowerCase_app (a b : string) :
  toLowerCase (a +:+ b) = toLowerCase a +:+ toLowerCase b.
Proof.
  induction a as [|c a IH]; [reflexivity|].
  rewrite sapp_cons. cbn [toLowerCase]. now rewrite IH, sapp_cons.
Qed.

Lemma includes_within (needle a y b : string) :
  includes needle y = true -> includes needle (a +:+ y +:+ b) = true.
Proof.
  rewrite !includes_spec. intros (u & v & ->).
  exists (a +:+ u), (v +:+ b). now rewrite !sapp_assoc.
Qed.

Lemma trimStart_within (x : string) : exists a, x = a +:+ trimStart x.
Proof.
  induction x as [|c x [a IH]]; [exists ""; reflexivity|].
  cbn [trimStart]. destruct (is_white c).
  - exists (String c a). now rewrite sapp_cons, <- IH.
  - exists "". reflexivity.
Qed.

Lemma trimEnd_within (x : string) : exists b, x = trimEnd x +:+ b.
Proof.
  induction x as [|c x [b IH]]; [exists ""; reflexivity|].
  cbn [trimEnd]. destruct (trimEnd x) as [|d r] eqn:E.
  - destruct (is_white c).
    + exists (String c x). reflexivity.
    + exists b. rewrite sapp_cons. now rewrite <- IH.
  - exists b. rewrite sapp_cons. now rewrite <- IH.
Qed.

Lemma substring0_within (n : nat) (x : string) : exists b, x = substring0 n x +:+ b.
Proof.
  unfold substring0. revert n. induction x as [|c x IH]; intros n.
  - exists "". now destruct n.
  - destruct n as [|n]; [exists (String c x); reflexivity|].
    destruct (IH n) as [b Hb]. exists b. cbn [String.substring]. rewrite sapp_cons.
    now rewrite <- Hb.
Qed.

(** A keyword found in a clipped text, read without case, is in the text. *)
Lemma includes_clip (needle x : string) (m : nat) :
  includes needle (toLowerCase (clip (JStr x) m)) = true ->
  includes needle (toLowerCase x) = true.
Proof.
  unfold clip. cbn [ToString].
  destruct (trimStart_within x) as [a Ha].
  destruct (trimEnd_within (trimStart x)) as [b Hb].
  assert (Htrim : includes needle (toLowerCase (trim x)) = true ->
                  includes needle (toLowerCase x) = true).
  { intros H. rewrite Ha, Hb. fold (trim x). rewrite !toLowerCase_app.
    now apply includes_within. }
  destruct (_ && _); [|exact Htrim].
  intros H. apply Htrim.
  destruct (substring0_within m (trim x)) as [c Hc]. rewrite Hc, toLowerCase_app.
  rewrite <- (sapp_nil_l (toLowerCase (substring0 m (trim x)) +:+ toLowerCase c)).
  now apply includes_within.
Qed.

(** The vehicle number of the update mapper is already in standard form. *)
Lemma mapped_vehicle_standard (row : gmap string jsval) (name : string) :
  standardVehicle (ToString (get (mapRowToUpdateProfile row) "VehicleNo")) = Some name ->
  get (mapRowToUpdateProfile row) "VehicleNo" = JStr name.
Proof.
  unfold mapRowToUpdateProfile. cbv zeta.
  set (explicit := s (get row "VEHICLE NO" ||| get row "Vehicle No" ||| get row "VehicleNo")).
  set (mess := toLowerCase (s _)).
  destruct (nonempty explicit) eqn:He; cbn [negb]; get_obj.
  - rewrite He. cbn [ToString].
    destruct (includes "makarti" (toLowerCase explicit)) eqn:E1;
      [intros H; vm_compute in H; injection H as <-; reflexivity|].
    destruct (includes "labota" (toLowerCase explicit)) eqn:E2;
      [intros H; vm_compute in H; injection H as <-; reflexivity|].
    destruct (includes "local" (toLowerCase explicit)) eqn:E3;
      [intros H; vm_compute in H; discriminate H|].
    destruct (includes "no access" (toLowerCase explicit)) eqn:E4;
      [intros H; vm_compute in H; discriminate H|].
    cbn [orb]. unfold standardVehicle. cbv zeta.
    destruct (includes "makarti" (toLowerCase (clip _ _))) eqn:F1; [apply includes_clip in F1; congruence|].
    destruct (includes "labota" (toLowerCase (clip _ _))) eqn:F2; [apply includes_clip in F2; congruence|].
    destruct (includes "local" (toLowerCase (clip _ _))) eqn:F3; [apply includes_clip in F3; congruence|].
    destruct (includes "no access" (toLowerCase (clip _ _))) eqn:F4; [apply includes_clip in F4; congruence|].
    discriminate.
  - destruct (includes "makarti" mess), (includes "labota" mess); get_obj;
      intros H; vm_compute in H; first [injection H as <-; reflexivity | discriminate H].
Qed.

Lemma lookup_get (o : gmap string jsval) (k : string) (x : string) :
  get o k = JStr x -> o !! k = Some (JStr x).
Proof.
  unfold get. destruct (o !! k) as [v|]; cbn; [now intros -> | discriminate].
Qed.

(** The dates of the update mapper are normalised. *)
Lemma mapped_date (row : gmap string jsval) (key : string) :
  In key ["DOB"; "JoiningDate"; "ResignDate"; "ExpiredDate"] ->
  exists x, get (mapRowToUpdateProfile row) key = JStr (normalizeExcelDate (JStr x)).
Proof.
  intros Hk. cbn [In] in Hk. unfold mapRowToUpdateProfile. cbv zeta.
  destruct (if negb _ then _ else _) as [vehicleNo1 accessLevel1].
  destruct Hk as [<-|[<-|[<-|[<-|[]]]]]; get_obj;
    first [eexists; reflexivity | exists ""; reflexivity].
Qed.

Lemma mapped_without (row : gmap string jsval) (k : string) :
  In k ["cardNo"; "downloadCard"; "Address2"] ->
  get (mapRowToUpdateProfile row) k = JUndefined.
Proof.
  intros Hk. cbn [In] in Hk. unfold mapRowToUpdateProfile. cbv zeta.
  destruct (if negb _ then _ else _) as [vehicleNo1 accessLevel1].
  destruct Hk as [<-|[<-|[<-|[]]]]; get_obj; reflexivity.
Qed.

(** The fields that the first loop of the single-card mode copies are
    already within its maximums. *)
Lemma mapped_within_single (row : gmap string jsval) (k : string) (m : nat) :
  In (k, m) SINGLE_MAX ->
  truthy (get (mapRowToUpdateProfile row) k) = true ->
  mapRowToUpdateProfile row !! k
  = Some (JStr (substring0 m (ToString (get (mapRowToUpdateProfile row) k)))).
Proof.
  intros Hin Ht.
  assert (Hcut : forall m', In (k, m') MAX -> (m' <= m)%nat ->
            mapRowToUpdateProfile row !! k
            = Some (JStr (substring0 m (ToString (get (mapRowToUpdateProfile row) k))))).
  { intros m' Hm Hle. destruct (mapRowToUpdateProfile_field row k m' Hm) as (x & Hx & Hl).
    unfold get. rewrite Hx. change (default JUndefined (Some (JStr x))) with (JStr x).
    cbn [ToString]. rewrite substring0_id by lia. reflexivity. }
  unfold SINGLE_MAX in Hin. cbn [In] in Hin.
  repeat (destruct Hin as [[= <- <-]|Hin];
          [first [ eapply Hcut; [unfold MAX; cbn [In]; eauto 12 | lia]
                 | rewrite mapped_without in Ht by (cbn; tauto); discriminate Ht ]|]).
  destruct Hin.
Qed.

(** ** An override that repeats the profile *)

Section Agreement.

Variable p : gmap string jsval.

Local Abbreviation agrees o :=
  (forall (k : string) (v : jsval), o !! k = Some v -> p !! k = Some (JStr (ToString v))).

Lemma agrees_insert (o : gmap string jsval) (key : string) (val : jsval) :
  agrees o -> p !! key = Some (JStr (ToString val)) -> agrees (<[key := val]> o).
Proof.
  intros Ho Hp k v. destruct (string_dec key k) as [<-|Hne].
  - rewrite lookup_insert_eq. now intros [= <-].
  - rewrite lookup_insert_ne by exact Hne. apply Ho.
Qed.

Lemma copyClipped_agrees :
  (forall k m, In (k, m) SINGLE_MAX -> truthy (get p k) = true ->
     p !! k = Some (JStr (substring0 m (ToString (get p k))))) ->
  agrees (copyClipped p).
Proof.
  unfold copyClipped. generalize SINGLE_MAX as table. intros table H.
  assert (Hempty : agrees ∅) by (intros k v Hk; rewrite lookup_empty in Hk; discriminate Hk).
  revert Hempty. generalize (∅ : gmap string jsval) as o.
  induction table as [|[k m] table IH]; intros o Ho; [exact Ho|].
  cbn [fold_left fst snd]. apply IH.
  - intros k' m' Hin. apply H. now right.
  - destruct (truthy (get p k)) eqn:Ht; [|exact Ho].
    apply agrees_insert; [exact Ho|]. apply H; [now left | exact Ht].
Qed.

Lemma setDate_agrees (key : string) (o : gmap string jsval) :
  (exists x, get p key = JStr (normalizeExcelDate (JStr x))) ->
  agrees o -> agrees (setDate p key o).
Proof.
  intros [x Hx] Ho. unfold setDate. rewrite Hx. unfold normalizeExcelDateOpt.
  destruct (nonempty (trim _)); [|exact Ho].
  destruct (nonempty _); [|exact Ho].
  apply agrees_insert; [exact Ho|]. cbn [ToString].
  rewrite normalizeExcelDate_again. now apply lookup_get.
Qed.

Lemma setStandardVehicle_agrees (o : gmap string jsval) :
  (forall name, standardVehicle (ToString (get p "VehicleNo")) = Some name ->
     get p "VehicleNo" = JStr name) ->
  agrees o -> agrees (setStandardVehicle p o).
Proof.
  intros H Ho. unfold setStandardVehicle.
  destruct (truthy _); [|exact Ho].
  destruct (standardVehicle (ToString (get p "VehicleNo"))) as [name|];
    [|exact Ho].
  apply agrees_insert; [exact Ho|]. apply lookup_get, H. reflexivity.
Qed.

Lemma setDownload_agrees (o : gmap string jsval) (x : string) :
  p !! "Download" = Some (JStr x) -> agrees o -> agrees (setDownload p o).
Proof.
  intros H Ho. unfold setDownload. rewrite H. apply agrees_insert; [exact Ho | exact H].
Qed.

Lemma clipVehicle_agrees (o : gmap string jsval) :
  (forall x, p !! "VehicleNo" = Some (JStr x) -> (String.length x <= 15)%nat) ->
  agrees o -> agrees (clipVehicle o).
Proof.
  intros H Ho. unfold clipVehicle. destruct (truthy _) eqn:Ht; [|exact Ho].
  apply agrees_insert; [exact Ho|].
  unfold get in *. destruct (o !! "VehicleNo") as [v|] eqn:E; [|discriminate Ht].
  cbn [default ToString]. change (default JUndefined (Some v)) with v.
  pose proof (Ho _ _ E) as Hp. rewrite Hp. rewrite substring0_id; [reflexivity|].
  exact (H _ Hp).
Qed.

End Agreement.

(** Without flags, the override of the single-card mode repeats the mapped
    row. *)
Lemma singleOverride_agrees (row : gmap string jsval) (k : string) (v : jsval) :
  singleOverride noFlags (mapRowToUpdateProfile row) !! k = Some v ->
  mapRowToUpdateProfile row !! k = Some (JStr (ToString v)).
Proof.
  revert k v. unfold singleOverride. cbv zeta.
  cbn [noFlags accessLevelOverride faceLevelOverride liftLevelOverride departmentOverride
       titleOverride positionOverride genderOverride passportOverride nricOverride
       dobOverride addressOverride phoneOverride joinDateOverride raceOverride
       vehicleOverride activeOverride messhallOverride setFlag setActive setMesshall].
  apply clipVehicle_agrees.
  { intros x Hx.
    destruct (mapRowToUpdateProfile_field row "VehicleNo" 15) as (y & Hy & Hl);
      [unfold MAX; cbn; tauto|].
    rewrite Hy in Hx. now injection Hx as <-. }
  apply (setDownload_agrees _ _ "true"); [apply mapRowToUpdateProfile_Download|].
  apply setStandardVehicle_agrees; [apply mapped_vehicle_standard|].
  do 4 (apply setDate_agrees; [apply mapped_date; cbn; tauto|]).
  apply copyClipped_agrees. intros k m. apply mapped_within_single.
Qed.

(** ** What the flags write *)

Lemma lookup_clipVehicle_ne (o : gmap string jsval) (k : string) :
  k <> "VehicleNo" -> clipVehicle o !! k = o !! k.
Proof.
  intros Hk. unfold clipVehicle. destruct (truthy _); [|reflexivity].
  apply lookup_insert_ne. congruence.
Qed.

Lemma lookup_setMesshall_ne (flag : option string) (o : gmap string jsval) (k : string) :
  k <> "VehicleNo" -> setMesshall flag o !! k = o !! k.
Proof.
  intros Hk. unfold setMesshall. destruct flag as [x|]; [|reflexivity].
  destruct (nonempty x); [|reflexivity]. cbv zeta.
  destruct (includes "makarti" _); [|destruct (includes "labota" _)];
    apply lookup_insert_ne; congruence.
Qed.

Lemma lookup_setActive_ne (flag : option string) (o : gmap string jsval) (k : string) :
  k <> "ActiveStatus" -> setActive flag o !! k = o !! k.
Proof.
  intros Hk. unfold setActive. destruct flag; [|reflexivity].
  apply lookup_insert_ne. congruence.
Qed.

Lemma lookup_setFlag_ne (flag : option string) (key : string) (m : option nat)
    (o : gmap string jsval) (k : string) :
  k <> key -> setFlag flag key m o !! k = o !! k.
Proof.
  intros Hk. unfold setFlag. destruct flag as [x|]; [|reflexivity].
  destruct (nonempty x); [|reflexivity]. apply lookup_insert_ne. congruence.
Qed.

Lemma lookup_setFlag_eq (x : string) (key : string) (m : option nat) (o : gmap string jsval) :
  x <> "" -> setFlag (Some x) key m o !! key = Some (JStr (flagText x m)).
Proof.
  intros Hx. unfold setFlag. apply nonempty_true in Hx. rewrite Hx. apply lookup_insert_eq.
Qed.

Lemma lookup_setDownload_ne (p o : gmap string jsval) (k : string) :
  k <> "Download" -> setDownload p o !! k = o !! k.
Proof.
  intros Hk. unfold setDownload. destruct (p !! "Download") as [[]|]; try reflexivity;
    apply lookup_insert_ne; congruence.
Qed.

Lemma lookup_setStandardVehicle_ne (p o : gmap string jsval) (k : string) :
  k <> "VehicleNo" -> setStandardVehicle p o !! k = o !! k.
Proof.
  intros Hk. unfold setStandardVehicle. destruct (truthy _); [|reflexivity].
  destruct (standardVehicle _); [|reflexivity]. apply lookup_insert_ne. congruence.
Qed.

Lemma lookup_setDate_ne (p o : gmap string jsval) (key k : string) :
  k <> key -> setDate p key o !! k = o !! k.
Proof.
  intros Hk. unfold setDate.
  destruct (get p key); try reflexivity;
    (destruct (normalizeExcelDateOpt _) as [n|]; [|reflexivity]);
    (destruct (nonempty n); [|reflexivity]); apply lookup_insert_ne; congruence.
Qed.

Lemma lookup_copyClipped_other (p : gmap string jsval) (k : string) :
  ~ In k (map fst SINGLE_MAX) -> copyClipped p !! k = None.
Proof.
  intros Hk. unfold copyClipped.
  rewrite (retry_fold_other p SINGLE_MAX ∅ k Hk). apply lookup_empty.
Qed.

Ltac peel_override :=
  rewrite ?lookup_clipVehicle_ne, ?lookup_setMesshall_ne, ?lookup_setActive_ne by discriminate;
  repeat rewrite lookup_setFlag_ne by discriminate.

(** The override of the single-card mode has neither [cardNo] nor
    [downloadCard]. *)
Lemma singleOverride_plain (fl : flags) (p : gmap string jsval) (k : string) :
  In k ["cardNo"; "downloadCard"] -> singleOverride fl p !! k = None.
Proof.
  intros Hk. cbn [In] in Hk. unfold singleOverride. cbv zeta.
  destruct Hk as [<-|[<-|[]]]; peel_override;
    rewrite lookup_setDownload_ne, lookup_setStandardVehicle_ne, !lookup_setDate_ne
      by discriminate;
    apply lookup_copyClipped_other; unfold SINGLE_MAX; cbn [map fst In]; intuition discriminate.
Qed.

Lemma singleProfile_unfold (fl : flags) (row : gmap string jsval) :
  singleProfile fl row
  = applyFieldOverrides (singleOverride fl (mapRowToUpdateProfile row))
      (mapRowToUpdateProfile row).
Proof.
  unfold singleProfile. cbv zeta. f_equal. unfold applyUpdateOverride, get.
  rewrite !singleOverride_plain by (cbn; tauto). reflexivity.
Qed.

Lemma singleProfile_same (row : gmap string jsval) :
  singleProfile noFlags row = mapRowToUpdateProfile row.
Proof.
  rewrite singleProfile_unfold. apply applyFieldOverrides_id.
  intros k v _. apply singleOverride_agrees.
Qed.

(** The flags of the table are the last to write their fields. *)
Lemma singleOverride_flag (fl : flags) (p : gmap string jsval)
    (f : flags -> option string) (key : string) (m : option nat) (x : string) :
  In (f, key, m) fieldFlags -> f fl = Some x -> x <> "" ->
  singleOverride fl p !! key = Some (JStr (flagText x m)).
Proof.
  intros Hin Hf Hx. unfold fieldFlags in Hin. cbn [In] in Hin.
  unfold singleOverride. cbv zeta.
  repeat (destruct Hin as [[= <- <- <-]|Hin];
          [peel_override; rewrite Hf; apply lookup_setFlag_eq; exact Hx|]).
  destruct Hin.
Qed.

Lemma singleOverride_active (fl : flags) (p : gmap string jsval) :
  singleOverride fl p !! "ActiveStatus"
  = match activeOverride fl with
    | Some x => Some (JStr (activeStatusOf x))
    | None => None
    end.
Proof.
  unfold singleOverride. cbv zeta.
  rewrite lookup_clipVehicle_ne, lookup_setMesshall_ne by discriminate.
  unfold setActive. destruct (activeOverride fl) as [x|]; [apply lookup_insert_eq|].
  repeat rewrite lookup_setFlag_ne by discriminate.
  rewrite lookup_setDownload_ne, lookup_setStandardVehicle_ne, !lookup_setDate_ne
    by discriminate.
  apply lookup_copyClipped_other. unfold SINGLE_MAX. cbn [map fst In]. intuition discriminate.
Qed.

Lemma substring0_twice (n : nat) (x : string) :
  substring0 n (substring0 n x) = substring0 n x.
Proof. apply substring0_id, substring0_length. Qed.

Lemma clipVehicle_set (o : gmap string jsval) (x : string) :
  o !! "VehicleNo" = Some (JStr x) ->
  clipVehicle o !! "VehicleNo" = Some (JStr (substring0 15 x)).
Proof.
  intros Ho. unfold clipVehicle, get. rewrite Ho.
  change (default JUndefined (Some (JStr x))) with (JStr x). cbn [truthy ToString].
  destruct x as [|c x]; [exact Ho|]. cbn [negb String.eqb]. apply lookup_insert_eq.
Qed.

Lemma singleOverride_vehicle (fl : flags) (p : gmap string jsval) (x : string) :
  x <> "" ->
  (messhallOverride fl = Some x ->
   singleOverride fl p !! "VehicleNo"
   = Some (JStr (if includes "makarti" (toLowerCase (trim x)) then "Makarti"
                 else if includes "labota" (toLowerCase (trim x)) then "Labota"
                 else substring0 15 (trim x))))
  /\ (vehicleOverride fl = Some x ->
      messhallOverride fl = None \/ messhallOverride fl = Some "" ->
      singleOverride fl p !! "VehicleNo" = Some (JStr (substring0 15 (trim x)))).
Proof.
  intros Hx. unfold singleOverride. cbv zeta. split.
  - intros Hm. rewrite Hm. unfold setMesshall.
    replace (nonempty x) with true by (symmetry; now apply nonempty_true). cbv zeta.
    destruct (includes "makarti" _); [|destruct (includes "labota" _)];
      (erewrite clipVehicle_set by apply lookup_insert_eq); try reflexivity.
    change (SINGLE_MAX_ "VehicleNo") with 15%nat. now rewrite substring0_twice.
  - intros Hv Hm. rewrite Hv.
    assert (Hskip : forall o, setMesshall (messhallOverride fl) o = o)
      by (intros o; destruct Hm as [-> | ->]; reflexivity).
    rewrite Hskip.
    erewrite clipVehicle_set;
      [|rewrite lookup_setActive_ne by discriminate; now apply lookup_setFlag_eq].
    cbn [flagText]. change (SINGLE_MAX_ "VehicleNo") with 15%nat.
    now rewrite substring0_twice.
Qed.

(** ** The search for the card and the submission *)

Lemma findIndex_None (dir : gmap string string) (cardNo : string)
    (rows : list (gmap string jsval)) :
  (forall row, In row rows -> get (mapRowToUpdateProfile row) "CardNo" <> JStr cardNo) ->
  findIndex cardNo (previewUpdateCsvPathToVault dir rows) = None.
Proof.
  unfold previewUpdateCsvPathToVault.
  induction rows as [|r rows IH]; intros H; [reflexivity|].
  cbn [map findIndex d_cardNo].
  pose proof (H r (or_introl eq_refl)) as Hr.
  rewrite mapRowToUpdateProfile_CardNo in Hr |- *. cbn [ToString].
  destruct (String.eqb_spec (substring0 10 (s (get r "CARD NO" ||| get r "Card No"
              ||| get r "CardNo" ||| get r "Card Number"))) cardNo) as [E|E];
    [congruence|].
  rewrite IH; [reflexivity|]. intros row Hin. apply H. now right.
Qed.

Lemma findIndex_Some (dir : gmap string string) (cardNo : string)
    (rows : list (gmap string jsval)) :
  forall (idx : nat) (row : gmap string jsval),
  rows !! idx = Some row ->
  get (mapRowToUpdateProfile row) "CardNo" = JStr cardNo ->
  (forall j r, (j < idx)%nat -> rows !! j = Some r ->
     get (mapRowToUpdateProfile r) "CardNo" <> JStr cardNo) ->
  findIndex cardNo (previewUpdateCsvPathToVault dir rows) = Some idx.
Proof.
  unfold previewUpdateCsvPathToVault.
  induction rows as [|r rows IH]; intros idx row Hidx Hrow Hbefore; [discriminate Hidx|].
  cbn [map findIndex d_cardNo].
  destruct idx as [|idx].
  - injection Hidx as ->. rewrite Hrow. cbn [ToString]. now rewrite String.eqb_refl.
  - change (rows !! idx = Some row) in Hidx.
    pose proof (Hbefore 0%nat r ltac:(lia) eq_refl) as Hr.
    rewrite mapRowToUpdateProfile_CardNo in Hr |- *. cbn [ToString].
    destruct (String.eqb_spec (substring0 10 (s (get r "CARD NO" ||| get r "Card No"
                ||| get r "CardNo" ||| get r "Card Number"))) cardNo) as [E|E];
      [congruence|].
    rewrite (IH idx row Hidx Hrow); [reflexivity|].
    intros j r' Hj Hr'. apply (Hbefore (S j) r'); [lia | exact Hr'].
Qed.

Section SingleCardFacts.

Context {W : Type}.
Variable fetch : W -> request -> W * fetchResult.
Variables SOAP_NAMESPACE SOAP_VERSION UPDATE_SOAP_ACTION : string.
Variable dir : gmap string string.

Local Abbreviation singleCardMode' :=
  (singleCardMode fetch SOAP_NAMESPACE SOAP_VERSION UPDATE_SOAP_ACTION dir).
Local Abbreviation singleCall' :=
  (singleCall SOAP_NAMESPACE SOAP_VERSION UPDATE_SOAP_ACTION dir).
Local Abbreviation updateRequest' :=
  (updateRequest SOAP_NAMESPACE SOAP_VERSION UPDATE_SOAP_ACTION dir).
Local Abbreviation updateCalls' :=
  (updateCalls SOAP_NAMESPACE SOAP_VERSION UPDATE_SOAP_ACTION dir).

(** X23: a card that is not in the file.  When no row of the file maps to
    the card number asked for, the single-card mode sends nothing and the
    script exits with code 1, whatever the flags. *)
Theorem X23_single_card_not_found (fl : flags) (rows : list (gmap string jsval))
    (endpoint cardNo : string) (st : state) :
  (forall row, In row rows -> get (mapRowToUpdateProfile row) "CardNo" <> JStr cardNo) ->
  singleCardMode' fl rows endpoint cardNo st = (1, st).
Proof.
  intros H. unfold singleCardMode. cbv zeta. now rewrite (findIndex_None dir cardNo rows H).
Qed.

(** X24: a card that is in the file.  The single-card mode takes the first
    row that maps to the card number, makes one request for it, and the
    script exits with code 0 when the reply is a business success and with
    code 2 otherwise, a request that fails included. *)
Theorem X24_single_card_found (fl : flags) (rows : list (gmap string jsval))
    (endpoint cardNo : string) (idx : nat) (row : gmap string jsval) (st : state) :
  rows !! idx = Some row ->
  get (mapRowToUpdateProfile row) "CardNo" = JStr cardNo ->
  (forall j r, (j < idx)%nat -> rows !! j = Some r ->
     get (mapRowToUpdateProfile r) "CardNo" <> JStr cardNo) ->
  let reply := fetch (world st) (updateRequest' endpoint (singleProfile fl row)) in
  let '(code, st') := singleCardMode' fl rows endpoint cardNo st in
  world st' = fst reply
  /\ calls st' = calls st ++ [singleCall' fl rows endpoint idx]
  /\ code = match snd reply with
            | FetchThrows _ => 2
            | FetchResponse http text =>
                if updateOk (parseUpdateCardResponse http text) then 0 else 2
            end.
Proof.
  intros Hidx Hrow Hbefore.
  assert (Hlt : (idx < length rows)%nat) by (apply lookup_lt_is_Some; eauto).
  assert (Hnth : nth idx rows ∅ = row).
  { apply nth_lookup_Some with (d := ∅) in Hidx. exact Hidx. }
  unfold singleCardMode, singleCall. cbv zeta.
  rewrite (findIndex_Some dir cardNo rows idx row Hidx Hrow Hbefore).
  rewrite (preview_profile dir rows idx Hlt), Hnth.
  unfold updateCsvRowToVault.
  replace (Z.of_nat idx <? 0) with false by (symmetry; apply Z.ltb_ge; lia).
  replace (Z.of_nat (length rows) <=? Z.of_nat idx) with false
    by (symmetry; apply Z.leb_gt; lia).
  cbn [orb]. rewrite Nat2Z.id, Hnth. cbv zeta. unfold singleProfile. cbv zeta.
  set (sent := applyFieldOverrides _ _). clearbody sent.
  unfold bind, ret.
  pose proof (submitUpdate_spec fetch SOAP_NAMESPACE SOAP_VERSION UPDATE_SOAP_ACTION dir
                endpoint idx None sent
                {| attempted := 1; registered := 0; withPhoto := 0; withoutPhoto := 0;
                   errors := []; details := [] |} st) as H.
  cbv zeta in H.
  destruct (submitUpdate _ _ _ _ _ _ _ _ _ _ _) as [res st'].
  destruct H as (Hw & Hc & _ & _ & Hr).
  split; [exact Hw|]. split; [exact Hc|].
  unfold retryOk. cbn [s_rowStatus rs_ok].
  destruct (snd (fetch (world st) _)) as [msg|http text].
  - destruct Hr as (_ & He & _). cbn [errors app] in He. now rewrite He.
  - destruct Hr as (d & _ & _ & _ & _ & Hr). cbn [errors app] in Hr.
    destruct (updateOk (parseUpdateCardResponse http text)); destruct Hr as [_ ->]; reflexivity.
Qed.

End SingleCardFacts.

(** X23 on a file of one row, asked for a card named after a status. *)
Lemma X23_witness :
  singleCardMode (always accepted) namespace "1.1" "WebAPI/UpdateCard" ∅ noFlags
    [rowWithCard] endpoint "inactive" (start tt)
  = (1, start tt).
Proof.
  apply (X23_single_card_not_found (always accepted) namespace "1.1" "WebAPI/UpdateCard" ∅
           noFlags [rowWithCard] endpoint "inactive" (start tt)).
  intros row [<-|[]]. vm_compute. discriminate.
Defined.

(** X24 on a file of one row whose card is asked for, with an endpoint that
    accepts the update. *)
Lemma X24_witness :
  fst (singleCardMode (always accepted) namespace "1.1" "WebAPI/UpdateCard" ∅ noFlags
         [rowWithCard] endpoint "1234567890" (start tt)) = 0.
Proof.
  pose proof (X24_single_card_found (always accepted) namespace "1.1" "WebAPI/UpdateCard" ∅
                noFlags [rowWithCard] endpoint "1234567890" 0 rowWithCard (start tt)
                eq_refl) as H.
  assert (Hcard : get (mapRowToUpdateProfile rowWithCard) "CardNo" = JStr "1234567890")
    by (vm_compute; reflexivity).
  assert (Hfirst : forall j r, (j < 0)%nat -> [rowWithCard] !! j = Some r ->
            get (mapRowToUpdateProfile r) "CardNo" <> JStr "1234567890")
    by (intros j r Hj; lia).
  specialize (H Hcard Hfirst). cbv zeta in H.
  destruct (singleCardMode _ _ _ _ _ _ _ _ _ _) as [code st'].
  destruct H as (_ & _ & ->). reflexivity.
Defined.

(** ** Without flags *)

Lemma getFlagVal_absent (argv : list string) (name : string) :
  Forall (fun a => String.eqb a name || String.prefix (name +:+ "=") a = false) argv ->
  getFlagVal argv name = None.
Proof.
  intros H. unfold getFlagVal.
  replace (List.find _ argv) with (@None string); [reflexivity|].
  symmetry. induction H as [|a argv Ha _ IH]; [reflexivity|].
  cbn [List.find]. now rewrite Ha.
Qed.

Lemma flag_absent (name a : string) :
  String.prefix "--" name = true -> String.prefix "--" a = false ->
  String.eqb a name || String.prefix (name +:+ "=") a = false.
Proof.
  intros Hn Ha. apply orb_false_intro.
  - apply String.eqb_neq. intros ->. congruence.
  - destruct (String.prefix (name +:+ "=") a) eqn:E; [|reflexivity].
    apply prefix_spec in E as [b ->]. apply prefix_spec in Hn as [r ->].
    rewrite <- Ha. symmetry. apply prefix_spec. exists (r +:+ "=" +:+ b).
    now rewrite !sapp_assoc.
Qed.

(** No flag that sets a field is read from arguments of which [--card] is
    the only flag. *)
Lemma flagsOf_card_only (argv : list string) :
  Forall (fun a => String.prefix "--" a = false \/ a = "--card"
                   \/ String.prefix "--card=" a = true) argv ->
  flagsOf argv = noFlags.
Proof.
  intros H.
  assert (Hnone : forall name,
            String.prefix "--" name = true ->
            String.eqb "--card" name || String.prefix (name +:+ "=") "--card" = false ->
            (forall b, String.eqb ("--card=" +:+ b) name
                       || String.prefix (name +:+ "=") ("--card=" +:+ b) = false) ->
            getFlagVal argv name = None).
  { intros name Hn Hc He. apply getFlagVal_absent.
    eapply List.Forall_impl; [|exact H]. cbn beta.
    intros a [Ha|[->|Ha]]; [now apply flag_absent | exact Hc |].
    apply prefix_spec in Ha as [b ->]. apply He. }
  unfold flagsOf, noFlags, orFlag.
  rewrite !Hnone; try reflexivity; intros b; vm_compute; reflexivity.
Qed.

Section PlainFacts.

Variables SOAP_NAMESPACE SOAP_VERSION UPDATE_SOAP_ACTION : string.
Variable dir : gmap string string.

Local Abbreviation singleCall' :=
  (singleCall SOAP_NAMESPACE SOAP_VERSION UPDATE_SOAP_ACTION dir).
Local Abbreviation updateCalls' :=
  (updateCalls SOAP_NAMESPACE SOAP_VERSION UPDATE_SOAP_ACTION dir).

(** X25: the single-card mode without field flags.  When [--card] is the
    only flag among the arguments, no field flag is read, the profile sent
    for the row is the profile that the mapper gives, and the envelope is the
    one that the first pass of the batch mode sends for that row: the
    copies, the second normalisation of the dates and the standard vehicle
    names change nothing. *)
Theorem X25_single_card_plain (argv : list string) (rows : list (gmap string jsval))
    (endpoint : string) (idx : nat) (row : gmap string jsval) :
  Forall (fun a => String.prefix "--" a = false \/ a = "--card"
                   \/ String.prefix "--card=" a = true) argv ->
  rows !! idx = Some row ->
  flagsOf argv = noFlags
  /\ singleProfile (flagsOf argv) row = mapRowToUpdateProfile row
  /\ updateCalls' endpoint [] 0 rows !! idx = Some (singleCall' (flagsOf argv) rows endpoint idx).
Proof.
  intros Hargv Hidx. rewrite (flagsOf_card_only argv Hargv).
  split; [reflexivity|]. split; [apply singleProfile_same|].
  rewrite (updateCalls_lookup SOAP_NAMESPACE SOAP_VERSION UPDATE_SOAP_ACTION dir
             endpoint [] rows 0 idx row Hidx).
  unfold singleCall. apply nth_lookup_Some with (d := ∅) in Hidx.
  rewrite Hidx, singleProfile_same. reflexivity.
Qed.

End PlainFacts.

(** X25 on the arguments of a call that names the file and the card. *)
Lemma X25_witness :
  singleProfile (flagsOf ["cards.xlsx"; "--card"; "1234567890"]) rowWithCard
  = mapRowToUpdateProfile rowWithCard.
Proof.
  refine (proj1 (proj2 (X25_single_card_plain namespace "1.1" "WebAPI/UpdateCard" ∅
                          ["cards.xlsx"; "--card"; "1234567890"] [rowWithCard] endpoint 0
                          rowWithCard _ eq_refl))).
  constructor; [left; reflexivity|]. constructor; [right; left; reflexivity|].
  constructor; [left; reflexivity|]. constructor.
Defined.

(** X26: what the flags of the single-card mode send.  The status sent is
    true for the flag values true, 1, active and permanent, read trimmed and
    without case, false for every other value, and the status of the mapper
    when the flag is not given.  A field flag that is not empty replaces the
    field by its value, trimmed and cut at the maximum of the field.  The
    vehicle is the mess hall flag, brought to the standard names Makarti and
    Labota, or else the vehicle flag, in both cases cut at 15 characters. *)
Theorem X26_single_card_flags (fl : flags) (row : gmap string jsval) :
  let sent := singleProfile fl row in
  get sent "ActiveStatus"
  = match activeOverride fl with
    | Some x => JStr (activeStatusOf x)
    | None => get (mapRowToUpdateProfile row) "ActiveStatus"
    end
  /\ (forall f key m x, In (f, key, m) fieldFlags -> f fl = Some x -> x <> "" ->
        get sent key = JStr (flagText x m))
  /\ (forall x, messhallOverride fl = Some x -> x <> "" ->
        get sent "VehicleNo"
        = JStr (if includes "makarti" (toLowerCase (trim x)) then "Makarti"
                else if includes "labota" (toLowerCase (trim x)) then "Labota"
                else substring0 15 (trim x)))
  /\ (forall x, vehicleOverride fl = Some x -> x <> "" ->
        messhallOverride fl = None \/ messhallOverride fl = Some "" ->
        get sent "VehicleNo" = JStr (substring0 15 (trim x)))
  /\ get sent "CardNo" = get (mapRowToUpdateProfile row) "CardNo"
  /\ get sent "Photo" = get (mapRowToUpdateProfile row) "Photo".
Proof.
  cbv zeta. rewrite singleProfile_unfold.
  split.
  { rewrite applyFieldOverrides_get by (unfold overrideKeys; cbn; tauto).
    rewrite singleOverride_active. now destruct (activeOverride fl). }
  split.
  { intros f key m x Hin Hf Hx. rewrite applyFieldOverrides_get.
    - now rewrite (singleOverride_flag fl _ f key m x Hin Hf Hx).
    - unfold fieldFlags in Hin. cbn [In] in Hin. unfold overrideKeys. cbn [In].
      repeat (destruct Hin as [[= _ <- _]|Hin]; [tauto|]). destruct Hin. }
  split.
  { intros x Hm Hx. rewrite applyFieldOverrides_get by (unfold overrideKeys; cbn; tauto).
    now rewrite (proj1 (singleOverride_vehicle fl (mapRowToUpdateProfile row) x Hx) Hm). }
  split.
  { intros x Hv Hx Hm. rewrite applyFieldOverrides_get by (unfold overrideKeys; cbn; tauto).
    now rewrite (proj2 (singleOverride_vehicle fl (mapRowToUpdateProfile row) x Hx) Hv Hm). }
  split; apply applyFieldOverrides_other; unfold overrideKeys; cbn [In]; intuition discriminate.
Qed.

(* ===================================================================== *)
(** * Further properties: the mess hall in the two mappers                *)
(* ===================================================================== *)

Lemma keep01_lower_char (c : ascii) (x y : string) :
  keep01 x = keep01 y -> keep01 (String (lower_char c) x) = keep01 (String c y).
Proof.
  intros H. cbn [keep01]. rewrite H.
  destruct c as [[] [] [] [] [] [] [] []]; reflexivity.
Qed.

Lemma keep01_toLowerCase (x : string) : keep01 (toLowerCase x) = keep01 x.
Proof.
  induction x as [|c x IH]; [reflexivity|].
  cbn [toLowerCase]. now apply keep01_lower_char.
Qed.

(** X27: the two mappers encode the same mess hall differently.  For a row
    whose mess hall cell names Labota, and whose access-level and vehicle
    cells are blank, the create mapper gives the access level 1 and the
    update mapper 01; for Makarti they give 2 and 10. *)
Theorem X27_messhall_access_levels (row : gmap string jsval) (cell : string) :
  get row "MESSHALL" = JUndefined ->
  get row "MessHall" = JStr cell ->
  s (get row "Access Level [Max 3]" ||| get row "Access Level" ||| get row "AccessLevel") = "" ->
  s (get row "ACCESS LEVEL" ||| get row "Access Level" ||| get row "AccessLevel") = "" ->
  s (get row "VEHICLE NO" ||| get row "Vehicle No" ||| get row "VehicleNo") = "" ->
  (toLowerCase (trim cell) = "labota" ->
   get (mapRowToProfile row) "AccessLevel" = JStr "1"
   /\ get (mapRowToUpdateProfile row) "AccessLevel" = JStr "01")
  /\ (toLowerCase (trim cell) = "makarti" ->
      get (mapRowToProfile row) "AccessLevel" = JStr "2"
      /\ get (mapRowToUpdateProfile row) "AccessLevel" = JStr "10").
Proof.
  intros Hupper Hcell Hcreate Hupdate Hvehicle.
  assert (Hhall : forall hall, hall <> "" -> toLowerCase (trim cell) = hall ->
            s (get row "MessHall" ||| get row "Mess Hall" ||| JStr "") = trim cell
            /\ s (get row "MESSHALL" ||| get row "MessHall" ||| get row "Mess Hall")
               = trim cell).
  { intros hall Hne Hl. rewrite Hupper, Hcell.
    assert (Hc : truthy (JStr cell) = true).
    { destruct cell as [|c cell]; [|reflexivity]. cbn in Hl. congruence. }
    unfold JS.or. change (truthy JUndefined) with false. cbv iota.
    rewrite !Hc. cbv iota. rewrite ?Hc. split; reflexivity. }
  assert (Hlevels : forall hall, hall <> "" -> toLowerCase (trim cell) = hall ->
            get (mapRowToProfile row) "AccessLevel"
            = JStr (orDefault (if String.eqb (trim hall) "labota" then "1"
                               else if String.eqb (trim hall) "makarti" then "2"
                               else "") "00")
            /\ get (mapRowToUpdateProfile row) "AccessLevel"
               = JStr (orDefault
                         (if String.eqb (keep01 hall) "00" || includes "no access" hall
                             || includes "local hire" hall then "00"
                          else if String.eqb (keep01 hall) "01" || includes "labota" hall
                          then "01"
                          else if String.eqb (keep01 hall) "10" || includes "makarti" hall
                          then "10"
                          else if String.eqb (keep01 hall) "11"
                                  || (includes "makarti" hall && includes "labota" hall)
                          then "11" else "") "00")).
  { intros hall Hne Hl. destruct (Hhall hall Hne Hl) as [Hc Hu]. split.
    - unfold mapRowToProfile. cbv zeta. get_obj. rewrite Hcreate, Hc, Hl. cbn [nonempty String.eqb negb].
      destruct (String.eqb (trim hall) "labota"); [reflexivity|].
      destruct (String.eqb (trim hall) "makarti"); [reflexivity|].
      now destruct (_ || _).
    - unfold mapRowToUpdateProfile. cbv zeta. rewrite Hvehicle, Hupdate, Hu, Hl.
      cbn [nonempty String.eqb negb]. rewrite <- (keep01_toLowerCase (trim cell)), Hl.
      get_obj.
      destruct (String.eqb (keep01 hall) "00" || _ || _); [reflexivity|].
      destruct (String.eqb (keep01 hall) "01" || _); [reflexivity|].
      destruct (String.eqb (keep01 hall) "10" || _); [reflexivity|].
      destruct (String.eqb (keep01 hall) "11" || _); reflexivity. }
  split; intros Hl.
  - destruct (Hlevels "labota" ltac:(discriminate) Hl) as [-> ->]. split; reflexivity.
  - destruct (Hlevels "makarti" ltac:(discriminate) Hl) as [-> ->]. split; reflexivity.
Qed.

(** X27 on a row whose only cell names Labota. *)
Lemma X27_witness :
  get (mapRowToProfile (obj [("MessHall", JStr " Labota ")])) "AccessLevel" = JStr "1"
  /\ get (mapRowToUpdateProfile (obj [("MessHall", JStr " Labota ")])) "AccessLevel"
     = JStr "01".
Proof.
  apply (proj1 (X27_messhall_access_levels (obj [("MessHall", JStr " Labota ")]) " Labota "
                  eq_refl eq_refl eq_refl eq_refl eq_refl)).
  reflexivity.
Defined.
